(** * Simulation core of the wargames grand-strategy game

    A shallow embedding of the tick-driven engines of the repository
    (src/country.py, src/province.py, src/unit.py and src/systems/*.py) and
    the properties of its specification that were checked against them.

    Conventions of the embedding.
    - Python [float] is Rocq's primitive binary64 [float]; Python [int] is [Z].
      An [int] that meets a [float] in arithmetic is converted by [Z2float]
      (round to nearest even, as Python does; exact below 2^53; [int]s
      beyond the floats raise in Python and are left out where it is said);
      the true division of two [int]s rounds their exact quotient once
      ([int_truediv]), and an [int] is compared with a [float] exactly.
    - A Python [dict] is an association list in insertion order ([Dict.t]); a
      Python [list] is a [list].
    - Objects that the engines mutate in place live in one [GameState.t]; a
      method that mutates returns the new state, a method that can raise
      returns an [option] ([None] is the exception escaping the call).
    - Units are shared between the roster and the lists a battle gathers: such
      a list holds references (positions in the roster), not copies; a battle
      is likewise referred to by its position in the active list.
    - The draws of [random.uniform] are inputs of the combat engine.
    - src/systems/combat.py does not parse as shipped (line 211); the
      engine is embedded with that line repaired, see [Combat.defenders_won].
    The orchestrating [GameState.update], the randomized decisions of the AI
    controller and the presentation layer are not embedded: no property
    below is about them. Of src/game.py the calendar of [get_current_date]
    is embedded, of src/systems/ai.py the economic decision. *)

From Stdlib Require Import ZArith List String Bool Lia Floats DecimalString.
Import ListNotations.
(* Decimal literals denote the nearest binary64 value, as in Python. *)
Set Warnings "-inexact-float".
Local Open Scope string_scope.
Local Open Scope list_scope.
Local Open Scope Z_scope.

(** ** Python values *)

(** [float(n)] for an [int n] within the range of a [float]: the nearest
    binary64 value, ties to even. Beyond that range Python raises
    [OverflowError] where this conversion gives an infinity
    ([float_overflows]); the properties that let an unbounded [int] meet a
    [float] assume it in range. *)
Definition Z2float (z : Z) : float :=
  SF2Prim (binary_normalize prec emax z 0 false).

Definition float_overflows (z : Z) : bool :=
  PrimFloat.is_infinity (Z2float z).

(** An [int] as an unrounded floating-point number: mantissa [z], exponent
    0. *)
Definition Z2SF (z : Z) : spec_float :=
  match z with
  | Z0 => S754_zero false
  | Zpos p => S754_finite false p 0
  | Zneg p => S754_finite true p 0
  end.

(** [int(x)] for a [float x]: truncation toward zero; infinities and NaN
    raise ([OverflowError], [ValueError]). *)
Definition int_of_float (x : float) : option Z :=
  match Prim2SF x with
  | S754_zero _ => Some 0
  | S754_finite s m e =>
      let v := match e with
               | Zneg p => Z.shiftr (Z.pos m) (Z.pos p)
               | _ => Z.shiftl (Z.pos m) e
               end in
      Some (if s then - v else v)
  | S754_infinity _ => None
  | S754_nan => None
  end.

(** [a / b] on two [int]s (true division): the exact quotient of the two
    integers, rounded once to the nearest [float], ties to even.
    [ZeroDivisionError] when [b = 0], [OverflowError] when the quotient is
    beyond the range of a [float]. *)
Definition int_truediv (a b : Z) : option float :=
  if b =? 0 then None
  else match SFdiv prec emax (Z2SF a) (Z2SF b) with
       | S754_infinity _ => None
       | q => Some (SF2Prim q)
       end.

(** [x == n] for a [float x] and an [int n]: the two values are compared
    exactly, without rounding [n]. *)
Definition float_eq_int (x : float) (n : Z) : bool :=
  match Prim2SF x with
  | S754_zero _ => n =? 0
  | S754_finite s m e =>
      let v := if s then Z.neg m else Z.pos m in
      match e with
      | Zneg p => v =? n * 2 ^ Z.pos p
      | _ => v * 2 ^ e =? n
      end
  | S754_infinity _ => false
  | S754_nan => false
  end.

(** Truth value of a [str]: the empty string is false. *)
Definition truthy_str (s : string) : bool :=
  match s with EmptyString => false | _ => true end.

(** Truth value of an [Optional[int]]: [None] and [0] are false. *)
Definition truthy_opt_int (o : option Z) : bool :=
  match o with Some z => negb (z =? 0) | None => false end.

(** Truth value of an [Optional[str]]. *)
Definition truthy_opt_str (o : option string) : bool :=
  match o with Some s => truthy_str s | None => false end.

(** [x in xs] for a list of strings. *)
Definition mem (x : string) (xs : list string) : bool :=
  existsb (String.eqb x) xs.

(** [xs.remove(x)] when [x in xs]: the first occurrence goes. *)
Fixpoint remove_first (x : string) (xs : list string) : list string :=
  match xs with
  | [] => []
  | y :: ys => if String.eqb y x then ys else y :: remove_first x ys
  end.

(** [a == b] on two lists: same length and equal elements. *)
Fixpoint list_eqb {A : Type} (eqb : A -> A -> bool) (xs ys : list A) : bool :=
  match xs, ys with
  | [], [] => true
  | x :: xs', y :: ys' => eqb x y && list_eqb eqb xs' ys'
  | _, _ => false
  end.

(** [xs.remove(x)] for the object [x] at position [i] of [xs]: the first
    element that is [x] itself or is equal to it goes. *)
Fixpoint remove_object {A : Type} (eqb : A -> A -> bool) (x : A) (i : nat)
  (xs : list A) : list A :=
  match xs, i with
  | [], _ => []
  | _ :: r, O => r
  | y :: r, S j => if eqb y x then r else y :: remove_object eqb x j r
  end.

(** [xs[i] = f(xs[i])]: the object at position [i] is mutated. *)
Fixpoint update_nth {A : Type} (i : nat) (f : A -> A) (xs : list A) : list A :=
  match xs, i with
  | [], _ => []
  | x :: r, O => f x :: r
  | x :: r, S j => x :: update_nth j f r
  end.

(** A [dict] keyed by strings, in insertion order. The keys of a Python dict
    are unique: [set] overwrites in place or appends, [del] drops the key. *)
Module Dict.
Section Dict.
Context {V : Type}.

Definition t : Type := list (string * V).

Fixpoint get (k : string) (d : t) : option V :=
  match d with
  | [] => None
  | (k', v) :: r => if String.eqb k' k then Some v else get k r
  end.

Definition contains (k : string) (d : t) : bool :=
  match get k d with Some _ => true | None => false end.

Fixpoint set (k : string) (v : V) (d : t) : t :=
  match d with
  | [] => [(k, v)]
  | (k', v') :: r =>
      if String.eqb k' k then (k', v) :: r else (k', v') :: set k v r
  end.

Definition del (k : string) (d : t) : t :=
  filter (fun kv => negb (String.eqb (fst kv) k)) d.

Definition items (d : t) : list (string * V) := d.
Definition keys (d : t) : list string := map fst d.
End Dict.
Arguments t : clear implicits.
End Dict.

(** ** src/province.py *)

Module Province.
(** The fields the engines read; the map colour, the display name and the
    adjacency list belong to the presentation layer. *)
Record t := mk {
  province_id : Z;
  terrain_type : string;
  development : Z;
  population : Z;
  owner : option string;
  base_income : float;
  is_capital : bool
}.

Definition with_owner (o : option string) (p : t) : t :=
  mk (province_id p) (terrain_type p) (development p) (population p) o
     (base_income p) (is_capital p).

Definition get_income (p : t) : float :=
  (base_income p * Z2float (development p))%float.

(** [province.owner == code] for a country code. *)
Definition owned_by (c : string) (p : t) : bool :=
  match owner p with Some o => String.eqb o c | None => false end.
End Province.

(** ** src/country.py *)

Module Country.
(** The display name, the colour and the factory counts are left out: no
    engine reads them. *)
Record t := mk {
  code : string;
  capital_province_id : Z;
  money : float;
  manpower : Z;
  at_war_with : list string;
  allied_with : list string;
  war_scores : Dict.t Z
}.

Definition with_money (m : float) (c : t) : t :=
  mk (code c) (capital_province_id c) m (manpower c) (at_war_with c)
     (allied_with c) (war_scores c).
Definition with_manpower (m : Z) (c : t) : t :=
  mk (code c) (capital_province_id c) (money c) m (at_war_with c)
     (allied_with c) (war_scores c).
Definition with_wars (ws : list string) (sc : Dict.t Z) (c : t) : t :=
  mk (code c) (capital_province_id c) (money c) (manpower c) ws
     (allied_with c) sc.

Definition add_money (amount : float) (c : t) : t :=
  with_money (money c + amount)%float c.

Definition spend_money (amount : float) (c : t) : t * bool :=
  if PrimFloat.leb amount (money c)
  then (with_money (money c - amount)%float c, true)
  else (c, false).

Definition add_manpower (amount : Z) (c : t) : t :=
  with_manpower (manpower c + amount) c.

Definition recruit_manpower (amount : Z) (c : t) : t * bool :=
  if amount <=? manpower c
  then (with_manpower (manpower c - amount) c, true)
  else (c, false).

Definition is_at_war_with (country_code : string) (c : t) : bool :=
  mem country_code (at_war_with c).

Definition declare_war (country_code : string) (c : t) : t :=
  if mem country_code (at_war_with c) then c
  else with_wars (at_war_with c ++ [country_code])
                 (Dict.set country_code 0 (war_scores c)) c.

Definition make_peace (country_code : string) (c : t) : t :=
  if mem country_code (at_war_with c)
  then with_wars (remove_first country_code (at_war_with c))
                 (Dict.del country_code (war_scores c)) c
  else c.
End Country.

(** ** src/unit.py *)

Module UnitTemplate.
(** The catalog entry, without its display name. *)
Record t := mk {
  template_id : string;
  category : string;
  attack : Z;
  defense : Z;
  max_hp : Z;
  max_organization : Z;
  speed : float;
  cost : float;
  manpower_cost : Z;
  combat_width : Z
}.
End UnitTemplate.

Module Unit.
Record t := mk {
  unit_id : Z;
  template_id : string;
  owner : string;
  location : Z;
  current_hp : Z;
  organization : Z;
  experience : Z;
  strength : float;
  is_moving : bool;
  move_target : option Z
}.

Definition with_combat (hp org : Z) (s : float) (u : t) : t :=
  mk (unit_id u) (template_id u) (owner u) (location u) hp org
     (experience u) s (is_moving u) (move_target u).
Definition with_movement (loc : Z) (mv : bool) (tg : option Z) (u : t) : t :=
  mk (unit_id u) (template_id u) (owner u) loc (current_hp u)
     (organization u) (experience u) (strength u) mv tg.

Definition get_effective_attack (tpl : UnitTemplate.t) (u : t) : float :=
  (Z2float (UnitTemplate.attack tpl) * strength u
   * (Z2float (organization u) / 100))%float.

Definition get_effective_defense (tpl : UnitTemplate.t) (u : t) : float :=
  (Z2float (UnitTemplate.defense tpl) * strength u
   * (Z2float (organization u) / 100))%float.

(** [take_damage]: the two [int(...)] conversions and the final division
    can raise. *)
Definition take_damage (damage : float) (tpl : UnitTemplate.t) (u : t)
  : option t :=
  let hp_damage := (damage * 0.5)%float in
  let org_damage := (damage * 0.5)%float in
  match int_of_float hp_damage, int_of_float org_damage with
  | Some hp_lost, Some org_lost =>
      let hp := Z.max 0 (current_hp u - hp_lost) in
      let org := Z.max 0 (organization u - org_lost) in
      match int_truediv hp (UnitTemplate.max_hp tpl) with
      | Some s => Some (with_combat hp org s u)
      | None => None
      end
  | _, _ => None
  end.

Definition is_destroyed (u : t) : bool := current_hp u <=? 0.

Definition should_retreat (u : t) : bool := organization u <=? 20.
End Unit.

(** ** Records of src/systems/combat.py and src/systems/diplomacy.py *)

Module Battle.
Record t := mk {
  province_id : Z;
  attackers : list string;
  defenders : list string;
  duration : float
}.

Definition with_duration (d : float) (b : t) : t :=
  mk (province_id b) (attackers b) (defenders b) d.

(** The dataclass [==]: field by field. *)
Definition eqb (a b : t) : bool :=
  (province_id a =? province_id b)
  && list_eqb String.eqb (attackers a) (attackers b)
  && list_eqb String.eqb (defenders a) (defenders b)
  && PrimFloat.eqb (duration a) (duration b).
End Battle.

(** The payload of a demand is typed [any]: a province id ([int]) or an
    amount of money ([int] or [float]). *)
Inductive payload : Type :=
| IntData (n : Z)
| FloatData (x : float).

(** Python's [==] between two numbers. *)
Definition payload_eqb (a b : payload) : bool :=
  match a, b with
  | IntData m, IntData n => m =? n
  | FloatData x, FloatData y => PrimFloat.eqb x y
  | IntData m, FloatData y => float_eq_int y m
  | FloatData x, IntData n => float_eq_int x n
  end.

(** The payload in floating-point arithmetic. *)
Definition payload_float (a : payload) : float :=
  match a with IntData n => Z2float n | FloatData x => x end.

(** An [int] payload that converts to a [float] without [OverflowError]; a
    [float] payload always does. *)
Definition payload_in_range (a : payload) : bool :=
  match a with IntData n => negb (float_overflows n) | FloatData _ => true end.

(** The payload as a key of the province dict: a float equal to an integer
    hashes and compares like that integer. *)
Definition payload_key (a : payload) : option Z :=
  match a with
  | IntData n => Some n
  | FloatData x =>
      match int_of_float x with
      | Some n => if PrimFloat.eqb (Z2float n) x then Some n else None
      | None => None
      end
  end.

Module PeaceDemand.
Record t := mk {
  demand_type : string;
  target_data : payload;
  war_score_cost : Z
}.

(** The dataclass [==]: field by field. *)
Definition eqb (a b : t) : bool :=
  String.eqb (demand_type a) (demand_type b)
  && payload_eqb (target_data a) (target_data b)
  && (war_score_cost a =? war_score_cost b).
End PeaceDemand.

Module PeaceTreaty.
Record t := mk {
  from_country : string;
  to_country : string;
  demands : list PeaceDemand.t;
  total_war_score_cost : Z
}.

Definition eqb (a b : t) : bool :=
  String.eqb (from_country a) (from_country b)
  && String.eqb (to_country a) (to_country b)
  && list_eqb PeaceDemand.eqb (demands a) (demands b)
  && (total_war_score_cost a =? total_war_score_cost b).
End PeaceTreaty.

(** ** src/game.py: the shared state and the registries *)

Module GameState.
Record t := mk {
  provinces : list Province.t;          (* province_manager.provinces *)
  countries : list Country.t;           (* country_manager.countries *)
  templates : list UnitTemplate.t;      (* unit_template_manager.templates *)
  units : list Unit.t;                  (* military_system.units *)
  next_unit_id : Z;                     (* military_system.next_unit_id *)
  economy_accumulator : float;          (* economy_system.time_accumulator *)
  active_battles : list Battle.t;       (* combat_system.active_battles *)
  combat_accumulator : float;           (* combat_system.time_accumulator *)
  pending_peace_treaties : list PeaceTreaty.t
}.

Definition with_provinces (ps : list Province.t) (w : t) : t :=
  mk ps (countries w) (templates w) (units w) (next_unit_id w)
     (economy_accumulator w) (active_battles w) (combat_accumulator w)
     (pending_peace_treaties w).
Definition with_countries (cs : list Country.t) (w : t) : t :=
  mk (provinces w) cs (templates w) (units w) (next_unit_id w)
     (economy_accumulator w) (active_battles w) (combat_accumulator w)
     (pending_peace_treaties w).
Definition with_units (us : list Unit.t) (w : t) : t :=
  mk (provinces w) (countries w) (templates w) us (next_unit_id w)
     (economy_accumulator w) (active_battles w) (combat_accumulator w)
     (pending_peace_treaties w).
Definition with_next_unit_id (n : Z) (w : t) : t :=
  mk (provinces w) (countries w) (templates w) (units w) n
     (economy_accumulator w) (active_battles w) (combat_accumulator w)
     (pending_peace_treaties w).
Definition with_economy_accumulator (a : float) (w : t) : t :=
  mk (provinces w) (countries w) (templates w) (units w) (next_unit_id w)
     a (active_battles w) (combat_accumulator w)
     (pending_peace_treaties w).
Definition with_active_battles (bs : list Battle.t) (w : t) : t :=
  mk (provinces w) (countries w) (templates w) (units w) (next_unit_id w)
     (economy_accumulator w) bs (combat_accumulator w)
     (pending_peace_treaties w).
Definition with_combat_accumulator (a : float) (w : t) : t :=
  mk (provinces w) (countries w) (templates w) (units w) (next_unit_id w)
     (economy_accumulator w) (active_battles w) a
     (pending_peace_treaties w).
Definition with_pending (ts : list PeaceTreaty.t) (w : t) : t :=
  mk (provinces w) (countries w) (templates w) (units w) (next_unit_id w)
     (economy_accumulator w) (active_battles w) (combat_accumulator w) ts.

(** [ProvinceManager.get_province]. *)
Definition get_province (pid : Z) (w : t) : option Province.t :=
  find (fun p => Province.province_id p =? pid) (provinces w).

(** [ProvinceManager.get_provinces_by_owner]. *)
Definition get_provinces_by_owner (c : string) (w : t) : list Province.t :=
  filter (Province.owned_by c) (provinces w).

(** The province object with id [pid] is mutated by [f]. *)
Fixpoint update_first {A : Type} (test : A -> bool) (f : A -> A)
  (xs : list A) : list A :=
  match xs with
  | [] => []
  | x :: r => if test x then f x :: r else x :: update_first test f r
  end.

Definition update_province (pid : Z) (f : Province.t -> Province.t) (w : t)
  : t :=
  with_provinces
    (update_first (fun p => Province.province_id p =? pid) f (provinces w))
    w.

(** [CountryManager.get_country]. *)
Definition get_country (c : string) (w : t) : option Country.t :=
  find (fun x => String.eqb (Country.code x) c) (countries w).

(** The country object registered under code [c] is mutated by [f]. *)
Definition update_country (c : string) (f : Country.t -> Country.t) (w : t)
  : t :=
  with_countries
    (update_first (fun x => String.eqb (Country.code x) c) f (countries w))
    w.

(** The state of the country object registered under [c] becomes [x]. *)
Definition put_country (c : string) (x : Country.t) (w : t) : t :=
  update_country c (fun _ => x) w.

(** [UnitTemplateManager.get_template]. *)
Definition get_template (tid : string) (w : t) : option UnitTemplate.t :=
  find (fun x => String.eqb (UnitTemplate.template_id x) tid) (templates w).

(** [d[key] = x] on a registry: a key already registered keeps its place and
    gets the new object, a new key goes to the end. *)
Fixpoint register {A : Type} (same_key : A -> bool) (x : A) (xs : list A)
  : list A :=
  match xs with
  | [] => [x]
  | y :: r => if same_key y then x :: r else y :: register same_key x r
  end.

(** [ProvinceManager.add_province] (the colour index it also fills belongs
    to the presentation layer). *)
Definition add_province (province : Province.t) (w : t) : t :=
  with_provinces
    (register (fun p => Province.province_id p =? Province.province_id province)
              province (provinces w))
    w.

(** [CountryManager.add_country]. *)
Definition add_country (country : Country.t) (w : t) : t :=
  with_countries
    (register (fun x => String.eqb (Country.code x) (Country.code country))
              country (countries w))
    w.

(** [CountryManager.get_all_countries]. *)
Definition get_all_countries (w : t) : list Country.t := countries w.

(** [UnitTemplateManager.add_template]. *)
Definition add_template (template : UnitTemplate.t) (w : t) : t :=
  mk (provinces w) (countries w)
     (register (fun x => String.eqb (UnitTemplate.template_id x)
                                    (UnitTemplate.template_id template))
               template (templates w))
     (units w) (next_unit_id w) (economy_accumulator w) (active_battles w)
     (combat_accumulator w) (pending_peace_treaties w).
End GameState.

(** ** src/systems/economy.py *)

Module Economy.
Import GameState.

Definition update_interval : float := 24.

(** [sum(p.get_income() for p in provinces)]. *)
Definition daily_income (c : string) (w : t) : float :=
  fold_left (fun acc p => (acc + Province.get_income p)%float)
            (get_provinces_by_owner c w) 0%float.

(** [sum(p.population // 100 for p in provinces)]. *)
Definition manpower_gain (c : string) (w : t) : Z :=
  fold_left (fun acc p => acc + Province.population p / 100)
            (get_provinces_by_owner c w) 0.

Definition collect_daily_income (w : t) : t :=
  with_countries
    (map (fun c => Country.add_money (daily_income (Country.code c) w) c)
         (countries w))
    w.

Definition collect_manpower (w : t) : t :=
  with_countries
    (map (fun c => Country.add_manpower (manpower_gain (Country.code c) w) c)
         (countries w))
    w.

Definition update (delta_time : float) (w : t) : t :=
  let acc := (economy_accumulator w + delta_time)%float in
  if PrimFloat.leb update_interval acc
  then collect_manpower
         (collect_daily_income
            (with_economy_accumulator (acc - update_interval)%float w))
  else with_economy_accumulator acc w.

Definition can_afford_unit (country_code : string) (unit_cost : float)
  (manpower_cost : Z) (w : t) : bool :=
  match get_country country_code w with
  | None => false
  | Some country =>
      PrimFloat.leb unit_cost (Country.money country)
      && (manpower_cost <=? Country.manpower country)
  end.

(** [spend_money(...) and recruit_manpower(...)]: the second call runs only
    when the first returned true; each mutates the country object. *)
Definition purchase_unit (country_code : string) (unit_cost : float)
  (manpower_cost : Z) (w : t) : t * bool :=
  match get_country country_code w with
  | None => (w, false)
  | Some country =>
      let (c1, spent) := Country.spend_money unit_cost country in
      if spent then
        let (c2, recruited) := Country.recruit_manpower manpower_cost c1 in
        (put_country country_code c2 w, recruited)
      else (put_country country_code c1 w, false)
  end.
End Economy.

(** ** src/systems/military.py *)

Module Military.
Import GameState.

(** [_move_unit]: instant relocation. The guard is the truth value of
    [move_target]. *)
Definition _move_unit (u : Unit.t) : Unit.t :=
  match Unit.move_target u with
  | Some target =>
      if truthy_opt_int (Unit.move_target u)
      then Unit.with_movement target false None u
      else u
  | None => u
  end.

(** The first statement of the loop body of [update]. *)
Definition resolve_movement (u : Unit.t) : Unit.t :=
  if Unit.is_moving u && truthy_opt_int (Unit.move_target u)
  then _move_unit u
  else u.

(** The loop of [update] over a copy of the roster: each unit object is
    first moved and then, when destroyed, taken off the roster (the roster
    entry that [remove] finds is that object itself, the units before it
    that are still listed having positive hit points). *)
Fixpoint sweep (snapshot : list Unit.t) : list Unit.t :=
  match snapshot with
  | [] => []
  | u :: rest =>
      let u' := resolve_movement u in
      if Unit.is_destroyed u' then sweep rest else u' :: sweep rest
  end.

Definition update (delta_time : float) (w : t) : t :=
  with_units (sweep (units w)) w.

(** The unit objects that one [update] takes off the roster, as the call
    leaves them. *)
Definition destroyed_by_update (w : t) : list Unit.t :=
  filter Unit.is_destroyed (map resolve_movement (units w)).

Definition create_unit (template_id : string) (owner : string) (location : Z)
  (w : t) : t * option Unit.t :=
  match get_template template_id w with
  | None => (w, None)
  | Some template =>
      let unit :=
        Unit.mk (next_unit_id w) template_id owner location
                (UnitTemplate.max_hp template)
                (UnitTemplate.max_organization template)
                0 1%float false None in
      (with_next_unit_id (next_unit_id w + 1)
         (with_units (units w ++ [unit]) w),
       Some unit)
  end.

Definition recruit_unit (country_code : string) (template_id : string)
  (province_id : Z) (w : t) : t * bool :=
  match get_template template_id w with
  | None => (w, false)
  | Some template =>
      if negb (Economy.can_afford_unit country_code
                 (UnitTemplate.cost template)
                 (UnitTemplate.manpower_cost template) w)
      then (w, false)
      else
        let (w1, bought) :=
          Economy.purchase_unit country_code (UnitTemplate.cost template)
            (UnitTemplate.manpower_cost template) w in
        if bought then
          let (w2, unit) := create_unit template_id country_code province_id w1 in
          (w2, match unit with Some _ => true | None => false end)
        else (w1, false)
  end.

Definition get_units_in_province (province_id : Z) (w : t) : list Unit.t :=
  filter (fun u => Unit.location u =? province_id) (units w).

Definition get_units_by_owner (country_code : string) (w : t) : list Unit.t :=
  filter (fun u => String.eqb (Unit.owner u) country_code) (units w).

Definition get_units_in_province_by_owner (province_id : Z)
  (country_code : string) (w : t) : list Unit.t :=
  filter (fun u => (Unit.location u =? province_id)
                   && String.eqb (Unit.owner u) country_code)
         (units w).

(** The positions in a roster of the units that satisfy [test]. *)
Fixpoint positions (test : Unit.t -> bool) (i : nat) (us : list Unit.t)
  : list nat :=
  match us with
  | [] => []
  | u :: rest =>
      if test u then i :: positions test (S i) rest
      else positions test (S i) rest
  end.

(** [get_units_in_province_by_owner] as the list of unit objects it
    returns: references into the roster. *)
Definition refs_in_province_by_owner (province_id : Z)
  (country_code : string) (w : t) : list nat :=
  positions (fun u => (Unit.location u =? province_id)
                      && String.eqb (Unit.owner u) country_code)
            O (units w).

(** [order_move] on the unit object at position [r] of the roster. *)
Definition order_move (r : nat) (destination_province_id : Z) (w : t) : t :=
  with_units
    (update_nth r
       (fun u => Unit.with_movement (Unit.location u) true
                   (Some destination_province_id) u)
       (units w))
    w.

Definition get_unit_by_id (unit_id : Z) (w : t) : option Unit.t :=
  find (fun u => Unit.unit_id u =? unit_id) (units w).

Definition count_units_by_category (country_code category : string) (w : t)
  : Z :=
  fold_left
    (fun count unit =>
       match get_template (Unit.template_id unit) w with
       | Some template =>
           if String.eqb (UnitTemplate.category template) category
           then count + 1 else count
       | None => count
       end)
    (get_units_by_owner country_code w) 0.
End Military.

(** Sequencing of calls that can raise. *)
Notation "x <- c ;; k" :=
  (match c with Some x => k | None => None end)
  (at level 61, c at next level, right associativity).

(** A loop whose body can raise. *)
Fixpoint foldM {A S : Type} (body : S -> A -> option S) (xs : list A) (s : S)
  : option S :=
  match xs with
  | [] => Some s
  | x :: rest => s' <- body s x ;; foldM body rest s'
  end.

(** [del xs[i]]. *)
Definition remove_at {A : Type} (i : nat) (xs : list A) : list A :=
  firstn i xs ++ skipn (S i) xs.

Definition is_empty {A : Type} (xs : list A) : bool :=
  match xs with [] => true | _ => false end.

(** ** src/systems/combat.py

    A battle object is referred to by its position in [active_battles]; a
    unit object by its position in the roster. *)

Module Combat.
Import GameState.

Definition combat_update_interval : float := 1.

Definition _has_battle_in_province (province_id : Z) (w : t) : bool :=
  existsb (fun b => Battle.province_id b =? province_id) (active_battles w).

Definition start_battle (province_id : Z) (attacker defender : string)
  (w : t) : t :=
  with_active_battles
    (active_battles w
     ++ [Battle.mk province_id [attacker] [defender] 0%float])
    w.

(** [list(by_owner.keys())]: the owners present, in order of first
    appearance. *)
Definition owners_present (us : list Unit.t) : list string :=
  fold_left
    (fun acc u => if mem (Unit.owner u) acc then acc
                  else acc ++ [Unit.owner u])
    us [].

(** The body of the two nested loops over pairs of owners. *)
Definition check_pair (province_id : Z) (owner1 owner2 : string) (w : t)
  : t :=
  match get_country owner1 w, get_country owner2 w with
  | Some country1, Some _ =>
      if Country.is_at_war_with owner2 country1 then
        if negb (_has_battle_in_province province_id w)
        then start_battle province_id owner1 owner2 w
        else w
      else w
  | _, _ => w
  end.

(** [for i, owner1 in enumerate(owners): for owner2 in owners[i+1:]]. *)
Fixpoint detect_pairs (province_id : Z) (owners : list string) (w : t) : t :=
  match owners with
  | [] => w
  | owner1 :: rest =>
      detect_pairs province_id rest
        (fold_left (fun w' owner2 => check_pair province_id owner1 owner2 w')
                   rest w)
  end.

Definition detect_in_province (p : Province.t) (w : t) : t :=
  let units := Military.get_units_in_province (Province.province_id p) w in
  if (List.length units <? 2)%nat then w
  else detect_pairs (Province.province_id p) (owners_present units) w.

Definition detect_battles (w : t) : t :=
  fold_left (fun w' p => detect_in_province p w') (provinces w) w.

(** The units of one side gathered by [resolve_battle_tick]. *)
Definition side_units (province_id : Z) (codes : list string) (w : t)
  : list nat :=
  flat_map (fun c => Military.refs_in_province_by_owner province_id c w)
           codes.

Definition _calculate_combat_power (refs : list nat) (is_attacking : bool)
  (w : t) : float :=
  fold_left
    (fun total r =>
       match nth_error (units w) r with
       | Some unit =>
           match get_template (Unit.template_id unit) w with
           | Some template =>
               if is_attacking
               then (total + Unit.get_effective_attack template unit)%float
               else (total + Unit.get_effective_defense template unit)%float
           | None => total
           end
       | None => total
       end)
    refs 0%float.

Definition _get_terrain_modifier (terrain_type : string) : float :=
  if String.eqb terrain_type "plains" then 1.0%float
  else if String.eqb terrain_type "hills" then 1.2%float
  else if String.eqb terrain_type "mountains" then 1.5%float
  else if String.eqb terrain_type "forest" then 1.3%float
  else if String.eqb terrain_type "urban" then 1.4%float
  else if String.eqb terrain_type "marsh" then 1.1%float
  else 1.0%float.

(** The body of the loop of [_apply_damage_to_units] on the unit object at
    position [r]. *)
Definition damage_unit (damage_per_unit : float) (w : t) (r : nat)
  : option t :=
  match nth_error (units w) r with
  | Some unit =>
      match get_template (Unit.template_id unit) w with
      | Some template =>
          unit' <- Unit.take_damage damage_per_unit template unit ;;
          Some (with_units (update_nth r (fun _ => unit') (units w)) w)
      | None => Some w
      end
  | None => Some w
  end.

Definition _apply_damage_to_units (refs : list nat) (total_damage : float)
  (w : t) : option t :=
  if is_empty refs then Some w
  else
    let damage_per_unit :=
      (total_damage / Z2float (Z.of_nat (List.length refs)))%float in
    foldM (damage_unit damage_per_unit) refs w.

Definition _check_retreats (attacker_units defender_units : list nat)
  (w : t) : t := w.

Definition _award_war_score (winner loser : string) (points : Z) (w : t)
  : t :=
  match get_country winner w with
  | Some winner_country =>
      match Dict.get loser (Country.war_scores winner_country) with
      | Some score =>
          let raised :=
            Dict.set loser (score + points)
                     (Country.war_scores winner_country) in
          let capped := Dict.set loser (Z.min 100 (score + points)) raised in
          put_country winner
            (Country.with_wars (Country.at_war_with winner_country) capped
                               winner_country)
            w
      | None => w
      end
  | None => w
  end.

(** [self.active_battles.remove(battle)] for the battle at position [i]:
    the battle leaves the place it has. [list.remove] takes the first
    element equal to the battle ([remove_object]); the two agree when no
    earlier battle is equal to it, as with one battle per province
    ([remove_at_is_list_remove]). *)
Definition remove_battle (i : nat) (w : t) : t :=
  with_active_battles (remove_at i (active_battles w)) w.

(** The attackers-won branch of [end_battle]. *)
Definition attackers_won (battle : Battle.t) (province : Province.t) (w : t)
  : t :=
  match hd_error (Battle.attackers battle) with
  | Some winner =>
      if truthy_str winner && negb (Province.owned_by winner province) then
        let old_owner := Province.owner province in
        let w' :=
          update_province (Battle.province_id battle)
                          (Province.with_owner (Some winner)) w in
        match old_owner with
        | Some loser =>
            if truthy_str loser then _award_war_score winner loser 5 w'
            else w'
        | None => w'
        end
      else w
  | None => w
  end.

(** The defenders-won branch of [end_battle]. Its condition is written
    [winner and old_owner := battle.attackers[0]] in the source (line 211),
    which is not Python: an assignment expression inside [and] needs
    parentheses, the parser stops there with a [SyntaxError] and the module
    as shipped cannot be imported. The engine is embedded with that one
    line repaired to [winner and (old_owner := battle.attackers[0])], the
    same tokens in parentheses; what is proved of the combat engine is
    proved of the module so repaired. The subscript raises on an empty
    list. *)
Definition defenders_won (battle : Battle.t) (w : t) : option t :=
  match hd_error (Battle.defenders battle) with
  | Some winner =>
      if truthy_str winner then
        match hd_error (Battle.attackers battle) with
        | Some old_owner =>
            if truthy_str old_owner
            then Some (_award_war_score winner old_owner 2 w)
            else Some w
        | None => None
        end
      else Some w
  | None => Some w
  end.

Definition end_battle (i : nat) (remaining_attackers remaining_defenders
  : list nat) (w : t) : option t :=
  battle <- nth_error (active_battles w) i ;;
  match get_province (Battle.province_id battle) w with
  | None => Some (remove_battle i w)
  | Some province =>
      w1 <- (if negb (is_empty remaining_attackers)
                && is_empty remaining_defenders
             then Some (attackers_won battle province w)
             else if negb (is_empty remaining_defenders)
                     && is_empty remaining_attackers
             then defenders_won battle w
             else Some w) ;;
      Some (remove_battle i w1)
  end.

(** One tick of the battle at position [i]; [rolls] are the two draws of
    [random.uniform(0.7, 1.3)]. The flag tells whether the battle left
    the active list. *)
Definition resolve_battle_tick (i : nat) (rolls : float * float) (w : t)
  : option (t * bool) :=
  battle <- nth_error (active_battles w) i ;;
  match get_province (Battle.province_id battle) w with
  | None => Some (remove_battle i w, true)
  | Some province =>
      let attacker_units :=
        side_units (Battle.province_id battle) (Battle.attackers battle) w in
      let defender_units :=
        side_units (Battle.province_id battle) (Battle.defenders battle) w in
      if is_empty attacker_units || is_empty defender_units then
        w' <- end_battle i attacker_units defender_units w ;;
        Some (w', true)
      else
        let attack_power := _calculate_combat_power attacker_units true w in
        let defense_power :=
          (_calculate_combat_power defender_units false w
           * _get_terrain_modifier (Province.terrain_type province))%float in
        let attack_roll := (attack_power * fst rolls)%float in
        let defense_roll := (defense_power * snd rolls)%float in
        w2 <- (if PrimFloat.ltb defense_roll attack_roll then
                 w1 <- _apply_damage_to_units defender_units
                         ((attack_roll - defense_roll) * 0.5)%float w ;;
                 _apply_damage_to_units attacker_units
                   (defense_roll * 0.2)%float w1
               else
                 w1 <- _apply_damage_to_units attacker_units
                         ((defense_roll - attack_roll) * 0.5)%float w ;;
                 _apply_damage_to_units defender_units
                   (attack_roll * 0.2)%float w1) ;;
        Some (_check_retreats attacker_units defender_units w2, false)
  end.

(** [battle.duration += self.combat_update_interval] on the battle at
    position [i]. *)
Definition bump_duration (i : nat) (w : t) : t :=
  with_active_battles
    (update_nth i
       (fun b => Battle.with_duration
                   (Battle.duration b + combat_update_interval)%float b)
       (active_battles w))
    w.

(** The loop of [update] over a copy of the active list: [n] battles of the
    copy are left, the next one sits at position [i] of the current list
    and is the [k]-th of the copy. *)
Fixpoint resolve_all (n i k : nat) (rolls : nat -> float * float) (w : t)
  : option t :=
  match n with
  | O => Some w
  | S n' =>
      r <- resolve_battle_tick i (rolls k) w ;;
      if snd r then resolve_all n' i (S k) rolls (fst r)
      else resolve_all n' (S i) (S k) rolls (bump_duration i (fst r))
  end.

Definition update (delta_time : float) (rolls : nat -> float * float)
  (w : t) : option t :=
  let acc := (combat_accumulator w + delta_time)%float in
  if PrimFloat.leb combat_update_interval acc then
    let w0 :=
      detect_battles
        (with_combat_accumulator (acc - combat_update_interval)%float w) in
    resolve_all (List.length (active_battles w0)) O O rolls w0
  else Some (with_combat_accumulator acc w).

Definition get_battle_in_province (province_id : Z) (w : t)
  : option Battle.t :=
  find (fun b => Battle.province_id b =? province_id) (active_battles w).
End Combat.

(** ** src/systems/diplomacy.py *)

Module Diplomacy.
Import GameState.

Definition declare_war (attacker defender : string) (w : t) : t * bool :=
  match get_country attacker w, get_country defender w with
  | Some _, Some _ =>
      let w1 := update_country attacker (Country.declare_war defender) w in
      (update_country defender (Country.declare_war attacker) w1, true)
  | _, _ => (w, false)
  end.

Definition make_peace (country1 country2 : string) (w : t) : t :=
  match get_country country1 w, get_country country2 w with
  | Some _, Some _ =>
      let w1 := update_country country1 (Country.make_peace country2) w in
      update_country country2 (Country.make_peace country1) w1
  | _, _ => w
  end.

(** [target_data / 500]: true division of two [int]s when the amount is an
    [int], float division when it is a [float]. *)
Definition amount_per_500 (target_data : payload) : option float :=
  match target_data with
  | IntData n => int_truediv n 500
  | FloatData x => Some (x / 500)%float
  end.

(** [int(target_data / 500)] raises on an infinite or NaN amount, and the
    division on an [int] whose quotient is beyond the floats. *)
Definition _calculate_demand_cost (demand_type : string)
  (target_data : payload) (w : t) : option Z :=
  if String.eqb demand_type "annex_province" then
    match payload_key target_data with
    | Some pid =>
        match get_province pid w with
        | Some province => Some (5 + Province.development province * 2)
        | None => Some 10
        end
    | None => Some 10
    end
  else if String.eqb demand_type "war_reparations" then
    q <- amount_per_500 target_data ;;
    n <- int_of_float q ;;
    Some (Z.max 5 n)
  else if String.eqb demand_type "release_nation" then Some 30
  else if String.eqb demand_type "military_access" then Some 5
  else Some 10.

Definition create_peace_demand (demand_type : string)
  (target_data : payload) (w : t) : option PeaceDemand.t :=
  war_score_cost <- _calculate_demand_cost demand_type target_data w ;;
  Some (PeaceDemand.mk demand_type target_data war_score_cost).

Definition propose_peace_treaty (from_country to_country : string)
  (demands : list PeaceDemand.t) (w : t) : t * option PeaceTreaty.t :=
  let total_cost :=
    fold_left (fun acc d => acc + PeaceDemand.war_score_cost d) demands 0 in
  let treaty := PeaceTreaty.mk from_country to_country demands total_cost in
  match get_country from_country w with
  | Some proposer =>
      match Dict.get to_country (Country.war_scores proposer) with
      | Some score =>
          if total_cost <=? score
          then (with_pending (pending_peace_treaties w ++ [treaty]) w,
                Some treaty)
          else (w, None)
      | None => (w, None)
      end
  | None => (w, None)
  end.

Definition _execute_demand (winner loser : string) (demand : PeaceDemand.t)
  (w : t) : t :=
  if String.eqb (PeaceDemand.demand_type demand) "annex_province" then
    match payload_key (PeaceDemand.target_data demand) with
    | Some pid =>
        match get_province pid w with
        | Some province =>
            if Province.owned_by loser province
            then update_province pid (Province.with_owner (Some winner)) w
            else w
        | None => w
        end
    | None => w
    end
  else if String.eqb (PeaceDemand.demand_type demand) "war_reparations" then
    match get_country loser w, get_country winner w with
    | Some loser_country, Some _ =>
        (* An int amount is kept as an int by min and compared exactly
           with the money; it is converted when it is subtracted and added.
           The conversion is monotone, so that comparing the converted
           amount selects the same value, as long as the amount is within
           the floats ([payload_in_range]); beyond them the code raises
           OverflowError where the int is selected. *)
        let demanded := payload_float (PeaceDemand.target_data demand) in
        (* min(demand.target_data, loser_country.money) *)
        let amount :=
          if PrimFloat.ltb (Country.money loser_country) demanded
          then Country.money loser_country else demanded in
        let w1 :=
          update_country loser
            (fun c => fst (Country.spend_money amount c)) w in
        update_country winner (Country.add_money amount) w1
    | _, _ => w
    end
  else w.

Definition _execute_demands_list (winner loser : string)
  (demands : list PeaceDemand.t) (w : t) : t :=
  fold_left (fun w' demand => _execute_demand winner loser demand w')
            demands w.

(** [treaty in self.pending_peace_treaties]: some entry is equal to the
    treaty. Python takes an entry that is the treaty object itself before
    it compares by [==]; a treaty without a NaN among its payloads is equal
    to itself, and for it the test is the test by [==] written here. The
    properties of acceptance are stated for such treaties. *)
Definition is_pending (treaty : PeaceTreaty.t) (w : t) : bool :=
  existsb (fun x => PeaceTreaty.eqb x treaty) (pending_peace_treaties w).

(** [self.pending_peace_treaties.remove(treaty)]: the first entry equal to
    the treaty goes. *)
Fixpoint remove_treaty (treaty : PeaceTreaty.t) (ts : list PeaceTreaty.t)
  : list PeaceTreaty.t :=
  match ts with
  | [] => []
  | x :: rest =>
      if PeaceTreaty.eqb x treaty then rest
      else x :: remove_treaty treaty rest
  end.

Definition accept_peace_treaty (treaty : PeaceTreaty.t) (w : t) : t * bool :=
  if negb (is_pending treaty w) then (w, false)
  else
    let w1 :=
      fold_left
        (fun w' demand =>
           _execute_demand (PeaceTreaty.from_country treaty)
                           (PeaceTreaty.to_country treaty) demand w')
        (PeaceTreaty.demands treaty) w in
    let w2 :=
      make_peace (PeaceTreaty.from_country treaty)
                 (PeaceTreaty.to_country treaty) w1 in
    (with_pending (remove_treaty treaty (pending_peace_treaties w2)) w2,
     true).

(** The body of the inner loop of [auto_peace_at_100] for the country
    registered under [code] and one item of its war-score dict. *)
Definition force_peace (code : string) (w : t) (item : string * Z)
  : option t :=
  let (enemy_code, war_score) := item in
  if 100 <=? war_score then
    match get_country enemy_code w with
    | Some _ =>
        let enemy_provinces := get_provinces_by_owner enemy_code w in
        demands <-
          foldM (fun acc province =>
                   demand <- create_peace_demand "annex_province"
                               (IntData (Province.province_id province)) w ;;
                   Some (acc ++ [demand]))
                enemy_provinces [] ;;
        Some (make_peace code enemy_code
                (_execute_demands_list code enemy_code demands w))
    | None => Some w
    end
  else Some w.

(** The body of the outer loop: the items of the country's war-score dict
    are copied when the country is reached. *)
Definition auto_peace_country (w : t) (code : string) : option t :=
  match get_country code w with
  | Some country =>
      foldM (force_peace code) (Dict.items (Country.war_scores country)) w
  | None => Some w
  end.

(** The outer loop runs over the country objects registered when the call
    starts. *)
Definition auto_peace_at_100 (w : t) : option t :=
  foldM auto_peace_country (map Country.code (countries w)) w.
End Diplomacy.

(** ** src/game.py: the calendar *)

Module Game.
Definition start_year : Z := 1936.
Definition start_month : Z := 1.
Definition start_day : Z := 1.
Definition days_in_month : Z := 30.

(** The [while day > days_in_month] loop of [get_current_date]; [fuel]
    bounds the number of turns. *)
Fixpoint rollover (fuel : nat) (day month year : Z) : Z * Z * Z :=
  match fuel with
  | O => (day, month, year)
  | S fuel' =>
      if days_in_month <? day then
        let day := day - days_in_month in
        let month := month + 1 in
        if 12 <? month then rollover fuel' day 1 (year + 1)
        else rollover fuel' day month year
      else (day, month, year)
  end.

(** The day, the month and the year that [get_current_date] prints. Each
    turn of the loop takes 30 days off a day count above 30, so the day
    count itself is fuel enough. *)
Definition current_date (game_time : float) : option (Z * Z * Z) :=
  total_hours <- int_of_float game_time ;;
  let total_days := total_hours / 24 in
  let day := start_day + total_days in
  Some (rollover (Z.to_nat day) day start_month start_year).

Definition month_names : list string :=
  [ EmptyString; "January"; "February"; "March"; "April"; "May"; "June";
    "July"; "August"; "September"; "October"; "November"; "December" ].

(** [str(n)] for an [int]. *)
Definition str (n : Z) : string := NilZero.string_of_int (Z.to_int n).

Definition get_current_date (game_time : float) : option string :=
  date <- current_date game_time ;;
  let '(day, month, year) := date in
  name <- nth_error month_names (Z.to_nat month) ;;
  Some (name ++ " " ++ str day ++ ", " ++ str year)%string.
End Game.

(** ** src/systems/ai.py: the economic decision

    The part of the AI controller that draws no random number. [country]
    is the state of the country object when the method is called. *)

Module AI.
Import GameState.

Definition consider_recruiting_units (country : Country.t) (w : t) : t :=
  let land_units :=
    Military.count_units_by_category (Country.code country) "land" w in
  if land_units <? 5 then
    match get_province (Country.capital_province_id country) w with
    | Some capital =>
        if Province.owned_by (Country.code country) capital
        then fst (Military.recruit_unit (Country.code country) "infantry"
                    (Province.province_id capital) w)
        else w
    | None => w
    end
  else w.

Definition make_economic_decisions (country : Country.t) (w : t) : t :=
  if PrimFloat.ltb 500 (Country.money country)
     && (5000 <? Country.manpower country)
  then consider_recruiting_units country w
  else w.
End AI.

(** ** The worlds of the scenarios

    The data that [create_sample_provinces] and [create_sample_countries] of
    src/data_loader.py write, and the default templates of src/unit.py. *)

Module Sample.
Definition province (id : Z) (terrain : string) (dev pop : Z)
  (owner : string) (capital : bool) : Province.t :=
  Province.mk id terrain dev pop (Some owner) 10%float capital.

Definition provinces : list Province.t :=
  [ province 1 "plains" 5 5000 "GER" true;
    province 2 "hills" 4 4000 "GER" false;
    province 3 "plains" 3 3000 "GER" false;
    province 4 "plains" 5 5000 "FRA" true;
    province 5 "hills" 3 3000 "FRA" false;
    province 6 "plains" 3 3000 "FRA" false;
    province 7 "plains" 5 5000 "GBR" true;
    province 8 "plains" 4 4000 "GBR" false;
    province 9 "plains" 3 3000 "GBR" false ].

Definition country (code : string) (capital : Z) (money : float)
  (manpower : Z) (wars : list string) (scores : Dict.t Z) : Country.t :=
  Country.mk code capital money manpower wars [] scores.

Definition countries : list Country.t :=
  [ country "GER" 1 2000%float 20000 [] [];
    country "FRA" 4 1800%float 18000 [] [];
    country "GBR" 7 2500%float 15000 [] [] ].

Definition infantry : UnitTemplate.t :=
  UnitTemplate.mk "infantry" "land" 30 50 100 100 4%float 100%float 1000 2.
Definition armor : UnitTemplate.t :=
  UnitTemplate.mk "armor" "land" 70 40 150 80 8%float 500%float 500 3.
Definition artillery : UnitTemplate.t :=
  UnitTemplate.mk "artillery" "land" 60 20 80 70 3%float 300%float 800 2.

Definition destroyer : UnitTemplate.t :=
  UnitTemplate.mk "destroyer" "sea" 20 30 100 100 30%float 800%float 200 1.
Definition battleship : UnitTemplate.t :=
  UnitTemplate.mk "battleship" "sea" 100 80 300 100 20%float 3000%float 500 3.
Definition fighter : UnitTemplate.t :=
  UnitTemplate.mk "fighter" "air" 40 30 100 100 500%float 400%float 100 1.
Definition bomber : UnitTemplate.t :=
  UnitTemplate.mk "bomber" "air" 80 15 80 80 400%float 600%float 150 2.

Definition templates : list UnitTemplate.t :=
  [infantry; armor; artillery; destroyer; battleship; fighter; bomber].

Definition world : GameState.t :=
  GameState.mk provinces countries templates [] 1 0%float [] 0%float [].

(** The sample world with other countries, units or battles. *)
Definition with_state (cs : list Country.t) (us : list Unit.t)
  (bs : list Battle.t) : GameState.t :=
  GameState.mk provinces cs templates us 1 0%float bs 0%float [].

Definition unit (id : Z) (owner : string) (location hp : Z) (moving : bool)
  (target : option Z) : Unit.t :=
  Unit.mk id "infantry" owner location hp 100 0 1%float moving target.
End Sample.

(** * Properties *)

(** ** Registries and dicts *)

Section Registry.
Context {A : Type}.
Variables (test : A -> bool) (f : A -> A).

Lemma find_update_first_same (xs : list A) :
  (forall x, test x = true -> test (f x) = true) ->
  find test (GameState.update_first test f xs) = option_map f (find test xs).
Proof.
  intros Hf. induction xs as [|x r IH]; simpl; [reflexivity|].
  destruct (test x) eqn:E; simpl.
  - now rewrite (Hf x E).
  - now rewrite E.
Qed.

Lemma find_update_first_other (test' : A -> bool) (xs : list A) :
  (forall x, test' (f x) = test' x) ->
  (forall x, test x = true -> test' x = false) ->
  find test' (GameState.update_first test f xs) = find test' xs.
Proof.
  intros Hf Hd. induction xs as [|x r IH]; simpl; [reflexivity|].
  destruct (test x) eqn:E; simpl.
  - now rewrite Hf, (Hd x E).
  - now rewrite IH.
Qed.

Lemma update_first_length (xs : list A) :
  List.length (GameState.update_first test f xs) = List.length xs.
Proof.
  induction xs as [|x r IH]; simpl; [reflexivity|].
  destruct (test x); simpl; congruence.
Qed.
End Registry.

Lemma get_country_update_same (k : string) (f : Country.t -> Country.t)
  (w : GameState.t) :
  (forall x, Country.code (f x) = Country.code x) ->
  GameState.get_country k (GameState.update_country k f w)
  = option_map f (GameState.get_country k w).
Proof.
  intros Hf. unfold GameState.get_country, GameState.update_country. simpl.
  apply find_update_first_same. intros x Hx. now rewrite Hf.
Qed.

Lemma get_country_update_other (k k' : string) (f : Country.t -> Country.t)
  (w : GameState.t) :
  k <> k' ->
  (forall x, Country.code (f x) = Country.code x) ->
  GameState.get_country k' (GameState.update_country k f w)
  = GameState.get_country k' w.
Proof.
  intros Hk Hf. unfold GameState.get_country, GameState.update_country. simpl.
  apply find_update_first_other.
  - intros x. now rewrite Hf.
  - intros x Hx. apply String.eqb_eq in Hx. apply String.eqb_neq. congruence.
Qed.

Lemma get_country_code (k : string) (c : Country.t) (w : GameState.t) :
  GameState.get_country k w = Some c -> Country.code c = k.
Proof.
  unfold GameState.get_country. intros H. apply find_some in H.
  now apply String.eqb_eq.
Qed.

(** Two floats that [==] tells apart are different. *)
Lemma float_neq (x y : float) :
  PrimFloat.eqb x x = true -> PrimFloat.eqb x y = false -> x <> y.
Proof. intros Hx Hxy E. rewrite <- E in Hxy. congruence. Qed.

(** ** Economy: purchases *)

Lemma put_country_get (k : string) (c c' : Country.t) (w : GameState.t) :
  GameState.get_country k w = Some c ->
  Country.code c' = Country.code c ->
  GameState.get_country k (GameState.put_country k c' w) = Some c'.
Proof.
  intros Hget Hcode. unfold GameState.put_country.
  unfold GameState.get_country, GameState.update_country in *. simpl.
  rewrite find_update_first_same.
  - now rewrite Hget.
  - intros x Hx. apply find_some in Hget. destruct Hget as [_ Hc].
    rewrite Hcode. exact Hc.
Qed.

(** A purchase that both resources cover succeeds and debits exactly the two
    costs. *)
Lemma purchase_unit_affordable (k : string) (cost : float) (mp : Z)
  (c : Country.t) (w : GameState.t) :
  GameState.get_country k w = Some c ->
  PrimFloat.leb cost (Country.money c) = true ->
  mp <= Country.manpower c ->
  exists c' w',
    Economy.purchase_unit k cost mp w = (w', true)
    /\ GameState.get_country k w' = Some c'
    /\ Country.money c' = (Country.money c - cost)%float
    /\ Country.manpower c' = Country.manpower c - mp.
Proof.
  intros Hget Hm Hp. unfold Economy.purchase_unit. rewrite Hget.
  unfold Country.spend_money. rewrite Hm.
  unfold Country.recruit_manpower. simpl.
  apply Z.leb_le in Hp. rewrite Hp.
  eexists. eexists. split; [reflexivity|]. split.
  - apply (put_country_get k c); [exact Hget | reflexivity].
  - split; reflexivity.
Qed.

Lemma update_first_same {A : Type} (test : A -> bool) (x : A) (xs : list A) :
  find test xs = Some x ->
  GameState.update_first test (fun _ => x) xs = xs.
Proof.
  induction xs as [|y r IH]; simpl; [reflexivity|].
  destruct (test y).
  - intros E. now injection E as ->.
  - intros E. now rewrite IH.
Qed.

Lemma put_country_same (k : string) (c : Country.t) (w : GameState.t) :
  GameState.get_country k w = Some c -> GameState.put_country k c w = w.
Proof.
  intros H. unfold GameState.put_country, GameState.update_country,
    GameState.with_countries.
  rewrite update_first_same by exact H. now destruct w.
Qed.

(** A purchase that money does not cover returns false and changes nothing. *)
Lemma purchase_unit_no_money (k : string) (cost : float) (mp : Z)
  (c : Country.t) (w : GameState.t) :
  GameState.get_country k w = Some c ->
  PrimFloat.leb cost (Country.money c) = false ->
  Economy.purchase_unit k cost mp w = (w, false).
Proof.
  intros Hget Hm. unfold Economy.purchase_unit. rewrite Hget.
  unfold Country.spend_money. rewrite Hm.
  now rewrite (put_country_same k c w Hget).
Qed.

(** A purchase for an unregistered country returns false and changes
    nothing. *)
Lemma purchase_unit_unknown (k : string) (cost : float) (mp : Z)
  (w : GameState.t) :
  GameState.get_country k w = None ->
  Economy.purchase_unit k cost mp w = (w, false).
Proof. intros H. unfold Economy.purchase_unit. now rewrite H. Qed.

(** A purchase that money covers and manpower does not returns false, and the
    money is gone all the same. *)
Lemma purchase_unit_no_manpower (k : string) (cost : float) (mp : Z)
  (c : Country.t) (w : GameState.t) :
  GameState.get_country k w = Some c ->
  PrimFloat.leb cost (Country.money c) = true ->
  Country.manpower c < mp ->
  exists c' w',
    Economy.purchase_unit k cost mp w = (w', false)
    /\ GameState.get_country k w' = Some c'
    /\ Country.money c' = (Country.money c - cost)%float
    /\ Country.manpower c' = Country.manpower c.
Proof.
  intros Hget Hm Hp. unfold Economy.purchase_unit. rewrite Hget.
  unfold Country.spend_money. rewrite Hm.
  unfold Country.recruit_manpower. simpl.
  apply Z.leb_gt in Hp. rewrite Hp.
  eexists. eexists. split; [reflexivity|]. split.
  - apply (put_country_get k c); [exact Hget | reflexivity].
  - split; reflexivity.
Qed.

(** C1 (the code departs from it): Germany holds 2000 money and 20000
    manpower and is asked for a purchase of 100 money and 25000 manpower.
    Money suffices, manpower does not: [purchase_unit] returns false, leaves
    the manpower at 20000 and has debited the money, now 1900. The claim
    wants neither resource changed. *)
Theorem purchase_unit_partial_debit :
  let r := Economy.purchase_unit "GER" 100%float 25000 Sample.world in
  snd r = false
  /\ option_map Country.manpower (GameState.get_country "GER" (fst r))
     = Some 20000
  /\ option_map Country.money (GameState.get_country "GER" (fst r))
     = Some 1900%float
  /\ option_map Country.money (GameState.get_country "GER" Sample.world)
     = Some 2000%float
  /\ Economy.can_afford_unit "GER" 100%float 25000 Sample.world = false.
Proof. vm_compute. repeat split. Qed.

(** The recruitment scenario: Germany, with 2000 money and 20000 manpower,
    recruits one infantry division in Berlin. *)
Lemma germany_recruits_infantry :
  let r := Military.recruit_unit "GER" "infantry" 1 Sample.world in
  snd r = true
  /\ option_map Country.money (GameState.get_country "GER" (fst r))
     = Some 1900%float
  /\ option_map Country.manpower (GameState.get_country "GER" (fst r))
     = Some 19000
  /\ map (fun u => (Unit.current_hp u, Unit.strength u))
       (Military.get_units_by_owner "GER" (fst r))
     = [(100, 1%float)].
Proof. vm_compute. repeat split. Qed.

(** ** Economy: the daily accrual *)

(** What one daily accrual gives a country: the income and the manpower of
    the provinces it owns. *)
Definition accrued (w : GameState.t) (c : Country.t) : Country.t :=
  Country.add_manpower (Economy.manpower_gain (Country.code c) w)
    (Country.add_money (Economy.daily_income (Country.code c) w) c).

Lemma collect_once (w : GameState.t) :
  GameState.countries (Economy.collect_manpower (Economy.collect_daily_income w))
  = map (accrued w) (GameState.countries w).
Proof.
  unfold Economy.collect_manpower, Economy.collect_daily_income. simpl.
  rewrite map_map. apply map_ext. intros c. reflexivity.
Qed.

(** The contract in the words of the specification: the accrual fires once
    for each full 24 hours that the accumulated time contains, the threshold
    being subtracted each time. [days] bounds the number of firings. *)
Fixpoint fire_due_days (days : nat) (w : GameState.t) : GameState.t :=
  match days with
  | O => w
  | S n =>
      if PrimFloat.leb Economy.update_interval (GameState.economy_accumulator w)
      then fire_due_days n
             (Economy.collect_manpower
                (Economy.collect_daily_income
                   (GameState.with_economy_accumulator
                      (GameState.economy_accumulator w
                       - Economy.update_interval)%float w)))
      else w
  end.

Definition advance_as_specified (days : nat) (dt : float) (w : GameState.t)
  : GameState.t :=
  fire_due_days days
    (GameState.with_economy_accumulator
       (GameState.economy_accumulator w + dt)%float w).

(** C2, as amended: one call of the economy's [update] adds [dt] to the
    accumulator and, when the sum has reached 24 hours, fires the daily
    accrual exactly once (every country receives one day of income and
    manpower, however many days [dt] spans) and subtracts 24 from the
    accumulator, keeping the overflow; below 24 hours nothing fires. The
    rest of the state is untouched. *)
Theorem economy_update_fires_at_most_once (dt : float) (w : GameState.t) :
  let acc := (GameState.economy_accumulator w + dt)%float in
  let w' := Economy.update dt w in
  (PrimFloat.leb 24 acc = true ->
   GameState.countries w' = map (accrued w) (GameState.countries w)
   /\ GameState.economy_accumulator w' = (acc - 24)%float)
  /\ (PrimFloat.leb 24 acc = false ->
      GameState.countries w' = GameState.countries w
      /\ GameState.economy_accumulator w' = acc)
  /\ GameState.provinces w' = GameState.provinces w
  /\ GameState.units w' = GameState.units w
  /\ GameState.active_battles w' = GameState.active_battles w
  /\ GameState.pending_peace_treaties w' = GameState.pending_peace_treaties w.
Proof.
  intros acc w'. subst w'. unfold Economy.update.
  fold acc. change Economy.update_interval with 24%float.
  destruct (PrimFloat.leb 24 acc) eqn:E.
  - split; [intros _; split|split; [discriminate|]].
    + rewrite collect_once. reflexivity.
    + reflexivity.
    + repeat split.
  - split; [discriminate|]. split; [intros _; split; reflexivity|].
    repeat split.
Qed.

(** C2, the claim as stated fails: from an empty accumulator a call with
    [dt = 48] spans two full days, yet Germany is paid one day (120, not 240)
    and a whole day stays in the accumulator; the contract as specified pays
    both days and leaves nothing. *)
Lemma economy_update_two_days_fires_once :
  let w1 := Economy.update 48%float Sample.world in
  let w2 := advance_as_specified 2 48%float Sample.world in
  option_map Country.money (GameState.get_country "GER" w1) = Some 2120%float
  /\ GameState.economy_accumulator w1 = 24%float
  /\ option_map Country.money (GameState.get_country "GER" w2)
     = Some 2240%float
  /\ GameState.economy_accumulator w2 = 0%float
  /\ w1 <> w2.
Proof.
  vm_compute. repeat split. intros H.
  assert (E : (2120 = 2240)%float) by congruence.
  revert E. apply float_neq; reflexivity.
Qed.

(** ** Lists of codes and dicts of scores *)

Lemma mem_In (x : string) (xs : list string) : mem x xs = true <-> In x xs.
Proof.
  unfold mem. rewrite existsb_exists. split.
  - intros [y [Hy E]]. apply String.eqb_eq in E. now subst.
  - intros H. exists x. split; [exact H | apply String.eqb_refl].
Qed.

Lemma mem_app (x : string) (xs ys : list string) :
  mem x (xs ++ ys) = mem x xs || mem x ys.
Proof. unfold mem. apply existsb_app. Qed.

Lemma mem_single (x y : string) : mem x [y] = String.eqb x y.
Proof. unfold mem. simpl. apply orb_false_r. Qed.

Lemma mem_cons (x y : string) (xs : list string) :
  mem x (y :: xs) = String.eqb x y || mem x xs.
Proof. reflexivity. Qed.

Lemma mem_remove_first_other (x y : string) (xs : list string) :
  x <> y -> mem y (remove_first x xs) = mem y xs.
Proof.
  intros Hxy. induction xs as [|z r IH]; cbn [remove_first]; [reflexivity|].
  destruct (String.eqb z x) eqn:E.
  - apply String.eqb_eq in E. subst z. rewrite mem_cons.
    replace (String.eqb y x) with false; [reflexivity|].
    symmetry. apply String.eqb_neq. congruence.
  - rewrite !mem_cons. now rewrite IH.
Qed.

Lemma mem_remove_first_same (x : string) (xs : list string) :
  NoDup xs -> mem x (remove_first x xs) = false.
Proof.
  induction 1 as [|z r Hz Hr IH]; cbn [remove_first]; [reflexivity|].
  destruct (String.eqb z x) eqn:E.
  - apply String.eqb_eq in E. subst z.
    destruct (mem x r) eqn:M; [|reflexivity].
    apply mem_In in M. contradiction.
  - rewrite mem_cons, String.eqb_sym, E. exact IH.
Qed.

Lemma NoDup_remove_first (x : string) (xs : list string) :
  NoDup xs -> NoDup (remove_first x xs).
Proof.
  induction 1 as [|z r Hz Hr IH]; simpl; [constructor|].
  destruct (String.eqb z x) eqn:E; [exact Hr|].
  constructor; [|exact IH].
  intros Hin. apply Hz. apply mem_In. apply mem_In in Hin.
  rewrite mem_remove_first_other in Hin; [exact Hin|].
  apply String.eqb_neq in E. congruence.
Qed.

Lemma NoDup_snoc (x : string) (xs : list string) :
  NoDup xs -> mem x xs = false -> NoDup (xs ++ [x]).
Proof.
  intros Hn Hx. apply NoDup_app.
  - exact Hn.
  - constructor; [intros []|constructor].
  - intros y Hy [E|[]]. subst y. apply mem_In in Hy. congruence.
Qed.

Section DictFacts.
Context {V : Type}.
Implicit Types (d : Dict.t V) (k : string) (v : V).

Lemma dict_get_set_same k v d : Dict.get k (Dict.set k v d) = Some v.
Proof.
  induction d as [|[k' v'] r IH]; simpl.
  - now rewrite String.eqb_refl.
  - destruct (String.eqb k' k) eqn:E; simpl; now rewrite E.
Qed.

Lemma dict_get_set_other k k' v d :
  k <> k' -> Dict.get k' (Dict.set k v d) = Dict.get k' d.
Proof.
  intros Hk. induction d as [|[k0 v0] r IH]; simpl.
  - replace (String.eqb k k') with false; [reflexivity|].
    symmetry. now apply String.eqb_neq.
  - destruct (String.eqb k0 k) eqn:E; simpl.
    + apply String.eqb_eq in E. subst k0.
      replace (String.eqb k k') with false; [reflexivity|].
      symmetry. now apply String.eqb_neq.
    + now rewrite IH.
Qed.

Lemma dict_get_del_same k d : Dict.get k (Dict.del k d) = None.
Proof.
  induction d as [|[k' v'] r IH]; simpl; [reflexivity|].
  destruct (String.eqb k' k) eqn:E; simpl; [exact IH|].
  now rewrite E.
Qed.

Lemma dict_get_del_other k k' d :
  k <> k' -> Dict.get k' (Dict.del k d) = Dict.get k' d.
Proof.
  intros Hk. induction d as [|[k0 v0] r IH]; simpl; [reflexivity|].
  destruct (String.eqb k0 k) eqn:E; simpl.
  - apply String.eqb_eq in E. subst k0.
    replace (String.eqb k k') with false; [exact IH|].
    symmetry. now apply String.eqb_neq.
  - now rewrite IH.
Qed.

Lemma dict_set_set k v v' d :
  Dict.set k v' (Dict.set k v d) = Dict.set k v' d.
Proof.
  induction d as [|[k0 v0] r IH]; simpl.
  - now rewrite String.eqb_refl.
  - destruct (String.eqb k0 k) eqn:E; simpl; rewrite E; [reflexivity|].
    now rewrite IH.
Qed.

Lemma dict_keys_set_present k v d :
  Dict.contains k d = true -> Dict.keys (Dict.set k v d) = Dict.keys d.
Proof.
  unfold Dict.contains, Dict.keys.
  induction d as [|[k0 v0] r IH]; simpl; [discriminate|].
  destruct (String.eqb k0 k) eqn:E; simpl; [reflexivity|].
  intros H. now rewrite IH.
Qed.

Lemma dict_contains_keys k d : Dict.contains k d = mem k (Dict.keys d).
Proof.
  unfold Dict.contains, Dict.keys, mem.
  induction d as [|[k0 v0] r IH]; simpl; [reflexivity|].
  rewrite (String.eqb_sym k k0).
  destruct (String.eqb k0 k); simpl; [reflexivity|exact IH].
Qed.
End DictFacts.

(** ** Wars: one country *)

Lemma declare_war_code (b : string) (c : Country.t) :
  Country.code (Country.declare_war b c) = Country.code c.
Proof. unfold Country.declare_war. now destruct (mem b _). Qed.

Lemma make_peace_code (b : string) (c : Country.t) :
  Country.code (Country.make_peace b c) = Country.code c.
Proof. unfold Country.make_peace. now destruct (mem b _). Qed.

Lemma declare_war_mem (b y : string) (c : Country.t) :
  mem y (Country.at_war_with (Country.declare_war b c))
  = mem y (Country.at_war_with c) || String.eqb y b.
Proof.
  unfold Country.declare_war. destruct (mem b _) eqn:M; simpl.
  - destruct (String.eqb y b) eqn:E.
    + apply String.eqb_eq in E. subst y. now rewrite M.
    + now rewrite orb_false_r.
  - now rewrite mem_app, mem_single.
Qed.

Lemma declare_war_again (b : string) (c : Country.t) :
  Country.is_at_war_with b c = true -> Country.declare_war b c = c.
Proof.
  unfold Country.is_at_war_with, Country.declare_war. now intros ->.
Qed.

Lemma declare_war_fresh_score (b : string) (c : Country.t) :
  Country.is_at_war_with b c = false ->
  Dict.get b (Country.war_scores (Country.declare_war b c)) = Some 0.
Proof.
  unfold Country.is_at_war_with, Country.declare_war. intros ->. simpl.
  apply dict_get_set_same.
Qed.

Lemma make_peace_mem (b y : string) (c : Country.t) :
  NoDup (Country.at_war_with c) ->
  mem y (Country.at_war_with (Country.make_peace b c))
  = mem y (Country.at_war_with c) && negb (String.eqb y b).
Proof.
  intros Hn. unfold Country.make_peace. destruct (mem b _) eqn:M; simpl.
  - destruct (String.eqb y b) eqn:E.
    + apply String.eqb_eq in E. subst y.
      rewrite andb_false_r. now apply mem_remove_first_same.
    + rewrite andb_true_r. apply mem_remove_first_other.
      apply String.eqb_neq in E. congruence.
  - destruct (String.eqb y b) eqn:E.
    + apply String.eqb_eq in E. subst y. now rewrite M.
    + now rewrite andb_true_r.
Qed.

(** The war lists hold no code twice, and a score is kept only against a
    listed enemy: the shape [declare_war] and [make_peace] maintain. *)
Definition wars_wf (c : Country.t) : Prop :=
  NoDup (Country.at_war_with c)
  /\ forall k, Dict.contains k (Country.war_scores c) = true ->
               mem k (Country.at_war_with c) = true.

Lemma dict_contains_set (k k' : string) (v : Z) (d : Dict.t Z) :
  Dict.contains k' (Dict.set k v d) = String.eqb k' k || Dict.contains k' d.
Proof.
  unfold Dict.contains. destruct (String.eqb k' k) eqn:E.
  - apply String.eqb_eq in E. subst k'. now rewrite dict_get_set_same.
  - rewrite dict_get_set_other; [reflexivity|].
    apply String.eqb_neq in E. congruence.
Qed.

Lemma dict_contains_del (k k' : string) (d : Dict.t Z) :
  Dict.contains k' (Dict.del k d)
  = negb (String.eqb k' k) && Dict.contains k' d.
Proof.
  unfold Dict.contains. destruct (String.eqb k' k) eqn:E.
  - apply String.eqb_eq in E. subst k'. now rewrite dict_get_del_same.
  - rewrite dict_get_del_other; [reflexivity|].
    apply String.eqb_neq in E. congruence.
Qed.

Lemma declare_war_wf (b : string) (c : Country.t) :
  wars_wf c -> wars_wf (Country.declare_war b c).
Proof.
  intros [Hn Hk]. split.
  - unfold Country.declare_war. destruct (mem b _) eqn:M; simpl; [exact Hn|].
    now apply NoDup_snoc.
  - intros k. rewrite declare_war_mem.
    unfold Country.declare_war. destruct (mem b _) eqn:M; simpl.
    + intros H. now rewrite (Hk k H).
    + rewrite dict_contains_set. destruct (String.eqb k b); simpl.
      * intros _. apply orb_true_r.
      * intros H. now rewrite (Hk k H).
Qed.

Lemma make_peace_wf (b : string) (c : Country.t) :
  wars_wf c -> wars_wf (Country.make_peace b c).
Proof.
  intros [Hn Hk]. split.
  - unfold Country.make_peace. destruct (mem b _); simpl; [|exact Hn].
    now apply NoDup_remove_first.
  - intros k. rewrite make_peace_mem by exact Hn.
    unfold Country.make_peace. destruct (mem b _) eqn:M; simpl.
    + rewrite dict_contains_del. destruct (String.eqb k b); simpl.
      * discriminate.
      * intros H. now rewrite (Hk k H).
    + intros H. rewrite (Hk k H). simpl.
      destruct (String.eqb k b) eqn:E; [|reflexivity].
      apply String.eqb_eq in E. subst k. rewrite (Hk b H) in M. discriminate.
Qed.

Lemma make_peace_no_score (b : string) (c : Country.t) :
  wars_wf c -> Dict.get b (Country.war_scores (Country.make_peace b c)) = None.
Proof.
  intros [Hn Hk]. unfold Country.make_peace. destruct (mem b _) eqn:M; simpl.
  - apply dict_get_del_same.
  - specialize (Hk b). unfold Dict.contains in Hk.
    destruct (Dict.get b (Country.war_scores c)); [|reflexivity].
    rewrite Hk in M; [discriminate|reflexivity].
Qed.

(** ** Wars: the registry *)

(** The state of a country after two successive in-place updates, the first
    of the country registered under [a], the second of the one under [b]
    (the same object when [a = b]). *)
Lemma get_country_update_twice (a b x : string) (f g : Country.t -> Country.t)
  (w : GameState.t) :
  (forall c, Country.code (f c) = Country.code c) ->
  (forall c, Country.code (g c) = Country.code c) ->
  GameState.get_country x
    (GameState.update_country b g (GameState.update_country a f w))
  = option_map
      (fun c => (if String.eqb x b then g else fun y => y)
                  ((if String.eqb x a then f else fun y => y) c))
      (GameState.get_country x w).
Proof.
  intros Hf Hg.
  destruct (String.eqb x b) eqn:Eb; [apply String.eqb_eq in Eb; subst b|];
    (destruct (String.eqb x a) eqn:Ea; [apply String.eqb_eq in Ea; subst a|]).
  - rewrite !get_country_update_same by assumption.
    now destruct (GameState.get_country x w).
  - rewrite get_country_update_same by assumption.
    rewrite get_country_update_other; try assumption.
    + now destruct (GameState.get_country x w).
    + apply String.eqb_neq in Ea. congruence.
  - rewrite get_country_update_other; try assumption.
    + rewrite get_country_update_same by assumption.
      now destruct (GameState.get_country x w).
    + apply String.eqb_neq in Eb. congruence.
  - rewrite !get_country_update_other; try assumption.
    + now destruct (GameState.get_country x w).
    + apply String.eqb_neq in Ea. congruence.
    + apply String.eqb_neq in Eb. congruence.
Qed.

Lemma declare_war_lookup (a b x : string) (ca cb : Country.t)
  (w : GameState.t) :
  GameState.get_country a w = Some ca ->
  GameState.get_country b w = Some cb ->
  Diplomacy.declare_war a b w
  = (GameState.update_country b (Country.declare_war a)
       (GameState.update_country a (Country.declare_war b) w), true)
  /\ GameState.get_country x (fst (Diplomacy.declare_war a b w))
     = option_map
         (fun c => (if String.eqb x b then Country.declare_war a
                    else fun y => y)
                     ((if String.eqb x a then Country.declare_war b
                       else fun y => y) c))
         (GameState.get_country x w).
Proof.
  intros Ha Hb. unfold Diplomacy.declare_war. rewrite Ha, Hb. simpl.
  split; [reflexivity|].
  apply get_country_update_twice; intros c; apply declare_war_code.
Qed.

Lemma make_peace_lookup (a b x : string) (ca cb : Country.t)
  (w : GameState.t) :
  GameState.get_country a w = Some ca ->
  GameState.get_country b w = Some cb ->
  GameState.get_country x (Diplomacy.make_peace a b w)
  = option_map
      (fun c => (if String.eqb x b then Country.make_peace a
                 else fun y => y)
                  ((if String.eqb x a then Country.make_peace b
                    else fun y => y) c))
      (GameState.get_country x w).
Proof.
  intros Ha Hb. unfold Diplomacy.make_peace. rewrite Ha, Hb.
  apply get_country_update_twice; intros c; apply make_peace_code.
Qed.

(** ** Declaring war *)

(** Germany and France at war, Germany 40 points ahead, France 10. *)
Definition at_war_world : GameState.t :=
  Sample.with_state
    [ Sample.country "GER" 1 2000%float 20000 ["FRA"] [("FRA", 40)];
      Sample.country "FRA" 4 1800%float 18000 ["GER"] [("GER", 10)];
      Sample.country "GBR" 7 2500%float 15000 [] [] ]
    [] [].

(** C3, as amended: a declaration of war between two registered countries
    returns true and leaves each in the other's at-war list; a side that did
    not list the other before gets a war score of 0 against it, and a side
    that already listed it is left exactly as it was (its score is not
    reset). *)
Theorem declare_war_enters_war (a b : string) (ca cb : Country.t)
  (w : GameState.t) :
  GameState.get_country a w = Some ca ->
  GameState.get_country b w = Some cb ->
  snd (Diplomacy.declare_war a b w) = true
  /\ exists ca' cb',
      GameState.get_country a (fst (Diplomacy.declare_war a b w)) = Some ca'
      /\ GameState.get_country b (fst (Diplomacy.declare_war a b w)) = Some cb'
      /\ Country.is_at_war_with b ca' = true
      /\ Country.is_at_war_with a cb' = true
      /\ (Country.is_at_war_with b ca = false ->
          Dict.get b (Country.war_scores ca') = Some 0)
      /\ (Country.is_at_war_with a cb = false ->
          Dict.get a (Country.war_scores cb') = Some 0)
      /\ (Country.is_at_war_with b ca = true -> ca' = ca)
      /\ (Country.is_at_war_with a cb = true -> cb' = cb).
Proof.
  intros Ha Hb.
  destruct (declare_war_lookup a b a ca cb w Ha Hb) as [Hrun Hla].
  destruct (declare_war_lookup a b b ca cb w Ha Hb) as [_ Hlb].
  split; [now rewrite Hrun|].
  rewrite Ha in Hla. rewrite Hb in Hlb. simpl in Hla, Hlb.
  rewrite String.eqb_refl in Hla, Hlb.
  assert (Hin : forall k c, Country.is_at_war_with k (Country.declare_war k c)
                            = true).
  { intros k c. unfold Country.is_at_war_with.
    rewrite declare_war_mem, String.eqb_refl. apply orb_true_r. }
  destruct (String.eqb a b) eqn:E.
  - apply String.eqb_eq in E. subst b.
    rewrite String.eqb_refl in Hlb.
    assert (cb = ca) by congruence. subst cb.
    rewrite (declare_war_again a (Country.declare_war a ca)) in Hla, Hlb
      by apply Hin.
    exists (Country.declare_war a ca), (Country.declare_war a ca).
    repeat split; try assumption; try apply Hin;
      try apply declare_war_fresh_score; try apply declare_war_again.
  - rewrite String.eqb_sym, E in Hlb.
    exists (Country.declare_war b ca), (Country.declare_war a cb).
    repeat split; try assumption; try apply Hin;
      try apply declare_war_fresh_score; try apply declare_war_again.
Qed.

Lemma declare_war_enters_war_witness :
  snd (Diplomacy.declare_war "GER" "FRA" Sample.world) = true
  /\ exists ca' cb',
      GameState.get_country "GER"
        (fst (Diplomacy.declare_war "GER" "FRA" Sample.world)) = Some ca'
      /\ GameState.get_country "FRA"
           (fst (Diplomacy.declare_war "GER" "FRA" Sample.world)) = Some cb'
      /\ Country.is_at_war_with "FRA" ca' = true
      /\ Country.is_at_war_with "GER" cb' = true
      /\ (Country.is_at_war_with "FRA"
            (Sample.country "GER" 1 2000%float 20000 [] []) = false ->
          Dict.get "FRA" (Country.war_scores ca') = Some 0)
      /\ (Country.is_at_war_with "GER"
            (Sample.country "FRA" 4 1800%float 18000 [] []) = false ->
          Dict.get "GER" (Country.war_scores cb') = Some 0)
      /\ (Country.is_at_war_with "FRA"
            (Sample.country "GER" 1 2000%float 20000 [] []) = true ->
          ca' = Sample.country "GER" 1 2000%float 20000 [] [])
      /\ (Country.is_at_war_with "GER"
            (Sample.country "FRA" 4 1800%float 18000 [] []) = true ->
          cb' = Sample.country "FRA" 4 1800%float 18000 [] []).
Proof.
  apply (declare_war_enters_war "GER" "FRA"
           (Sample.country "GER" 1 2000%float 20000 [] [])
           (Sample.country "FRA" 4 1800%float 18000 [] [])
           Sample.world); reflexivity.
Defined.

(** C3, the claim as stated fails: Germany and France are at war with scores
    40 and 10; declaring the war again returns true and both scores stand,
    neither is reset to 0. *)
Lemma declare_war_again_keeps_scores :
  let r := Diplomacy.declare_war "GER" "FRA" at_war_world in
  snd r = true
  /\ option_map (fun c => Dict.get "FRA" (Country.war_scores c))
       (GameState.get_country "GER" (fst r)) = Some (Some 40)
  /\ option_map (fun c => Dict.get "GER" (Country.war_scores c))
       (GameState.get_country "FRA" (fst r)) = Some (Some 10)
  /\ option_map (fun c => Dict.get "FRA" (Country.war_scores c))
       (GameState.get_country "GER" (fst r)) <> Some (Some 0).
Proof. vm_compute. repeat split. discriminate. Qed.

(** ** The war relation *)

Definition war_symmetric (w : GameState.t) : Prop :=
  forall a b ca cb,
    GameState.get_country a w = Some ca ->
    GameState.get_country b w = Some cb ->
    Country.is_at_war_with b ca = Country.is_at_war_with a cb.

Definition wars_wf_all (w : GameState.t) : Prop :=
  forall k c, GameState.get_country k w = Some c -> wars_wf c.

(** What the registry says about wars: per country its code, its at-war list
    and the enemies it keeps a score against. *)
Definition war_view (w : GameState.t)
  : list (string * list string * list string) :=
  map (fun c => (Country.code c, Country.at_war_with c,
                 Dict.keys (Country.war_scores c)))
      (GameState.countries w).

(** The states a session goes through, as far as wars are concerned: it
    starts with every country at peace (the defaults of the [Country]
    dataclass), the diplomacy engine declares wars and makes peace, and the
    other engines leave the war lists and the scored enemies alone. *)
Inductive diplomatic_history : GameState.t -> Prop :=
| history_start w :
    (forall c, In c (GameState.countries w) ->
               Country.at_war_with c = [] /\ Country.war_scores c = []) ->
    diplomatic_history w
| history_declare a b w :
    diplomatic_history w ->
    diplomatic_history (fst (Diplomacy.declare_war a b w))
| history_peace a b w :
    diplomatic_history w ->
    diplomatic_history (Diplomacy.make_peace a b w)
| history_other w w' :
    diplomatic_history w ->
    war_view w' = war_view w ->
    diplomatic_history w'.

Lemma declare_both_mem (a b x y : string) (c : Country.t) :
  mem y (Country.at_war_with
           ((if String.eqb x b then Country.declare_war a else fun z => z)
              ((if String.eqb x a then Country.declare_war b else fun z => z)
                 c)))
  = mem y (Country.at_war_with c)
    || (String.eqb x a && String.eqb y b)
    || (String.eqb x b && String.eqb y a).
Proof.
  destruct (String.eqb x b), (String.eqb x a);
    rewrite ?declare_war_mem; simpl;
    rewrite ?orb_false_r; reflexivity.
Qed.

Lemma declare_both_wf (a b x : string) (c : Country.t) :
  wars_wf c ->
  wars_wf ((if String.eqb x b then Country.declare_war a else fun z => z)
             ((if String.eqb x a then Country.declare_war b else fun z => z)
                c)).
Proof.
  intros H. destruct (String.eqb x b), (String.eqb x a);
    repeat apply declare_war_wf; exact H.
Qed.

Lemma peace_both_wf (a b x : string) (c : Country.t) :
  wars_wf c ->
  wars_wf ((if String.eqb x b then Country.make_peace a else fun z => z)
             ((if String.eqb x a then Country.make_peace b else fun z => z)
                c)).
Proof.
  intros H. destruct (String.eqb x b), (String.eqb x a);
    repeat apply make_peace_wf; exact H.
Qed.

Lemma peace_both_mem (a b x y : string) (c : Country.t) :
  wars_wf c ->
  mem y (Country.at_war_with
           ((if String.eqb x b then Country.make_peace a else fun z => z)
              ((if String.eqb x a then Country.make_peace b else fun z => z)
                 c)))
  = mem y (Country.at_war_with c)
    && negb ((String.eqb x a && String.eqb y b)
             || (String.eqb x b && String.eqb y a)).
Proof.
  intros Hwf.
  assert (Hwf' : wars_wf (Country.make_peace b c)) by now apply make_peace_wf.
  destruct Hwf as [Hn _]. destruct Hwf' as [Hn' _].
  destruct (String.eqb x b), (String.eqb x a);
    rewrite ?make_peace_mem by assumption;
    destruct (mem y (Country.at_war_with c)), (String.eqb y b),
      (String.eqb y a); reflexivity.
Qed.

Lemma war_view_lookup (k : string) (c' : Country.t) (w w' : GameState.t) :
  war_view w' = war_view w ->
  GameState.get_country k w' = Some c' ->
  exists c,
    GameState.get_country k w = Some c
    /\ Country.at_war_with c' = Country.at_war_with c
    /\ Dict.keys (Country.war_scores c') = Dict.keys (Country.war_scores c).
Proof.
  unfold war_view, GameState.get_country.
  generalize (GameState.countries w) as l, (GameState.countries w') as l'.
  intros l l'. revert l.
  induction l' as [|x' r' IH]; intros [|x r] Hv Hf; simpl in *;
    try discriminate.
  injection Hv as Hcode Hwars Hkeys Hrest.
  rewrite <- Hcode. destruct (String.eqb (Country.code x') k).
  - injection Hf as <-. exists x. auto.
  - apply IH; assumption.
Qed.

Lemma wars_wf_transfer (c c' : Country.t) :
  Country.at_war_with c' = Country.at_war_with c ->
  Dict.keys (Country.war_scores c') = Dict.keys (Country.war_scores c) ->
  wars_wf c -> wars_wf c'.
Proof.
  intros Hw Hk [Hn Hs]. split.
  - now rewrite Hw.
  - intros k. rewrite Hw, dict_contains_keys, Hk, <- dict_contains_keys.
    apply Hs.
Qed.

(** Every state of a diplomatic history has a symmetric war relation and
    well-formed war data. *)
Lemma history_invariant (w : GameState.t) :
  diplomatic_history w -> war_symmetric w /\ wars_wf_all w.
Proof.
  induction 1 as [w Hstart | a b w _ [IHs IHw] | a b w _ [IHs IHw]
                 | w w' _ [IHs IHw] Hview].
  - split.
    + intros a b ca cb Ha Hb. unfold GameState.get_country in *.
      apply find_some in Ha, Hb.
      destruct (Hstart ca (proj1 Ha)) as [Ea _].
      destruct (Hstart cb (proj1 Hb)) as [Eb _].
      unfold Country.is_at_war_with. now rewrite Ea, Eb.
    + intros k c Hc. unfold GameState.get_country in Hc.
      apply find_some in Hc. destruct (Hstart c (proj1 Hc)) as [Ea Es].
      split; rewrite ?Ea, ?Es; [constructor|discriminate].
  - destruct (GameState.get_country a w) as [ca|] eqn:Ha;
      [destruct (GameState.get_country b w) as [cb|] eqn:Hb|].
    + split.
      * intros x y cx' cy' Hx Hy.
        rewrite (proj2 (declare_war_lookup a b x ca cb w Ha Hb)) in Hx.
        rewrite (proj2 (declare_war_lookup a b y ca cb w Ha Hb)) in Hy.
        destruct (GameState.get_country x w) as [cx|] eqn:Ex; [|discriminate].
        destruct (GameState.get_country y w) as [cy|] eqn:Ey; [|discriminate].
        injection Hx as <-. injection Hy as <-.
        unfold Country.is_at_war_with. rewrite !declare_both_mem.
        specialize (IHs x y cx cy Ex Ey). unfold Country.is_at_war_with in IHs.
        rewrite IHs.
        destruct (mem x (Country.at_war_with cy)), (String.eqb x a),
          (String.eqb y b), (String.eqb x b), (String.eqb y a); reflexivity.
      * intros x cx' Hx.
        rewrite (proj2 (declare_war_lookup a b x ca cb w Ha Hb)) in Hx.
        destruct (GameState.get_country x w) as [cx|] eqn:Ex; [|discriminate].
        injection Hx as <-. apply declare_both_wf. now apply (IHw x).
    + unfold Diplomacy.declare_war. rewrite Ha, Hb. simpl. now split.
    + unfold Diplomacy.declare_war. rewrite Ha. simpl. now split.
  - destruct (GameState.get_country a w) as [ca|] eqn:Ha;
      [destruct (GameState.get_country b w) as [cb|] eqn:Hb|].
    + split.
      * intros x y cx' cy' Hx Hy.
        rewrite (make_peace_lookup a b x ca cb w Ha Hb) in Hx.
        rewrite (make_peace_lookup a b y ca cb w Ha Hb) in Hy.
        destruct (GameState.get_country x w) as [cx|] eqn:Ex; [|discriminate].
        destruct (GameState.get_country y w) as [cy|] eqn:Ey; [|discriminate].
        injection Hx as <-. injection Hy as <-.
        unfold Country.is_at_war_with.
        rewrite !peace_both_mem by (eapply IHw; eassumption).
        specialize (IHs x y cx cy Ex Ey). unfold Country.is_at_war_with in IHs.
        rewrite IHs.
        destruct (mem x (Country.at_war_with cy)), (String.eqb x a),
          (String.eqb y b), (String.eqb x b), (String.eqb y a); reflexivity.
      * intros x cx' Hx.
        rewrite (make_peace_lookup a b x ca cb w Ha Hb) in Hx.
        destruct (GameState.get_country x w) as [cx|] eqn:Ex; [|discriminate].
        injection Hx as <-. apply peace_both_wf. now apply (IHw x).
    + unfold Diplomacy.make_peace. rewrite Ha, Hb. now split.
    + unfold Diplomacy.make_peace. rewrite Ha. now split.
  - split.
    + intros a b ca' cb' Ha Hb.
      destruct (war_view_lookup a ca' w w' Hview Ha) as [ca [Ha0 [Ea _]]].
      destruct (war_view_lookup b cb' w w' Hview Hb) as [cb [Hb0 [Eb _]]].
      unfold Country.is_at_war_with. rewrite Ea, Eb. apply (IHs a b ca cb Ha0 Hb0).
    + intros k c' Hc.
      destruct (war_view_lookup k c' w w' Hview Hc) as [c [Hc0 [Ea Ek]]].
      apply (wars_wf_transfer c c' Ea Ek). now apply (IHw k).
Qed.

(** Peace between two registered countries with well-formed war data
    leaves neither in the other's at-war list and neither with a score
    against the other. *)
Lemma make_peace_clears (a b : string) (ca cb : Country.t) (w : GameState.t) :
  wars_wf ca -> wars_wf cb ->
  GameState.get_country a w = Some ca ->
  GameState.get_country b w = Some cb ->
  exists ca' cb',
    GameState.get_country a (Diplomacy.make_peace a b w) = Some ca'
    /\ GameState.get_country b (Diplomacy.make_peace a b w) = Some cb'
    /\ Country.is_at_war_with b ca' = false
    /\ Country.is_at_war_with a cb' = false
    /\ Dict.get b (Country.war_scores ca') = None
    /\ Dict.get a (Country.war_scores cb') = None.
Proof.
  intros Wa Wb Ha Hb.
  pose proof (make_peace_lookup a b a ca cb w Ha Hb) as La.
  pose proof (make_peace_lookup a b b ca cb w Ha Hb) as Lb.
  pose proof (peace_both_mem a b a b ca Wa) as Ma.
  pose proof (peace_both_mem a b b a cb Wb) as Mb.
  rewrite Ha in La. rewrite Hb in Lb. simpl in La, Lb.
  rewrite !String.eqb_refl in Ma, Mb. simpl in Ma, Mb.
  rewrite orb_true_r in Mb. rewrite andb_false_r in Ma, Mb.
  destruct (String.eqb a b) eqn:E.
  - apply String.eqb_eq in E. subst b. rewrite String.eqb_refl in *.
    assert (cb = ca) by congruence. subst cb.
    exists (Country.make_peace a (Country.make_peace a ca)),
           (Country.make_peace a (Country.make_peace a ca)).
    repeat split; try assumption;
      apply make_peace_no_score; now apply make_peace_wf.
  - assert (E' : String.eqb b a = false)
      by (rewrite String.eqb_sym; exact E).
    rewrite ?E, ?E', ?String.eqb_refl in *.
    exists (Country.make_peace b ca), (Country.make_peace a cb).
    repeat split; try assumption; now apply make_peace_no_score.
Qed.

(** C7: in every state of a diplomatic history the war relation between
    registered countries is symmetric, it is so again after any
    [declare_war] and any [make_peace], and [make_peace] between two
    registered countries leaves neither in the other's at-war list and
    neither with a war score against the other. *)
Theorem war_relation_symmetric (w : GameState.t) :
  diplomatic_history w ->
  war_symmetric w
  /\ (forall a b, war_symmetric (fst (Diplomacy.declare_war a b w)))
  /\ (forall a b, war_symmetric (Diplomacy.make_peace a b w))
  /\ (forall a b ca cb,
        GameState.get_country a w = Some ca ->
        GameState.get_country b w = Some cb ->
        exists ca' cb',
          GameState.get_country a (Diplomacy.make_peace a b w) = Some ca'
          /\ GameState.get_country b (Diplomacy.make_peace a b w) = Some cb'
          /\ Country.is_at_war_with b ca' = false
          /\ Country.is_at_war_with a cb' = false
          /\ Dict.get b (Country.war_scores ca') = None
          /\ Dict.get a (Country.war_scores cb') = None).
Proof.
  intros Hh. destruct (history_invariant w Hh) as [Hs Hw].
  split; [exact Hs|]. split; [|split].
  - intros a b. apply history_invariant. now constructor.
  - intros a b. apply history_invariant. now constructor.
  - intros a b ca cb Ha Hb.
    apply (make_peace_clears a b ca cb w); try assumption.
    + now apply (Hw a).
    + now apply (Hw b).
Qed.

(** Germany has declared war on France in the sample world. *)
Definition war_started : GameState.t :=
  fst (Diplomacy.declare_war "GER" "FRA" Sample.world).

Lemma war_started_history : diplomatic_history war_started.
Proof.
  apply history_declare, history_start. simpl.
  intros c [<-|[<-|[<-|[]]]]; split; reflexivity.
Qed.

Lemma war_relation_symmetric_witness :
  diplomatic_history war_started
  /\ war_symmetric war_started
  /\ war_symmetric (Diplomacy.make_peace "GER" "FRA" war_started)
  /\ exists ca' cb',
      GameState.get_country "GER" (Diplomacy.make_peace "GER" "FRA" war_started)
      = Some ca'
      /\ GameState.get_country "FRA"
           (Diplomacy.make_peace "GER" "FRA" war_started) = Some cb'
      /\ Country.is_at_war_with "FRA" ca' = false
      /\ Country.is_at_war_with "GER" cb' = false
      /\ Dict.get "FRA" (Country.war_scores ca') = None
      /\ Dict.get "GER" (Country.war_scores cb') = None.
Proof.
  destruct (war_relation_symmetric war_started war_started_history)
    as [Hs [_ [Hp Hc]]].
  split; [exact war_started_history|]. split; [exact Hs|].
  split; [apply Hp|].
  apply (Hc "GER" "FRA"
           (Sample.country "GER" 1 2000%float 20000 ["FRA"] [("FRA", 0)])
           (Sample.country "FRA" 4 1800%float 18000 ["GER"] [("GER", 0)]));
    reflexivity.
Defined.

(** ** Peace treaties *)

Lemma execute_demand_pending (winner loser : string) (d : PeaceDemand.t)
  (w : GameState.t) :
  GameState.pending_peace_treaties (Diplomacy._execute_demand winner loser d w)
  = GameState.pending_peace_treaties w.
Proof.
  unfold Diplomacy._execute_demand.
  destruct (String.eqb _ "annex_province").
  - destruct (payload_key _); [|reflexivity].
    destruct (GameState.get_province _ _); [|reflexivity].
    now destruct (Province.owned_by _ _).
  - destruct (String.eqb _ "war_reparations"); [|reflexivity].
    destruct (GameState.get_country loser w); [|reflexivity].
    now destruct (GameState.get_country winner w).
Qed.

Lemma execute_demands_pending (winner loser : string)
  (ds : list PeaceDemand.t) (w : GameState.t) :
  GameState.pending_peace_treaties
    (Diplomacy._execute_demands_list winner loser ds w)
  = GameState.pending_peace_treaties w.
Proof.
  unfold Diplomacy._execute_demands_list. revert w.
  induction ds as [|d r IH]; intros w; simpl; [reflexivity|].
  rewrite IH. apply execute_demand_pending.
Qed.

Lemma make_peace_pending (a b : string) (w : GameState.t) :
  GameState.pending_peace_treaties (Diplomacy.make_peace a b w)
  = GameState.pending_peace_treaties w.
Proof.
  unfold Diplomacy.make_peace.
  destruct (GameState.get_country a w); [|reflexivity].
  now destruct (GameState.get_country b w).
Qed.

(** An [int] and a [float] are compared exactly: 2^53 + 1 is not the float
    2^53 it would round to; and a NaN is equal to nothing, itself
    included. *)
Lemma payload_eqb_exact :
  payload_eqb (IntData 9007199254740993) (FloatData 9007199254740992) = false
  /\ payload_eqb (FloatData 9007199254740992) (IntData 9007199254740992) = true
  /\ payload_eqb (IntData 500) (FloatData 500) = true
  /\ payload_eqb (IntData 0) (FloatData (-0)) = true
  /\ payload_eqb (FloatData 0.5) (IntData 0) = false
  /\ payload_eqb (FloatData nan) (FloatData nan) = false
  /\ payload_eqb (FloatData infinity) (IntData (10 ^ 400)) = false.
Proof. vm_compute. repeat split. Qed.

(** How many pending entries are equal to a treaty. *)
Definition times_pending (treaty : PeaceTreaty.t) (ts : list PeaceTreaty.t)
  : nat :=
  List.length (filter (fun x => PeaceTreaty.eqb x treaty) ts).

Lemma remove_treaty_once (treaty : PeaceTreaty.t) (ts : list PeaceTreaty.t) :
  times_pending treaty (Diplomacy.remove_treaty treaty ts)
  = Nat.pred (times_pending treaty ts).
Proof.
  unfold times_pending. induction ts as [|x r IH]; simpl; [reflexivity|].
  destruct (PeaceTreaty.eqb x treaty) eqn:E; simpl; [reflexivity|].
  now rewrite E.
Qed.

(** France owes Germany Lyon: the treaty is pending, and Germany leads
    by 40. *)
Definition lyon_treaty : PeaceTreaty.t :=
  PeaceTreaty.mk "GER" "FRA"
    [PeaceDemand.mk "annex_province" (IntData 5) 11] 11.

Definition lyon_pending : GameState.t :=
  GameState.with_pending [lyon_treaty] at_war_world.

(** The scenario of an annexation: the accepted treaty hands Lyon, and
    Lyon only, to Germany, ends the war and is consumed; accepted again it
    is refused and nothing changes. *)
Lemma lyon_annexed :
  let r := Diplomacy.accept_peace_treaty lyon_treaty lyon_pending in
  snd r = true
  /\ map Province.owner (GameState.provinces (fst r))
     = [ Some "GER"; Some "GER"; Some "GER";
         Some "FRA"; Some "GER"; Some "FRA";
         Some "GBR"; Some "GBR"; Some "GBR" ]
  /\ map Country.at_war_with (GameState.countries (fst r)) = [ []; []; [] ]
  /\ GameState.pending_peace_treaties (fst r) = []
  /\ Diplomacy.accept_peace_treaty lyon_treaty (fst r) = (fst r, false).
Proof. vm_compute. repeat split. Qed.

(** ** Military: movement and destruction *)

Lemma sweep_filter (us : list Unit.t) :
  Military.sweep us
  = filter (fun u => negb (Unit.is_destroyed u))
           (map Military.resolve_movement us).
Proof.
  induction us as [|u r IH]; simpl; [reflexivity|].
  destruct (Unit.is_destroyed (Military.resolve_movement u)); simpl;
    now rewrite IH.
Qed.

Lemma resolve_movement_hp (u : Unit.t) :
  Unit.current_hp (Military.resolve_movement u) = Unit.current_hp u.
Proof.
  unfold Military.resolve_movement, Military._move_unit.
  destruct (Unit.is_moving u && truthy_opt_int (Unit.move_target u));
    [|reflexivity].
  destruct (Unit.move_target u) as [t|]; [|reflexivity].
  now destruct (truthy_opt_int (Some t)).
Qed.

(** A unit that is moving toward a province other than province 0 is
    relocated there and stops. *)
Lemma resolve_movement_moving (u : Unit.t) (target : Z) :
  Unit.is_moving u = true ->
  Unit.move_target u = Some target ->
  target <> 0 ->
  Military.resolve_movement u = Unit.with_movement target false None u.
Proof.
  intros Hm Ht Hz. unfold Military.resolve_movement, Military._move_unit.
  rewrite Hm, Ht. simpl. apply Z.eqb_neq in Hz. now rewrite Hz.
Qed.

(** A unit that is not moving, or has no target, is left as it is. *)
Lemma resolve_movement_idle (u : Unit.t) :
  Unit.is_moving u = false \/ Unit.move_target u = None ->
  Military.resolve_movement u = u.
Proof.
  unfold Military.resolve_movement. intros [H|H]; rewrite H; [reflexivity|].
  now rewrite andb_false_r.
Qed.

(** What one [update] does to the roster: every unit has its movement
    resolved first, and the units without hit points are then dropped, in
    the order of the roster. A unit that dies on arrival is relocated and
    removed in the same call. *)
Lemma military_update_roster (dt : float) (w : GameState.t) :
  GameState.units (Military.update dt w)
  = filter (fun u => 0 <? Unit.current_hp u)
           (map Military.resolve_movement (GameState.units w))
  /\ Military.destroyed_by_update w
     = filter (fun u => Unit.current_hp u <=? 0)
              (map Military.resolve_movement (GameState.units w))
  /\ (forall u, In u (GameState.units (Military.update dt w)) ->
                0 < Unit.current_hp u).
Proof.
  assert (E : GameState.units (Military.update dt w)
              = filter (fun u => 0 <? Unit.current_hp u)
                  (map Military.resolve_movement (GameState.units w))).
  { unfold Military.update. simpl. rewrite sweep_filter.
    apply filter_ext. intros u. unfold Unit.is_destroyed.
    destruct (Z.leb_spec (Unit.current_hp u) 0), (Z.ltb_spec 0 (Unit.current_hp u));
      simpl; try reflexivity; lia. }
  split; [exact E|]. split; [reflexivity|].
  intros u Hu. rewrite E in Hu. apply filter_In in Hu.
  now apply Z.ltb_lt.
Qed.

(** A unit on the move toward province 0, and one that dies on arrival in
    province 4. *)
Definition bound_for_zero : Unit.t :=
  Sample.unit 1 "GER" 1 100 true (Some 0).
Definition dying_mover : Unit.t :=
  Sample.unit 2 "GER" 1 0 true (Some 4).

(** C6 (the code departs from it): a unit that is moving with its target
    set to province 0 is still where it was after [update], still flagged
    as moving and still holding its target, because the guard of the move
    reads the target's truth value and 0 is false. The other parts of the
    claim hold: the unit that moves to province 4 without hit points is
    relocated and leaves the roster in the same call. *)
Theorem military_update_ignores_target_zero :
  let w := Sample.with_state Sample.countries [bound_for_zero; dying_mover] [] in
  GameState.units (Military.update 1%float w) = [bound_for_zero]
  /\ Unit.is_moving bound_for_zero = true
  /\ Unit.move_target bound_for_zero = Some 0
  /\ Unit.location bound_for_zero = 1
  /\ map Unit.location (Military.destroyed_by_update w) = [4].
Proof. vm_compute. repeat split. Qed.

(** ** Combat: damage *)

(** True division of two [int]s rounds the exact quotient once; dividing
    the two converted operands would round three times and can differ in
    the last place. *)
Lemma int_truediv_rounds_once :
  int_truediv 9007199254740993 3 = Some 3002399751580331%float
  /\ (Z2float 9007199254740993 / Z2float 3)%float = 3002399751580330.5%float
  /\ int_truediv 100 100 = Some 1%float
  /\ int_truediv 99 100 = Some 0.99%float
  /\ int_truediv 5 0 = None
  /\ int_truediv (10 ^ 400) 1 = None.
Proof. vm_compute. repeat split. Qed.

(** C8, as amended: a unit that receives a damage share [d] loses
    [int(d * 0.5)] hit points and as much organization, that is the half
    share truncated toward zero to an integer (and not the half share
    itself), each floored at 0; its strength is then the quotient of the
    new hit points by the template's maximum, the true division of the two
    [int]s. Nothing else of the unit changes. The call returns whenever the
    half share is a finite number and that division is defined. *)
Theorem take_damage_truncates (d : float) (tpl : UnitTemplate.t) (u : Unit.t)
  (n : Z) (s : float) :
  int_of_float (d * 0.5)%float = Some n ->
  int_truediv (Z.max 0 (Unit.current_hp u - n)) (UnitTemplate.max_hp tpl)
  = Some s ->
  exists u',
    Unit.take_damage d tpl u = Some u'
    /\ Unit.current_hp u' = Z.max 0 (Unit.current_hp u - n)
    /\ Unit.organization u' = Z.max 0 (Unit.organization u - n)
    /\ Unit.strength u' = s
    /\ Unit.with_combat (Unit.current_hp u) (Unit.organization u)
         (Unit.strength u) u'
       = u.
Proof.
  intros Hn Hs. unfold Unit.take_damage. rewrite Hn, Hs.
  eexists. split; [reflexivity|]. simpl. repeat split.
  now destruct u.
Qed.

Lemma take_damage_truncates_witness :
  int_of_float (3 * 0.5)%float = Some 1
  /\ int_truediv (Z.max 0 (100 - 1)) 100 = Some 0.99%float
  /\ exists u',
      Unit.take_damage 3%float Sample.infantry
        (Sample.unit 1 "GER" 1 100 false None) = Some u'
      /\ Unit.current_hp u' = Z.max 0 (100 - 1)
      /\ Unit.organization u' = Z.max 0 (100 - 1)
      /\ Unit.strength u' = 0.99%float
      /\ Unit.with_combat 100 100 1%float u'
         = Sample.unit 1 "GER" 1 100 false None.
Proof.
  split; [reflexivity|]. split; [reflexivity|].
  apply (take_damage_truncates 3%float Sample.infantry
           (Sample.unit 1 "GER" 1 100 false None) 1 0.99%float);
    reflexivity.
Defined.

(** C8, the claim as stated fails: a share of 3 is halved to 1.5, and a
    full-strength infantry unit loses 1 hit point and 1 organization, not
    1.5; a share of 1 is halved to 0.5 and takes nothing at all. *)
Lemma take_damage_not_half_share :
  let u := Sample.unit 1 "GER" 1 100 false None in
  (3 * 0.5)%float = 1.5%float
  /\ option_map Unit.current_hp (Unit.take_damage 3%float Sample.infantry u)
     = Some 99
  /\ option_map Unit.organization (Unit.take_damage 3%float Sample.infantry u)
     = Some 99
  /\ Z2float (100 - 99) <> 1.5%float
  /\ (1 * 0.5)%float = 0.5%float
  /\ option_map Unit.current_hp (Unit.take_damage 1%float Sample.infantry u)
     = Some 100
  /\ option_map Unit.organization (Unit.take_damage 1%float Sample.infantry u)
     = Some 100.
Proof.
  vm_compute. repeat split. apply float_neq; reflexivity.
Qed.

(** ** Combat: the end of a battle *)

Lemma award_war_score_provinces (a b : string) (n : Z) (w : GameState.t) :
  GameState.provinces (Combat._award_war_score a b n w) = GameState.provinces w.
Proof.
  unfold Combat._award_war_score.
  destruct (GameState.get_country a w); [|reflexivity].
  now destruct (Dict.get b _).
Qed.

Lemma award_war_score_battles (a b : string) (n : Z) (w : GameState.t) :
  GameState.active_battles (Combat._award_war_score a b n w)
  = GameState.active_battles w.
Proof.
  unfold Combat._award_war_score.
  destruct (GameState.get_country a w); [|reflexivity].
  now destruct (Dict.get b _).
Qed.

(** An award raises the winner's score against the loser by the points and
    caps it at 100; the winner's other scores and its war list stay. *)
Lemma award_war_score_capped (winner loser : string) (points s : Z)
  (c : Country.t) (w : GameState.t) :
  GameState.get_country winner w = Some c ->
  Dict.get loser (Country.war_scores c) = Some s ->
  exists c',
    GameState.get_country winner (Combat._award_war_score winner loser points w)
    = Some c'
    /\ Dict.get loser (Country.war_scores c') = Some (Z.min 100 (s + points))
    /\ (forall k, k <> loser ->
          Dict.get k (Country.war_scores c') = Dict.get k (Country.war_scores c))
    /\ Country.at_war_with c' = Country.at_war_with c
    /\ Country.money c' = Country.money c
    /\ Country.manpower c' = Country.manpower c.
Proof.
  intros Hc Hs. unfold Combat._award_war_score. rewrite Hc, Hs.
  eexists. split; [apply (put_country_get winner c); [exact Hc|reflexivity]|].
  simpl. split; [apply dict_get_set_same|]. split; [|repeat split].
  intros k Hk. rewrite !dict_get_set_other by congruence. reflexivity.
Qed.

(** Without a score to raise, an award changes nothing. *)
Lemma award_war_score_idle (winner loser : string) (points : Z)
  (w : GameState.t) :
  (forall c, GameState.get_country winner w = Some c ->
             Dict.get loser (Country.war_scores c) = None) ->
  Combat._award_war_score winner loser points w = w.
Proof.
  intros H. unfold Combat._award_war_score.
  destruct (GameState.get_country winner w) as [c|]; [|reflexivity].
  now rewrite (H c eq_refl).
Qed.

(** The defenders-won branch as shipped does not parse (line 211), and no
    battle is ever ended by the module as it stands: the award of 2 points
    to a defender is never made. What follows is the branch with that line
    repaired ([defenders_won]). A battle of a registered province ends with
    no attacker present and at least one defender present; its first
    listed defender [d] and first listed attacker [a] carry country codes.
    Then [end_battle] returns, no province changes (the owner of the
    battle's province included) and the battle leaves its place in the
    active list. When [d] is a registered country that keeps a war score
    [s] against [a], that score becomes [min 100 (s + 2)], that is [s + 2]
    capped at 100. When [d] keeps no score against [a] (peace was made
    while the battle went on) or is not registered, no score is awarded or
    created: the countries are as they were. *)
Lemma defended_battle_awards_two (i : nat) (battle : Battle.t)
  (province : Province.t) (present_defenders : list nat) (d a : string)
  (more_d more_a : list string) (w : GameState.t) :
  nth_error (GameState.active_battles w) i = Some battle ->
  GameState.get_province (Battle.province_id battle) w = Some province ->
  present_defenders <> [] ->
  Battle.defenders battle = d :: more_d ->
  Battle.attackers battle = a :: more_a ->
  d <> EmptyString ->
  a <> EmptyString ->
  exists w',
    Combat.end_battle i [] present_defenders w = Some w'
    /\ GameState.provinces w' = GameState.provinces w
    /\ GameState.get_province (Battle.province_id battle) w' = Some province
    /\ GameState.active_battles w' = remove_at i (GameState.active_battles w)
    /\ (forall cd s,
          GameState.get_country d w = Some cd ->
          Dict.get a (Country.war_scores cd) = Some s ->
          exists cd',
            GameState.get_country d w' = Some cd'
            /\ Dict.get a (Country.war_scores cd') = Some (Z.min 100 (s + 2)))
    /\ ((forall cd, GameState.get_country d w = Some cd ->
                    Dict.get a (Country.war_scores cd) = None) ->
        GameState.countries w' = GameState.countries w).
Proof.
  intros Hb Hp Hdef Hds Has Hd Ha.
  exists (Combat.remove_battle i (Combat._award_war_score d a 2 w)).
  assert (Hrun : Combat.end_battle i [] present_defenders w
                 = Some (Combat.remove_battle i
                           (Combat._award_war_score d a 2 w))).
  { unfold Combat.end_battle. rewrite Hb, Hp.
    destruct present_defenders as [|r rs]; [contradiction|]. simpl.
    unfold Combat.defenders_won. rewrite Hds, Has. simpl.
    destruct d; [contradiction|]. destruct a; [contradiction|]. reflexivity. }
  split; [exact Hrun|].
  assert (Hprov : GameState.provinces
                    (Combat.remove_battle i (Combat._award_war_score d a 2 w))
                  = GameState.provinces w).
  { simpl. apply award_war_score_provinces. }
  split; [exact Hprov|]. split.
  { unfold GameState.get_province in *. now rewrite Hprov. }
  split; [simpl; now rewrite award_war_score_battles|]. split.
  - intros cd s Hcd Hs.
    destruct (award_war_score_capped d a 2 s cd w Hcd Hs) as [cd' [Hg [Hsc _]]].
    exists cd'. now split.
  - intros Hnone. simpl. now rewrite award_war_score_idle.
Qed.

(** France attacks Berlin and Germany defends: the battle as detection
    leaves it, with the attacking unit gone and the war score of Germany
    against France at [s]. *)
Definition berlin_defended (s : Z) : GameState.t :=
  Sample.with_state
    [ Sample.country "GER" 1 2000%float 20000 ["FRA"] [("FRA", s)];
      Sample.country "FRA" 4 1800%float 18000 ["GER"] [("GER", 0)];
      Sample.country "GBR" 7 2500%float 15000 [] [] ]
    [ Sample.unit 1 "GER" 1 100 false None ]
    [ Battle.mk 1 ["FRA"] ["GER"] 3%float ].

(** The same battle after Germany and France have made peace. *)
Definition berlin_after_peace : GameState.t :=
  Sample.with_state Sample.countries
    [ Sample.unit 1 "GER" 1 100 false None ]
    [ Battle.mk 1 ["FRA"] ["GER"] 3%float ].

Lemma defended_battle_awards_two_witness :
  exists w',
    Combat.end_battle 0 [] [0%nat] (berlin_defended 99) = Some w'
    /\ GameState.provinces w' = GameState.provinces (berlin_defended 99)
    /\ GameState.get_province 1 w'
       = Some (Sample.province 1 "plains" 5 5000 "GER" true)
    /\ GameState.active_battles w'
       = remove_at 0 (GameState.active_battles (berlin_defended 99))
    /\ (forall cd s,
          GameState.get_country "GER" (berlin_defended 99) = Some cd ->
          Dict.get "FRA" (Country.war_scores cd) = Some s ->
          exists cd',
            GameState.get_country "GER" w' = Some cd'
            /\ Dict.get "FRA" (Country.war_scores cd')
               = Some (Z.min 100 (s + 2)))
    /\ ((forall cd, GameState.get_country "GER" (berlin_defended 99) = Some cd ->
                    Dict.get "FRA" (Country.war_scores cd) = None) ->
        GameState.countries w' = GameState.countries (berlin_defended 99)).
Proof.
  apply (defended_battle_awards_two 0 (Battle.mk 1 ["FRA"] ["GER"] 3%float)
           (Sample.province 1 "plains" 5 5000 "GER" true) [0%nat]
           "GER" "FRA" [] [] (berlin_defended 99));
    try reflexivity; discriminate.
Defined.

(** With the line repaired, the battle of Berlin is still active when
    Germany and France are at peace again and keep no score against each
    other. It ends with no French unit and one German unit present:
    Germany keeps Berlin, and gains nothing; no war score of Germany
    against France exists afterwards. *)
Lemma defended_battle_after_peace_awards_nothing :
  let r := Combat.end_battle 0 [] [0%nat] berlin_after_peace in
  option_map (fun w' => GameState.get_province 1 w') r
  = Some (Some (Sample.province 1 "plains" 5 5000 "GER" true))
  /\ option_map GameState.countries r = Some Sample.countries
  /\ option_map
       (fun w' => option_map (fun c => Dict.get "FRA" (Country.war_scores c))
                    (GameState.get_country "GER" w')) r
     = Some (Some None)
  /\ option_map GameState.active_battles r = Some [].
Proof. vm_compute. repeat split. Qed.

(** The same end reached from [resolve_battle_tick], which gathers the
    units present itself: with no attacker and one defender in Berlin the
    tick ends the battle, Germany keeps Berlin and goes from 40 to 42. *)
Lemma defended_battle_tick :
  let r := Combat.resolve_battle_tick 0 (1%float, 1%float) (berlin_defended 40) in
  option_map snd r = Some true
  /\ option_map (fun x => GameState.get_province 1 (fst x)) r
     = Some (Some (Sample.province 1 "plains" 5 5000 "GER" true))
  /\ option_map
       (fun x => option_map (fun c => Dict.get "FRA" (Country.war_scores c))
                   (GameState.get_country "GER" (fst x))) r
     = Some (Some (Some 42))
  /\ option_map (fun x => GameState.active_battles (fst x)) r = Some [].
Proof. vm_compute. repeat split. Qed.

(** ** Combat: one battle per province *)

Definition one_battle_per_province (w : GameState.t) : Prop :=
  NoDup (map Battle.province_id (GameState.active_battles w)).

(** The battles of the active list that are fought in province [pid]. *)
Definition battles_in (pid : Z) (w : GameState.t) : list Battle.t :=
  filter (fun b => Battle.province_id b =? pid) (GameState.active_battles w).

Section Loops.
Context {A S : Type}.

Lemma fold_left_invariant (P : S -> Prop) (f : S -> A -> S) (xs : list A) :
  (forall s x, P s -> P (f s x)) -> forall s, P s -> P (fold_left f xs s).
Proof.
  intros Hstep. induction xs as [|x r IH]; intros s Hs; simpl; [exact Hs|].
  apply IH, Hstep, Hs.
Qed.

Lemma foldM_invariant (P : S -> Prop) (body : S -> A -> option S)
  (xs : list A) :
  (forall s x s', P s -> body s x = Some s' -> P s') ->
  forall s s', P s -> foldM body xs s = Some s' -> P s'.
Proof.
  intros Hstep. induction xs as [|x r IH]; intros s s' Hs; simpl.
  - intros E. injection E as <-. exact Hs.
  - destruct (body s x) as [s1|] eqn:E; [|discriminate].
    apply IH. apply (Hstep s x s1 Hs E).
Qed.
End Loops.

Lemma has_battle_false (pid : Z) (w : GameState.t) :
  Combat._has_battle_in_province pid w = false ->
  ~ In pid (map Battle.province_id (GameState.active_battles w)).
Proof.
  unfold Combat._has_battle_in_province. intros H Hin.
  apply in_map_iff in Hin. destruct Hin as [b [E Hb]].
  assert (T : existsb (fun b => Battle.province_id b =? pid)
                (GameState.active_battles w) = true).
  { apply existsb_exists. exists b. split; [exact Hb|]. now apply Z.eqb_eq. }
  congruence.
Qed.

Lemma check_pair_keeps (pid : Z) (o1 o2 : string) (w : GameState.t) :
  one_battle_per_province w ->
  one_battle_per_province (Combat.check_pair pid o1 o2 w).
Proof.
  intros H. unfold Combat.check_pair.
  destruct (GameState.get_country o1 w); [|exact H].
  destruct (GameState.get_country o2 w); [|exact H].
  destruct (Country.is_at_war_with o2 _); [|exact H].
  destruct (Combat._has_battle_in_province pid w) eqn:E; simpl; [exact H|].
  unfold one_battle_per_province, Combat.start_battle. simpl.
  rewrite map_app. simpl. apply NoDup_app.
  - exact H.
  - constructor; [intros []|constructor].
  - intros x Hx [<-|[]]. now apply (has_battle_false pid w E).
Qed.

Lemma detect_pairs_keeps (pid : Z) (owners : list string) (w : GameState.t) :
  one_battle_per_province w ->
  one_battle_per_province (Combat.detect_pairs pid owners w).
Proof.
  revert w. induction owners as [|o r IH]; intros w H; simpl; [exact H|].
  apply IH.
  apply (fold_left_invariant one_battle_per_province); [|exact H].
  intros s x Hs. now apply check_pair_keeps.
Qed.

Lemma detect_battles_keeps (w : GameState.t) :
  one_battle_per_province w -> one_battle_per_province (Combat.detect_battles w).
Proof.
  intros H. unfold Combat.detect_battles.
  apply (fold_left_invariant one_battle_per_province); [|exact H].
  intros s p Hs. unfold Combat.detect_in_province.
  destruct (_ <? _)%nat; [exact Hs|]. now apply detect_pairs_keeps.
Qed.

Lemma remove_at_nil {A : Type} (i : nat) : remove_at i (@nil A) = [].
Proof. unfold remove_at. now rewrite firstn_nil, skipn_nil. Qed.

Lemma remove_at_cons {A : Type} (i : nat) (x : A) (xs : list A) :
  remove_at (S i) (x :: xs) = x :: remove_at i xs.
Proof. reflexivity. Qed.

Lemma remove_at_incl {A : Type} (i : nat) (xs : list A) (y : A) :
  In y (remove_at i xs) -> In y xs.
Proof.
  revert i. induction xs as [|x r IH]; intros i.
  - now rewrite remove_at_nil.
  - destruct i as [|i]; [now right|].
    rewrite remove_at_cons. intros [E|H]; [now left|right; eauto].
Qed.

Lemma NoDup_remove_at {A : Type} (i : nat) (xs : list A) :
  NoDup xs -> NoDup (remove_at i xs).
Proof.
  intros H. revert i. induction H as [|x r Hx Hr IH]; intros i.
  - rewrite remove_at_nil. constructor.
  - destruct i as [|i]; [exact Hr|].
    rewrite remove_at_cons. constructor; [|apply IH].
    intros Hin. apply Hx. now apply remove_at_incl in Hin.
Qed.

(** The active list is changed by position: a battle object is removed
    from the place it has. [list.remove] compares by [==] and would take an
    earlier battle equal to it; with one battle per province there is
    none. *)
Lemma remove_at_is_list_remove (i : nat) (b : Battle.t) (bs : list Battle.t) :
  NoDup (map Battle.province_id bs) ->
  nth_error bs i = Some b ->
  remove_object Battle.eqb b i bs = remove_at i bs.
Proof.
  revert i. induction bs as [|y r IH]; intros i Hn Hb.
  - rewrite remove_at_nil. now destruct i.
  - destruct i as [|j]; [reflexivity|]. simpl in Hb.
    rewrite remove_at_cons. simpl. inversion Hn as [|? ? Hy Hr]. subst.
    assert (E : Battle.eqb y b = false).
    { unfold Battle.eqb.
      destruct (Z.eqb_spec (Battle.province_id y) (Battle.province_id b))
        as [Ep|Ep]; [|reflexivity].
      exfalso. apply Hy. rewrite Ep. apply in_map.
      now apply nth_error_In in Hb. }
    rewrite E. f_equal. now apply IH.
Qed.

Lemma map_remove_at {A B : Type} (f : A -> B) (i : nat) (xs : list A) :
  map f (remove_at i xs) = remove_at i (map f xs).
Proof.
  unfold remove_at. now rewrite map_app, firstn_map, skipn_map.
Qed.

Lemma map_update_nth {A B : Type} (f : A -> B) (g : A -> A) (i : nat)
  (xs : list A) :
  (forall x, f (g x) = f x) -> map f (update_nth i g xs) = map f xs.
Proof.
  intros Hg. revert i. induction xs as [|x r IH]; intros i.
  - now destruct i.
  - destruct i; simpl; [now rewrite Hg|now rewrite IH].
Qed.

Lemma apply_damage_battles (refs : list nat) (total : float)
  (w w' : GameState.t) :
  Combat._apply_damage_to_units refs total w = Some w' ->
  GameState.active_battles w' = GameState.active_battles w.
Proof.
  unfold Combat._apply_damage_to_units.
  destruct (is_empty refs); [intros E; now injection E as <-|].
  apply (foldM_invariant
           (fun s => GameState.active_battles s = GameState.active_battles w));
    [|reflexivity].
  intros s r s' Hs. unfold Combat.damage_unit.
  destruct (nth_error _ r); [|intros E; now injection E as <-].
  destruct (GameState.get_template _ s); [|intros E; now injection E as <-].
  destruct (Unit.take_damage _ _ _); [|discriminate].
  intros E. injection E as <-. exact Hs.
Qed.

Lemma end_battle_battles (i : nat) (ra rd : list nat) (w w' : GameState.t) :
  Combat.end_battle i ra rd w = Some w' ->
  GameState.active_battles w' = remove_at i (GameState.active_battles w).
Proof.
  unfold Combat.end_battle.
  destruct (nth_error _ i) as [battle|]; [|discriminate].
  destruct (GameState.get_province _ w) as [province|];
    [|intros E; now injection E as <-].
  destruct (negb (is_empty ra) && is_empty rd).
  - intros E. injection E as <-. simpl. f_equal.
    unfold Combat.attackers_won.
    destruct (hd_error _); [|reflexivity].
    destruct (truthy_str _ && _); [|reflexivity].
    destruct (Province.owner province) as [o|]; [|reflexivity].
    destruct (truthy_str o); [|reflexivity].
    now rewrite award_war_score_battles.
  - destruct (negb (is_empty rd) && is_empty ra).
    + unfold Combat.defenders_won.
      destruct (hd_error (Battle.defenders battle)) as [d|];
        [|intros E; now injection E as <-].
      destruct (truthy_str d); [|intros E; now injection E as <-].
      destruct (hd_error (Battle.attackers battle)) as [a|]; [|discriminate].
      destruct (truthy_str a); intros E; injection E as <-; simpl;
        [now rewrite award_war_score_battles|reflexivity].
    + intros E. now injection E as <-.
Qed.

(** A tick either takes its battle off the active list or leaves the list
    as it is. *)
Lemma resolve_battle_tick_battles (i : nat) (rolls : float * float)
  (w w' : GameState.t) (removed : bool) :
  Combat.resolve_battle_tick i rolls w = Some (w', removed) ->
  GameState.active_battles w'
  = if removed then remove_at i (GameState.active_battles w)
    else GameState.active_battles w.
Proof.
  unfold Combat.resolve_battle_tick.
  destruct (nth_error _ i) as [battle|]; [|discriminate].
  destruct (GameState.get_province _ w) as [province|];
    [|intros E; now injection E as <- <-].
  destruct (is_empty _ || is_empty _).
  - destruct (Combat.end_battle _ _ _ _) as [w1|] eqn:E1; [|discriminate].
    intros E. injection E as <- <-. now apply end_battle_battles in E1.
  - destruct (PrimFloat.ltb _ _).
    + destruct (Combat._apply_damage_to_units _ _ w) as [w1|] eqn:E1;
        [|discriminate].
      destruct (Combat._apply_damage_to_units _ _ w1) as [w2|] eqn:E2;
        [|discriminate].
      intros E. injection E as <- <-. unfold Combat._check_retreats.
      apply apply_damage_battles in E1, E2. congruence.
    + destruct (Combat._apply_damage_to_units _ _ w) as [w1|] eqn:E1;
        [|discriminate].
      destruct (Combat._apply_damage_to_units _ _ w1) as [w2|] eqn:E2;
        [|discriminate].
      intros E. injection E as <- <-. unfold Combat._check_retreats.
      apply apply_damage_battles in E1, E2. congruence.
Qed.

Lemma resolve_battle_tick_keeps (i : nat) (rolls : float * float)
  (w w' : GameState.t) (removed : bool) :
  Combat.resolve_battle_tick i rolls w = Some (w', removed) ->
  one_battle_per_province w -> one_battle_per_province w'.
Proof.
  intros E H. apply resolve_battle_tick_battles in E.
  unfold one_battle_per_province in *. rewrite E.
  destruct removed; [|exact H].
  rewrite map_remove_at. now apply NoDup_remove_at.
Qed.

Lemma resolve_all_keeps (n i k : nat) (rolls : nat -> float * float)
  (w w' : GameState.t) :
  Combat.resolve_all n i k rolls w = Some w' ->
  one_battle_per_province w -> one_battle_per_province w'.
Proof.
  revert i k w. induction n as [|n IH]; intros i k w; simpl.
  - intros E. now injection E as <-.
  - destruct (Combat.resolve_battle_tick i (rolls k) w) as [[w1 removed]|] eqn:E;
      [|discriminate].
    simpl. intros Hrun H.
    pose proof (resolve_battle_tick_keeps i (rolls k) w w1 removed E H) as H1.
    destruct removed.
    + apply (IH _ _ _ Hrun H1).
    + apply (IH _ _ _ Hrun).
      unfold one_battle_per_province, Combat.bump_duration in *. simpl.
      rewrite map_update_nth; [exact H1|reflexivity].
Qed.

Lemma combat_update_keeps (dt : float) (rolls : nat -> float * float)
  (w w' : GameState.t) :
  Combat.update dt rolls w = Some w' ->
  one_battle_per_province w -> one_battle_per_province w'.
Proof.
  unfold Combat.update. destruct (PrimFloat.leb _ _).
  - intros E H. apply (resolve_all_keeps _ _ _ _ _ _ E).
    apply detect_battles_keeps. exact H.
  - intros E H. injection E as <-. exact H.
Qed.

(** The states the combat engine goes through: no battle at first; then
    its [update], or the steps [update] is made of, and between them the
    other engines, which never touch the active list. *)
Inductive combat_history : GameState.t -> Prop :=
| combat_start w :
    GameState.active_battles w = [] -> combat_history w
| combat_update dt rolls w w' :
    combat_history w -> Combat.update dt rolls w = Some w' ->
    combat_history w'
| combat_detect w :
    combat_history w -> combat_history (Combat.detect_battles w)
| combat_tick i rolls w w' removed :
    combat_history w ->
    Combat.resolve_battle_tick i rolls w = Some (w', removed) ->
    combat_history w'
| combat_other w w' :
    combat_history w ->
    GameState.active_battles w' = GameState.active_battles w ->
    combat_history w'.

Lemma battles_in_at_most_one (pid : Z) (w : GameState.t) :
  one_battle_per_province w -> (List.length (battles_in pid w) <= 1)%nat.
Proof.
  unfold one_battle_per_province, battles_in.
  induction (GameState.active_battles w) as [|b r IH]; simpl; [lia|].
  intros H. inversion H as [|x l Hx Hr]; subst.
  destruct (Z.eqb_spec (Battle.province_id b) pid) as [E|E]; [|now apply IH].
  simpl. replace (filter _ r) with (@nil Battle.t); [simpl; lia|].
  symmetry. clear IH H Hr. induction r as [|c r IH]; simpl; [reflexivity|].
  destruct (Z.eqb_spec (Battle.province_id c) pid) as [E'|E'].
  - exfalso. apply Hx. left. congruence.
  - apply IH. intros Hin. apply Hx. now right.
Qed.

(** Detection opens no battle in a province that has one. *)
Lemma check_pair_respects (pid q : Z) (o1 o2 : string) (w0 w : GameState.t) :
  battles_in pid w = battles_in pid w0
  /\ Combat._has_battle_in_province pid w = true ->
  battles_in pid (Combat.check_pair q o1 o2 w) = battles_in pid w0
  /\ Combat._has_battle_in_province pid (Combat.check_pair q o1 o2 w) = true.
Proof.
  intros [Hsame Hhas]. unfold Combat.check_pair.
  destruct (GameState.get_country o1 w); [|now split].
  destruct (GameState.get_country o2 w); [|now split].
  destruct (Country.is_at_war_with o2 _); [|now split].
  destruct (Combat._has_battle_in_province q w) eqn:E; simpl; [now split|].
  assert (Hq : (q =? pid) = false).
  { destruct (Z.eqb_spec q pid) as [->|]; [congruence|reflexivity]. }
  unfold battles_in, Combat._has_battle_in_province, Combat.start_battle
    in *. simpl. rewrite filter_app, existsb_app. simpl.
  rewrite Hq, app_nil_r, Hhas. now split.
Qed.

Lemma detect_battles_respects (pid : Z) (w : GameState.t) :
  Combat._has_battle_in_province pid w = true ->
  battles_in pid (Combat.detect_battles w) = battles_in pid w.
Proof.
  intros Hhas. unfold Combat.detect_battles.
  apply (fold_left_invariant
           (fun w' => battles_in pid w' = battles_in pid w
                      /\ Combat._has_battle_in_province pid w' = true));
    [|now split].
  intros w1 p H1. unfold Combat.detect_in_province.
  destruct (_ <? _)%nat; [exact H1|].
  generalize (Combat.owners_present
                (Military.get_units_in_province (Province.province_id p) w1)).
  intros owners. revert w1 H1.
  induction owners as [|o r IH]; intros w1 H1; simpl; [exact H1|].
  apply IH.
  apply (fold_left_invariant
           (fun w' => battles_in pid w' = battles_in pid w
                      /\ Combat._has_battle_in_province pid w' = true));
    [|exact H1].
  intros w2 o2 H2. now apply check_pair_respects.
Qed.

(** C10: in every state the combat engine goes through, no two battles of
    the active list are in the same province: for every province id the
    active list holds at most one battle there, and detection leaves the
    battles of a province that has one as they are. *)
Theorem one_battle_per_province_always (w : GameState.t) :
  combat_history w ->
  one_battle_per_province w
  /\ (forall pid, (List.length (battles_in pid w) <= 1)%nat)
  /\ (forall pid,
        Combat._has_battle_in_province pid w = true ->
        battles_in pid (Combat.detect_battles w) = battles_in pid w).
Proof.
  intros H.
  assert (Hone : one_battle_per_province w).
  { induction H as [w E | dt rolls w w' _ IH E | w _ IH
                   | i rolls w w' removed _ IH E | w w' _ IH E].
    - unfold one_battle_per_province. rewrite E. constructor.
    - apply (combat_update_keeps dt rolls w w' E IH).
    - now apply detect_battles_keeps.
    - apply (resolve_battle_tick_keeps i rolls w w' removed E IH).
    - unfold one_battle_per_province in *. now rewrite E. }
  split; [exact Hone|]. split.
  - intros pid. now apply battles_in_at_most_one.
  - intros pid. apply detect_battles_respects.
Qed.

(** Germany is at war with France; a German and a French unit stand in
    Paris and no battle is recorded yet. *)
Definition paris_contested : GameState.t :=
  GameState.with_units
    [ Sample.unit 1 "GER" 4 100 false None;
      Sample.unit 2 "FRA" 4 100 false None ]
    war_started.

Definition even_rolls : nat -> float * float := fun _ => (1%float, 1%float).

(** One hour, then another, of the combat engine over Paris. *)
Definition paris_after (hours : nat) : GameState.t :=
  Nat.iter hours
    (fun w => match Combat.update 1%float even_rolls w with
              | Some w' => w'
              | None => w
              end)
    paris_contested.

Lemma paris_history : combat_history (paris_after 2).
Proof.
  apply (combat_update 1%float even_rolls (paris_after 1)).
  - apply (combat_update 1%float even_rolls paris_contested).
    + apply combat_start. reflexivity.
    + vm_compute. reflexivity.
  - vm_compute. reflexivity.
Qed.

Lemma one_battle_per_province_always_witness :
  combat_history (paris_after 2)
  /\ one_battle_per_province (paris_after 2)
  /\ (forall pid, (List.length (battles_in pid (paris_after 2)) <= 1)%nat)
  /\ (forall pid,
        Combat._has_battle_in_province pid (paris_after 2) = true ->
        battles_in pid (Combat.detect_battles (paris_after 2))
        = battles_in pid (paris_after 2)).
Proof.
  split; [exact paris_history|].
  apply (one_battle_per_province_always (paris_after 2) paris_history).
Defined.

(** Detection found the battle of Paris in the first hour and did not open
    a second one in the next. *)
Lemma paris_one_battle :
  map Battle.province_id (GameState.active_battles (paris_after 1)) = [4]
  /\ map Battle.province_id (GameState.active_battles (paris_after 2)) = [4]
  /\ map Battle.attackers (GameState.active_battles (paris_after 2))
     = [["GER"]].
Proof. vm_compute. repeat split. Qed.

(** ** Forced peace: one pair *)

Lemma get_province_update_same (pid : Z) (f : Province.t -> Province.t)
  (w : GameState.t) :
  (forall p, Province.province_id (f p) = Province.province_id p) ->
  GameState.get_province pid (GameState.update_province pid f w)
  = option_map f (GameState.get_province pid w).
Proof.
  intros Hf. unfold GameState.get_province, GameState.update_province. simpl.
  apply find_update_first_same. intros p Hp. now rewrite Hf.
Qed.

Lemma get_province_update_other (pid q : Z) (f : Province.t -> Province.t)
  (w : GameState.t) :
  pid <> q ->
  (forall p, Province.province_id (f p) = Province.province_id p) ->
  GameState.get_province q (GameState.update_province pid f w)
  = GameState.get_province q w.
Proof.
  intros Hq Hf. unfold GameState.get_province, GameState.update_province.
  simpl. apply find_update_first_other.
  - intros p. now rewrite Hf.
  - intros p Hp. apply Z.eqb_eq in Hp. apply Z.eqb_neq. congruence.
Qed.

(** The demand that [create_peace_demand] builds for the annexation of
    province [pid]. *)
Definition annex_demand (pid : Z) (w : GameState.t) : PeaceDemand.t :=
  PeaceDemand.mk "annex_province" (IntData pid)
    match GameState.get_province pid w with
    | Some province => 5 + Province.development province * 2
    | None => 10
    end.

Lemma create_annex_demand (pid : Z) (w : GameState.t) :
  Diplomacy.create_peace_demand "annex_province" (IntData pid) w
  = Some (annex_demand pid w).
Proof.
  unfold Diplomacy.create_peace_demand, Diplomacy._calculate_demand_cost,
    annex_demand. simpl.
  now destruct (GameState.get_province pid w).
Qed.

Lemma build_annex_demands (ps : list Province.t) (w : GameState.t)
  (acc : list PeaceDemand.t) :
  foldM (fun acc province =>
           demand <- Diplomacy.create_peace_demand "annex_province"
                       (IntData (Province.province_id province)) w ;;
           Some (acc ++ [demand]))
        ps acc
  = Some (acc ++ map (fun p => annex_demand (Province.province_id p) w) ps).
Proof.
  revert acc. induction ps as [|p r IH]; intros acc; simpl.
  - now rewrite app_nil_r.
  - rewrite create_annex_demand, IH, <- app_assoc. reflexivity.
Qed.

(** The state after the annexation of every province of [loser]. *)
Definition annexed (winner loser : string) (w : GameState.t) : GameState.t :=
  Diplomacy._execute_demands_list winner loser
    (map (fun p => annex_demand (Province.province_id p) w)
         (GameState.get_provinces_by_owner loser w))
    w.

Definition known (c : string) (w : GameState.t) : bool :=
  match GameState.get_country c w with Some _ => true | None => false end.

(** One pass of the inner loop of [auto_peace_at_100] never raises: it is
    either idle or the annexation of all provinces of the enemy followed by
    peace. *)
Lemma force_peace_run (code enemy : string) (score : Z) (w : GameState.t) :
  Diplomacy.force_peace code w (enemy, score)
  = Some (if (100 <=? score) && known enemy w
          then Diplomacy.make_peace code enemy (annexed code enemy w)
          else w).
Proof.
  unfold Diplomacy.force_peace, known, annexed.
  destruct (100 <=? score); [|reflexivity].
  destruct (GameState.get_country enemy w); [|reflexivity].
  rewrite build_annex_demands. reflexivity.
Qed.

Definition annex_one (winner loser : string) (q : Z) (hit : bool)
  (p : Province.t) : Province.t :=
  if hit && Province.owned_by loser p
  then Province.with_owner (Some winner) p else p.

Lemma execute_annex_lookup (winner loser : string) (pid q : Z)
  (d : PeaceDemand.t) (w : GameState.t) :
  PeaceDemand.demand_type d = "annex_province" ->
  PeaceDemand.target_data d = IntData pid ->
  GameState.get_province q (Diplomacy._execute_demand winner loser d w)
  = option_map (annex_one winner loser q (q =? pid))
      (GameState.get_province q w).
Proof.
  intros Ht Hd. unfold Diplomacy._execute_demand. rewrite Ht, Hd. simpl.
  unfold annex_one.
  destruct (Z.eqb_spec q pid) as [->|Hne]; simpl.
  - destruct (GameState.get_province pid w) as [p|] eqn:E; simpl.
    + destruct (Province.owned_by loser p).
      * rewrite get_province_update_same by reflexivity. now rewrite E.
      * now rewrite E.
    + now rewrite E.
  - assert (Hid : option_map (fun p : Province.t => p)
                    (GameState.get_province q w)
                  = GameState.get_province q w)
      by now destruct (GameState.get_province q w).
    rewrite Hid.
    destruct (GameState.get_province pid w) as [p|]; [|reflexivity].
    destruct (Province.owned_by loser p); [|reflexivity].
    apply get_province_update_other; [congruence|reflexivity].
Qed.

Lemma execute_annex_list_lookup (winner loser : string) (q : Z)
  (ds : list PeaceDemand.t) (ids : list Z) (w : GameState.t) :
  Forall2 (fun d pid => PeaceDemand.demand_type d = "annex_province"
                        /\ PeaceDemand.target_data d = IntData pid) ds ids ->
  GameState.get_province q (Diplomacy._execute_demands_list winner loser ds w)
  = option_map (annex_one winner loser q (existsb (Z.eqb q) ids))
      (GameState.get_province q w).
Proof.
  unfold Diplomacy._execute_demands_list. intros H. revert w.
  induction H as [|d pid ds ids [Ht Hd] _ IH]; intros w; simpl.
  - unfold annex_one. simpl. now destruct (GameState.get_province q w).
  - rewrite IH, (execute_annex_lookup winner loser pid q d w Ht Hd).
    destruct (GameState.get_province q w) as [p|]; [|reflexivity].
    simpl. f_equal. unfold annex_one.
    destruct (q =? pid), (existsb (Z.eqb q) ids), (Province.owned_by loser p)
      eqn:Eo; cbn [andb orb]; rewrite ?Eo; try reflexivity;
      destruct (Province.owned_by loser
                  (Province.with_owner (Some winner) p)); reflexivity.
Qed.


Lemma execute_demand_annex_countries (winner loser : string)
  (d : PeaceDemand.t) (w : GameState.t) :
  PeaceDemand.demand_type d = "annex_province" ->
  GameState.countries (Diplomacy._execute_demand winner loser d w)
  = GameState.countries w.
Proof.
  intros Ht. unfold Diplomacy._execute_demand. rewrite Ht. simpl.
  destruct (payload_key _); [|reflexivity].
  destruct (GameState.get_province _ _); [|reflexivity].
  now destruct (Province.owned_by _ _).
Qed.

Lemma execute_annex_list_countries (winner loser : string)
  (ds : list PeaceDemand.t) (w : GameState.t) :
  Forall (fun d => PeaceDemand.demand_type d = "annex_province") ds ->
  GameState.countries (Diplomacy._execute_demands_list winner loser ds w)
  = GameState.countries w.
Proof.
  unfold Diplomacy._execute_demands_list. intros H. revert w.
  induction H as [|d r Hd _ IH]; intros w; simpl; [reflexivity|].
  rewrite IH. now apply execute_demand_annex_countries.
Qed.

Lemma annexed_countries (winner loser : string) (w : GameState.t) :
  GameState.countries (annexed winner loser w) = GameState.countries w.
Proof.
  unfold annexed. apply execute_annex_list_countries.
  apply Forall_map. apply Forall_forall. reflexivity.
Qed.


Lemma make_peace_provinces (a b : string) (w : GameState.t) :
  GameState.provinces (Diplomacy.make_peace a b w) = GameState.provinces w.
Proof.
  unfold Diplomacy.make_peace.
  destruct (GameState.get_country a w); [|reflexivity].
  now destruct (GameState.get_country b w).
Qed.

Lemma make_peace_countries_only (a b : string) (w w' : GameState.t) :
  GameState.countries w' = GameState.countries w ->
  GameState.countries (Diplomacy.make_peace a b w')
  = GameState.countries (Diplomacy.make_peace a b w).
Proof.
  intros E. unfold Diplomacy.make_peace, GameState.get_country,
    GameState.update_country. rewrite E.
  destruct (find _ (GameState.countries w)); [|exact E].
  destruct (find _ (GameState.countries w)); [|exact E].
  reflexivity.
Qed.

Lemma owned_by_owner (c : string) (p : Province.t) :
  Province.owned_by c p = true <-> Province.owner p = Some c.
Proof.
  unfold Province.owned_by. destruct (Province.owner p) as [o|].
  - rewrite String.eqb_eq. split; congruence.
  - split; discriminate.
Qed.

(** The country [z] after peace between [x] and [y]. *)
Definition peace_on (x y z : string) (c : Country.t) : Country.t :=
  (if String.eqb z y then Country.make_peace x else fun c' => c')
    ((if String.eqb z x then Country.make_peace y else fun c' => c') c).

(** The state after one effective pass of the inner loop. *)
Definition settled (x y : string) (w : GameState.t) : GameState.t :=
  Diplomacy.make_peace x y (annexed x y w).


Lemma settled_country (x y z : string) (cx cy : Country.t) (w : GameState.t) :
  GameState.get_country x w = Some cx ->
  GameState.get_country y w = Some cy ->
  GameState.get_country z (settled x y w)
  = option_map (peace_on x y z) (GameState.get_country z w).
Proof.
  intros Hx Hy. unfold settled, GameState.get_country.
  rewrite (make_peace_countries_only x y w (annexed x y w))
    by apply annexed_countries.
  apply (make_peace_lookup x y z cx cy w Hx Hy).
Qed.


Lemma make_peace_scores_incl (k : string) (c : Country.t) :
  incl (Country.war_scores (Country.make_peace k c)) (Country.war_scores c).
Proof.
  unfold Country.make_peace. destruct (mem k _); simpl.
  - unfold Dict.del. apply incl_filter.
  - apply incl_refl.
Qed.

Lemma peace_on_scores_incl (x y z : string) (c : Country.t) :
  incl (Country.war_scores (peace_on x y z c)) (Country.war_scores c).
Proof.
  unfold peace_on. destruct (String.eqb z y), (String.eqb z x);
    repeat (eapply incl_tran; [apply make_peace_scores_incl|]);
    apply incl_refl.
Qed.

Lemma dict_get_none_not_In (k : string) (v : Z) (d : Dict.t Z) :
  Dict.get k d = None -> ~ In (k, v) d.
Proof.
  induction d as [|[k0 v0] r IH]; simpl; [intros _ []|].
  destruct (String.eqb_spec k0 k) as [->|Hne]; [discriminate|].
  intros H [E|Hin]; [congruence|now apply IH].
Qed.

(** What an effective pass of the inner loop does to the countries. *)
Lemma settled_effect (x y : string) (cx cy : Country.t) (s : GameState.t) :
  wars_wf_all s ->
  GameState.get_country x s = Some cx ->
  GameState.get_country y s = Some cy ->
  wars_wf_all (settled x y s)
  /\ (forall z, known z (settled x y s) = known z s)
  /\ (forall z c', GameState.get_country z (settled x y s) = Some c' ->
        exists c, GameState.get_country z s = Some c
                  /\ incl (Country.war_scores c') (Country.war_scores c))
  /\ (forall c' v, GameState.get_country x (settled x y s) = Some c' ->
                   ~ In (y, v) (Country.war_scores c')).
Proof.
  intros Hwf Hx Hy.
  pose proof (fun z => settled_country x y z cx cy s Hx Hy) as L.
  split; [|split; [|split]].
  - intros z c' Hz. rewrite L in Hz.
    destruct (GameState.get_country z s) as [c|] eqn:Ez; [|discriminate].
    injection Hz as <-. unfold peace_on. apply peace_both_wf.
    now apply (Hwf z).
  - intros z. unfold known. rewrite L.
    now destruct (GameState.get_country z s).
  - intros z c' Hz. rewrite L in Hz.
    destruct (GameState.get_country z s) as [c|] eqn:Ez; [|discriminate].
    injection Hz as <-. exists c. split; [reflexivity|].
    apply peace_on_scores_incl.
  - intros c' v Hz. rewrite L, Hx in Hz. injection Hz as <-.
    unfold peace_on. rewrite String.eqb_refl.
    pose proof (make_peace_no_score y cx (Hwf x cx Hx)) as Hnone.
    destruct (String.eqb x y).
    + intros Hin. apply make_peace_scores_incl in Hin.
      revert Hin. now apply dict_get_none_not_In.
    + now apply dict_get_none_not_In.
Qed.




Lemma foldM_invariant_rest {A S : Type} (P : S -> list A -> Prop)
  (body : S -> A -> option S) :
  (forall s x r s', P s (x :: r) -> body s x = Some s' -> P s' r) ->
  forall xs s s', P s xs -> foldM body xs s = Some s' -> P s' [].
Proof.
  intros Hstep. induction xs as [|x r IH]; intros s s' Hs; simpl.
  - intros E. injection E as <-. exact Hs.
  - destruct (body s x) as [s1|] eqn:E; [|discriminate].
    apply IH. apply (Hstep s x r s1 Hs E).
Qed.



(** ** Peace treaties: acceptance *)

(** Whether a demand asks for the province with id [q]. *)
Definition demands_province (q : Z) (d : PeaceDemand.t) : bool :=
  String.eqb (PeaceDemand.demand_type d) "annex_province"
  && match payload_key (PeaceDemand.target_data d) with
     | Some pid => q =? pid
     | None => false
     end.

(** The amounts of a list of demands that are reparations, in order. *)
Definition amounts_demanded (ds : list PeaceDemand.t) : list float :=
  map (fun d => payload_float (PeaceDemand.target_data d))
      (filter (fun d => String.eqb (PeaceDemand.demand_type d)
                          "war_reparations") ds).

(** What reparations do to the purse of the loser and to the purse of the
    winner: [min(demanded, loser's money)] leaves the first, when the first
    covers it, and enters the second. *)
Definition pay (purses : float * float) (demanded : float) : float * float :=
  let amount :=
    if PrimFloat.ltb (fst purses) demanded then fst purses else demanded in
  (if PrimFloat.leb amount (fst purses)
   then (fst purses - amount)%float else fst purses,
   (snd purses + amount)%float).

(** The treaty is equal to itself: none of its payloads is a NaN. Python
    looks a treaty up by identity first and by [==] next; for such a treaty
    the pending entries that are the treaty or equal to it are the entries
    equal to it. *)
Definition self_equal (treaty : PeaceTreaty.t) : Prop :=
  Forall (fun d => payload_eqb (PeaceDemand.target_data d)
                               (PeaceDemand.target_data d) = true)
         (PeaceTreaty.demands treaty).

(** The amounts of the reparations are within the floats. *)
Definition amounts_in_range (ds : list PeaceDemand.t) : Prop :=
  Forall (fun d => PeaceDemand.demand_type d = "war_reparations" ->
                   payload_in_range (PeaceDemand.target_data d) = true) ds.

Lemma get_province_same (q : Z) (w w' : GameState.t) :
  GameState.provinces w' = GameState.provinces w ->
  GameState.get_province q w' = GameState.get_province q w.
Proof. unfold GameState.get_province. now intros ->. Qed.

Lemma execute_demand_lookup (winner loser : string) (q : Z)
  (d : PeaceDemand.t) (w : GameState.t) :
  GameState.get_province q (Diplomacy._execute_demand winner loser d w)
  = option_map (annex_one winner loser q (demands_province q d))
      (GameState.get_province q w).
Proof.
  assert (Hid : forall hit : bool,
            hit = false ->
            option_map (annex_one winner loser q hit)
              (GameState.get_province q w)
            = GameState.get_province q w).
  { intros hit ->. unfold annex_one. simpl.
    now destruct (GameState.get_province q w). }
  unfold demands_province.
  destruct (String.eqb (PeaceDemand.demand_type d) "annex_province") eqn:Et.
  - apply String.eqb_eq in Et.
    destruct (payload_key (PeaceDemand.target_data d)) as [pid|] eqn:Ek.
    + pose (d' := PeaceDemand.mk "annex_province" (IntData pid) 0).
      transitivity
        (GameState.get_province q
           (Diplomacy._execute_demand winner loser d' w)).
      * unfold Diplomacy._execute_demand. rewrite Et, Ek. reflexivity.
      * simpl. apply (execute_annex_lookup winner loser pid q d' w);
          reflexivity.
    + rewrite Hid by reflexivity.
      unfold Diplomacy._execute_demand. rewrite Et, Ek. reflexivity.
  - rewrite Hid by reflexivity. unfold Diplomacy._execute_demand. rewrite Et.
    apply get_province_same.
    destruct (String.eqb _ "war_reparations"); [|reflexivity].
    destruct (GameState.get_country loser w); [|reflexivity].
    now destruct (GameState.get_country winner w).
Qed.

Lemma execute_demands_lookup (winner loser : string) (q : Z)
  (ds : list PeaceDemand.t) (w : GameState.t) :
  GameState.get_province q (Diplomacy._execute_demands_list winner loser ds w)
  = option_map (annex_one winner loser q (existsb (demands_province q) ds))
      (GameState.get_province q w).
Proof.
  unfold Diplomacy._execute_demands_list. revert w.
  induction ds as [|d r IH]; intros w; simpl.
  - unfold annex_one. simpl. now destruct (GameState.get_province q w).
  - rewrite IH, execute_demand_lookup.
    destruct (GameState.get_province q w) as [p|]; [|reflexivity].
    simpl. f_equal. unfold annex_one.
    destruct (demands_province q d), (existsb (demands_province q) r),
      (Province.owned_by loser p) eqn:Eo; cbn [andb orb]; rewrite ?Eo;
      try reflexivity;
      destruct (Province.owned_by loser
                  (Province.with_owner (Some winner) p)); reflexivity.
Qed.

Lemma with_money_same (c : Country.t) : Country.with_money (Country.money c) c = c.
Proof. now destruct c. Qed.

(** One demand and the countries: reparations change the two purses, any
    other demand changes no country. *)
Lemma execute_demand_purses (winner loser : string) (d : PeaceDemand.t)
  (cl cw : Country.t) (w : GameState.t) :
  winner <> loser ->
  GameState.get_country loser w = Some cl ->
  GameState.get_country winner w = Some cw ->
  let purses :=
    fold_left pay (amounts_demanded [d]) (Country.money cl, Country.money cw) in
  let w' := Diplomacy._execute_demand winner loser d w in
  GameState.get_country loser w' = Some (Country.with_money (fst purses) cl)
  /\ GameState.get_country winner w'
     = Some (Country.with_money (snd purses) cw)
  /\ (forall x, x <> winner -> x <> loser ->
                GameState.get_country x w' = GameState.get_country x w).
Proof.
  intros Hne Hl Hw. cbv zeta. unfold amounts_demanded. cbn [filter].
  unfold Diplomacy._execute_demand.
  destruct (String.eqb (PeaceDemand.demand_type d) "annex_province") eqn:Et.
  - apply String.eqb_eq in Et. rewrite Et.
    replace (String.eqb "annex_province" "war_reparations") with false
      by reflexivity.
    simpl. rewrite !with_money_same.
    assert (E : GameState.countries
                  (match payload_key (PeaceDemand.target_data d) with
                   | Some pid =>
                       match GameState.get_province pid w with
                       | Some province =>
                           if Province.owned_by loser province
                           then GameState.update_province pid
                                  (Province.with_owner (Some winner)) w
                           else w
                       | None => w
                       end
                   | None => w
                   end) = GameState.countries w).
    { destruct (payload_key _); [|reflexivity].
      destruct (GameState.get_province _ _); [|reflexivity].
      now destruct (Province.owned_by _ _). }
    unfold GameState.get_country in *. rewrite E. auto.
  - destruct (String.eqb (PeaceDemand.demand_type d) "war_reparations");
      [|simpl; rewrite !with_money_same; auto].
    rewrite Hl, Hw. cbn [map fold_left]. unfold pay. cbn [fst snd].
    set (demanded := payload_float (PeaceDemand.target_data d)).
    set (amount := if PrimFloat.ltb (Country.money cl) demanded
                   then Country.money cl else demanded).
    assert (L : forall x,
              GameState.get_country x
                (GameState.update_country winner (Country.add_money amount)
                   (GameState.update_country loser
                      (fun c => fst (Country.spend_money amount c)) w))
              = option_map
                  (fun c => (if String.eqb x winner
                             then Country.add_money amount else fun y => y)
                              ((if String.eqb x loser
                                then fun c => fst (Country.spend_money amount c)
                                else fun y => y) c))
                  (GameState.get_country x w)).
    { intros x. apply get_country_update_twice.
      - intros c. unfold Country.spend_money.
        now destruct (PrimFloat.leb _ _).
      - reflexivity. }
    assert (Nwl : String.eqb winner loser = false) by now apply String.eqb_neq.
    assert (Nlw : String.eqb loser winner = false)
      by (rewrite String.eqb_sym; exact Nwl).
    split; [|split].
    + rewrite L, Hl. simpl. rewrite String.eqb_refl, Nlw.
      unfold Country.spend_money.
      destruct (PrimFloat.leb amount (Country.money cl)); simpl;
        [reflexivity|now rewrite with_money_same].
    + rewrite L, Hw. simpl. now rewrite String.eqb_refl, Nwl.
    + intros x Hxw Hxl. rewrite L.
      apply String.eqb_neq in Hxw, Hxl. rewrite Hxw, Hxl.
      now destruct (GameState.get_country x w).
Qed.

Lemma amounts_demanded_cons (d : PeaceDemand.t) (r : list PeaceDemand.t) :
  amounts_demanded (d :: r) = amounts_demanded [d] ++ amounts_demanded r.
Proof.
  unfold amounts_demanded. cbn [filter].
  destruct (String.eqb _ "war_reparations"); reflexivity.
Qed.

(** A list of demands and the countries: the purses of the loser and of
    the winner go through the reparations in their order. *)
Lemma execute_demands_purses (winner loser : string)
  (ds : list PeaceDemand.t) (cl cw : Country.t) (w : GameState.t) :
  winner <> loser ->
  GameState.get_country loser w = Some cl ->
  GameState.get_country winner w = Some cw ->
  let purses :=
    fold_left pay (amounts_demanded ds) (Country.money cl, Country.money cw) in
  let w' := Diplomacy._execute_demands_list winner loser ds w in
  GameState.get_country loser w' = Some (Country.with_money (fst purses) cl)
  /\ GameState.get_country winner w'
     = Some (Country.with_money (snd purses) cw)
  /\ (forall x, x <> winner -> x <> loser ->
                GameState.get_country x w' = GameState.get_country x w).
Proof.
  intros Hne. cbv zeta. unfold Diplomacy._execute_demands_list.
  revert cl cw w. induction ds as [|d r IH]; intros cl cw w Hl Hw.
  - simpl. rewrite !with_money_same. auto.
  - cbn [fold_left]. rewrite amounts_demanded_cons, fold_left_app.
    destruct (execute_demand_purses winner loser d cl cw w Hne Hl Hw)
      as [Hl1 [Hw1 Ho1]].
    set (p1 := fold_left pay (amounts_demanded [d])
                 (Country.money cl, Country.money cw)) in *.
    destruct (IH _ _ _ Hl1 Hw1) as [Hl2 [Hw2 Ho2]].
    cbn [Country.money Country.with_money] in Hl2, Hw2.
    replace (fst p1, snd p1) with p1 in Hl2, Hw2 by now destruct p1.
    split; [|split].
    + rewrite Hl2. now destruct cl.
    + rewrite Hw2. now destruct cw.
    + intros x Hxw Hxl. rewrite Ho2 by assumption. now apply Ho1.
Qed.

Lemma execute_demands_unregistered (winner loser : string)
  (ds : list PeaceDemand.t) (w : GameState.t) :
  GameState.get_country winner w = None
  \/ GameState.get_country loser w = None ->
  GameState.countries (Diplomacy._execute_demands_list winner loser ds w)
  = GameState.countries w.
Proof.
  unfold Diplomacy._execute_demands_list. revert w.
  induction ds as [|d r IH]; intros w H; simpl; [reflexivity|].
  assert (E : GameState.countries (Diplomacy._execute_demand winner loser d w)
              = GameState.countries w).
  { unfold Diplomacy._execute_demand.
    destruct (String.eqb _ "annex_province").
    - destruct (payload_key _); [|reflexivity].
      destruct (GameState.get_province _ _); [|reflexivity].
      now destruct (Province.owned_by _ _).
    - destruct (String.eqb _ "war_reparations"); [|reflexivity].
      destruct H as [H|H]; rewrite H; [|reflexivity].
      now destruct (GameState.get_country loser w). }
  rewrite IH; [exact E|].
  unfold GameState.get_country in *. now rewrite E.
Qed.

Lemma execute_demand_rest (winner loser : string) (d : PeaceDemand.t)
  (w : GameState.t) :
  GameState.units (Diplomacy._execute_demand winner loser d w)
  = GameState.units w
  /\ GameState.active_battles (Diplomacy._execute_demand winner loser d w)
     = GameState.active_battles w.
Proof.
  unfold Diplomacy._execute_demand.
  destruct (String.eqb _ "annex_province").
  - destruct (payload_key _); [|now split].
    destruct (GameState.get_province _ _); [|now split].
    now destruct (Province.owned_by _ _).
  - destruct (String.eqb _ "war_reparations"); [|now split].
    destruct (GameState.get_country loser w); [|now split].
    now destruct (GameState.get_country winner w).
Qed.

Lemma execute_demands_rest (winner loser : string)
  (ds : list PeaceDemand.t) (w : GameState.t) :
  GameState.units (Diplomacy._execute_demands_list winner loser ds w)
  = GameState.units w
  /\ GameState.active_battles
       (Diplomacy._execute_demands_list winner loser ds w)
     = GameState.active_battles w.
Proof.
  unfold Diplomacy._execute_demands_list. revert w.
  induction ds as [|d r IH]; intros w; simpl; [now split|].
  destruct (IH (Diplomacy._execute_demand winner loser d w)) as [-> ->].
  apply execute_demand_rest.
Qed.

Lemma make_peace_rest (a b : string) (w : GameState.t) :
  GameState.units (Diplomacy.make_peace a b w) = GameState.units w
  /\ GameState.active_battles (Diplomacy.make_peace a b w)
     = GameState.active_battles w.
Proof.
  unfold Diplomacy.make_peace.
  destruct (GameState.get_country a w); [|now split].
  now destruct (GameState.get_country b w).
Qed.

Lemma make_peace_unregistered (a b : string) (w : GameState.t) :
  GameState.get_country a w = None \/ GameState.get_country b w = None ->
  Diplomacy.make_peace a b w = w.
Proof.
  unfold Diplomacy.make_peace. intros [H|H]; rewrite H; [reflexivity|].
  now destruct (GameState.get_country a w).
Qed.

(** [list.remove] takes the first entry equal to the treaty and leaves the
    others in their places. *)
Lemma remove_treaty_first (treaty : PeaceTreaty.t) (ts : list PeaceTreaty.t) :
  existsb (fun x => PeaceTreaty.eqb x treaty) ts = true ->
  exists before x after,
    ts = before ++ x :: after
    /\ PeaceTreaty.eqb x treaty = true
    /\ Forall (fun y => PeaceTreaty.eqb y treaty = false) before
    /\ Diplomacy.remove_treaty treaty ts = before ++ after.
Proof.
  induction ts as [|y r IH]; simpl; [discriminate|].
  destruct (PeaceTreaty.eqb y treaty) eqn:E; simpl.
  - intros _. exists [], y, r. repeat split; [exact E|constructor].
  - intros H. destruct (IH H) as [before [x [after [-> [Ex [Hb Hr]]]]]].
    exists (y :: before), x, after. repeat split; [exact Ex| |].
    + now constructor.
    + simpl. now rewrite Hr.
Qed.

Lemma times_pending_positive (treaty : PeaceTreaty.t)
  (ts : list PeaceTreaty.t) :
  existsb (fun x => PeaceTreaty.eqb x treaty) ts = true
  <-> (1 <= times_pending treaty ts)%nat.
Proof.
  unfold times_pending. induction ts as [|y r IH]; simpl.
  - split; [discriminate|lia].
  - destruct (PeaceTreaty.eqb y treaty); simpl; [|exact IH].
    split; [lia|reflexivity].
Qed.

(** C9, as amended: the pending treaties are a list, searched by [==].
    Accepting a treaty that is equal to no pending one returns false and
    changes nothing. Accepting a treaty equal to a pending one returns
    true, and then: a province is handed to the proposer exactly when an
    annexation demand names it and the target owned it, and is otherwise as
    it was; between two different registered countries the reparations go,
    in the order of the demands, from the purse of the target to the
    purse of the proposer, each for [min(demanded, target's money)] (
    [pay]), peace is made on both sides, and no other country changes;
    when one of the two is not registered no country changes; roster and
    battles are as they were; and one pending entry, the first that is
    equal to the treaty, leaves the list, the others staying in place: a
    treaty that was pending more than once is still pending. The treaty is
    equal to itself (no amount is a NaN) and the amounts of its
    reparations are within the floats. *)
Theorem accept_peace_treaty_removes_once (treaty : PeaceTreaty.t)
  (w : GameState.t) :
  self_equal treaty ->
  amounts_in_range (PeaceTreaty.demands treaty) ->
  let a := PeaceTreaty.from_country treaty in
  let b := PeaceTreaty.to_country treaty in
  let ds := PeaceTreaty.demands treaty in
  let r := Diplomacy.accept_peace_treaty treaty w in
  (Diplomacy.is_pending treaty w = false -> r = (w, false))
  /\ (Diplomacy.is_pending treaty w = true ->
      snd r = true
      /\ (forall q,
            GameState.get_province q (fst r)
            = option_map
                (fun p =>
                   if existsb (demands_province q) ds && Province.owned_by b p
                   then Province.with_owner (Some a) p else p)
                (GameState.get_province q w))
      /\ (forall cl cw,
            a <> b ->
            GameState.get_country b w = Some cl ->
            GameState.get_country a w = Some cw ->
            let purses :=
              fold_left pay (amounts_demanded ds)
                        (Country.money cl, Country.money cw) in
            GameState.get_country b (fst r)
            = Some (Country.make_peace a (Country.with_money (fst purses) cl))
            /\ GameState.get_country a (fst r)
               = Some (Country.make_peace b
                         (Country.with_money (snd purses) cw))
            /\ (forall x, x <> a -> x <> b ->
                          GameState.get_country x (fst r)
                          = GameState.get_country x w))
      /\ (GameState.get_country a w = None
          \/ GameState.get_country b w = None ->
          GameState.countries (fst r) = GameState.countries w)
      /\ GameState.units (fst r) = GameState.units w
      /\ GameState.active_battles (fst r) = GameState.active_battles w
      /\ (exists before x after,
            GameState.pending_peace_treaties w = before ++ x :: after
            /\ PeaceTreaty.eqb x treaty = true
            /\ Forall (fun y => PeaceTreaty.eqb y treaty = false) before
            /\ GameState.pending_peace_treaties (fst r) = before ++ after)
      /\ (Diplomacy.is_pending treaty (fst r) = true
          <-> (2 <= times_pending treaty
                      (GameState.pending_peace_treaties w))%nat)).
Proof.
  intros _ _. cbv zeta. unfold Diplomacy.accept_peace_treaty.
  split; intros H; rewrite H; simpl; [reflexivity|].
  set (a := PeaceTreaty.from_country treaty).
  set (b := PeaceTreaty.to_country treaty).
  set (ds := PeaceTreaty.demands treaty).
  change (fold_left
            (fun w' demand => Diplomacy._execute_demand a b demand w') ds w)
    with (Diplomacy._execute_demands_list a b ds w).
  set (w1 := Diplomacy._execute_demands_list a b ds w).
  assert (Hpend : GameState.pending_peace_treaties
                    (Diplomacy.make_peace a b w1)
                  = GameState.pending_peace_treaties w).
  { rewrite make_peace_pending. apply execute_demands_pending. }
  split; [reflexivity|]. split; [|split; [|split; [|split; [|split; [|split]]]]].
  - intros q. transitivity (GameState.get_province q w1).
    + apply get_province_same. simpl. apply make_peace_provinces.
    + unfold w1. rewrite execute_demands_lookup. reflexivity.
  - intros cl cw Hne Hl Hw.
    destruct (execute_demands_purses a b ds cl cw w Hne Hl Hw)
      as [Hl1 [Hw1 Ho1]].
    fold w1 in Hl1, Hw1, Ho1.
    assert (L : forall x,
              GameState.get_country x (Diplomacy.make_peace a b w1)
              = option_map
                  (fun c => (if String.eqb x b then Country.make_peace a
                             else fun y => y)
                              ((if String.eqb x a then Country.make_peace b
                                else fun y => y) c))
                  (GameState.get_country x w1))
      by (intros x; now apply (make_peace_lookup a b x _ _ w1 Hw1 Hl1)).
    assert (Nab : String.eqb a b = false) by now apply String.eqb_neq.
    assert (Nba : String.eqb b a = false)
      by (rewrite String.eqb_sym; exact Nab).
    assert (G : forall x ts w',
              GameState.get_country x (GameState.with_pending ts w')
              = GameState.get_country x w') by reflexivity.
    cbn [fst]. rewrite !G.
    split; [|split].
    + rewrite (L b), Hl1. simpl. now rewrite String.eqb_refl, Nba.
    + rewrite (L a), Hw1. simpl. now rewrite String.eqb_refl, Nab.
    + intros x Hxa Hxb. rewrite G, (L x), (Ho1 x Hxa Hxb).
      apply String.eqb_neq in Hxa, Hxb. rewrite Hxa, Hxb.
      now destruct (GameState.get_country x w).
  - intros Hnone. simpl.
    assert (E : GameState.countries w1 = GameState.countries w)
      by now apply execute_demands_unregistered.
    rewrite make_peace_unregistered; [exact E|].
    unfold GameState.get_country in *. now rewrite E.
  - simpl. destruct (make_peace_rest a b w1) as [-> _].
    apply execute_demands_rest.
  - simpl. destruct (make_peace_rest a b w1) as [_ ->].
    apply execute_demands_rest.
  - simpl. rewrite Hpend.
    unfold Diplomacy.is_pending in H.
    destruct (remove_treaty_first treaty _ H)
      as [before [x [after [E [Ex [Hb Hr]]]]]].
    exists before, x, after. auto.
  - unfold Diplomacy.is_pending. simpl. rewrite Hpend.
    rewrite times_pending_positive, remove_treaty_once. lia.
Qed.

(** Germany proposes twice that France cede Lyon. *)
Definition lyon_proposed_twice : GameState.t :=
  fst (Diplomacy.propose_peace_treaty "GER" "FRA"
         [PeaceDemand.mk "annex_province" (IntData 5) 11]
         (fst (Diplomacy.propose_peace_treaty "GER" "FRA"
                 [PeaceDemand.mk "annex_province" (IntData 5) 11]
                 at_war_world))).

(** France owes Germany Lyon and two payments, of 1000 and of 2000.5, with
    1800 in its purse. *)
Definition gold_treaty : PeaceTreaty.t :=
  PeaceTreaty.mk "GER" "FRA"
    [ PeaceDemand.mk "annex_province" (IntData 5) 11;
      PeaceDemand.mk "war_reparations" (IntData 1000) 5;
      PeaceDemand.mk "war_reparations" (FloatData 2000.5) 5 ] 21.

Definition gold_pending : GameState.t :=
  GameState.with_pending [lyon_treaty; gold_treaty] at_war_world.

Lemma accept_peace_treaty_removes_once_witness :
  self_equal gold_treaty
  /\ amounts_in_range (PeaceTreaty.demands gold_treaty)
  /\ Diplomacy.is_pending gold_treaty gold_pending = true
  /\ let r := Diplomacy.accept_peace_treaty gold_treaty gold_pending in
     snd r = true
     /\ GameState.get_province 5 (fst r)
        = Some (Sample.province 5 "hills" 3 3000 "GER" false)
     /\ GameState.get_country "FRA" (fst r)
        = Some (Sample.country "FRA" 4 0%float 18000 [] [])
     /\ GameState.get_country "GER" (fst r)
        = Some (Sample.country "GER" 1 3800%float 20000 [] [])
     /\ GameState.get_country "GBR" (fst r)
        = GameState.get_country "GBR" gold_pending
     /\ GameState.pending_peace_treaties (fst r) = [lyon_treaty]
     /\ Diplomacy.is_pending gold_treaty (fst r) = false.
Proof.
  assert (Hs : self_equal gold_treaty) by (repeat constructor).
  assert (Hr : amounts_in_range (PeaceTreaty.demands gold_treaty))
    by (repeat constructor).
  split; [exact Hs|]. split; [exact Hr|]. split; [reflexivity|].
  pose proof (accept_peace_treaty_removes_once gold_treaty gold_pending
                Hs Hr) as H.
  cbv zeta in H. destruct H as [_ H].
  destruct (H eq_refl) as [Ht [Hp [Hc _]]]. cbv zeta.
  destruct (Hc (Sample.country "FRA" 4 1800%float 18000 ["GER"] [("GER", 10)])
               (Sample.country "GER" 1 2000%float 20000 ["FRA"] [("FRA", 40)]))
    as [Hl [Hw Ho]]; [discriminate|reflexivity|reflexivity|].
  split; [exact Ht|]. split; [rewrite Hp; reflexivity|].
  split; [exact (eq_trans Hl eq_refl)|].
  split; [exact (eq_trans Hw eq_refl)|].
  split; [apply Ho; discriminate|]. split; reflexivity.
Defined.

(** C9, the claim as stated fails: Germany has proposed the same treaty
    twice, as nothing prevents. France accepts it: the call returns true,
    Lyon goes to Germany and peace is made, but the treaty is still on the
    pending list, and a second acceptance returns true again. *)
Lemma accepted_treaty_proposed_twice_stays_pending :
  let r := Diplomacy.accept_peace_treaty lyon_treaty lyon_proposed_twice in
  snd (Diplomacy.propose_peace_treaty "GER" "FRA"
         [PeaceDemand.mk "annex_province" (IntData 5) 11] at_war_world)
  = Some lyon_treaty
  /\ GameState.pending_peace_treaties lyon_proposed_twice
     = [lyon_treaty; lyon_treaty]
  /\ snd r = true
  /\ GameState.pending_peace_treaties (fst r) = [lyon_treaty]
  /\ Diplomacy.is_pending lyon_treaty (fst r) = true
  /\ snd (Diplomacy.accept_peace_treaty lyon_treaty (fst r)) = true.
Proof. vm_compute. repeat split. Qed.

(** ** Forced peace: the whole call *)


Lemma dict_get_In {V : Type} (k : string) (v : V) (d : Dict.t V) :
  Dict.get k d = Some v -> In (k, v) (Dict.items d).
Proof.
  unfold Dict.items. induction d as [|[k' v'] r IH]; simpl; [discriminate|].
  destruct (String.eqb k' k) eqn:E.
  - apply String.eqb_eq in E. intros H. injection H as <-. subst k'. now left.
  - intros H. right. now apply IH.
Qed.

(** Germany has driven its war score against France to 100; France owns
    Paris, Lyon and Marseille. *)
Definition france_beaten : GameState.t :=
  Sample.with_state
    [ Sample.country "GER" 1 2000%float 20000 ["FRA"] [("FRA", 100)];
      Sample.country "FRA" 4 1800%float 18000 ["GER"] [("GER", 0)];
      Sample.country "GBR" 7 2500%float 15000 [] [] ]
    [] [].

Lemma wars_wf_none (c : Country.t) :
  Country.at_war_with c = [] -> Country.war_scores c = [] -> wars_wf c.
Proof.
  intros Ea Es. split; rewrite ?Ea, ?Es; [constructor|discriminate].
Qed.

Lemma wars_wf_single (c : Country.t) (enemy : string) (score : Z) :
  Country.at_war_with c = [enemy] ->
  Country.war_scores c = [(enemy, score)] ->
  wars_wf c.
Proof.
  intros Ea Es. split; rewrite ?Ea, ?Es.
  - constructor; [intros []|constructor].
  - intros k. unfold Dict.contains. cbn [Dict.get].
    rewrite mem_single, (String.eqb_sym k).
    now destruct (String.eqb enemy k).
Qed.

(** The scenario of the specification: after the call the three French
    provinces are German, and the two countries are at peace. *)
Lemma france_annexed :
  option_map (fun w' => map Province.owner (GameState.provinces w'))
    (Diplomacy.auto_peace_at_100 france_beaten)
  = Some [ Some "GER"; Some "GER"; Some "GER";
           Some "GER"; Some "GER"; Some "GER";
           Some "GBR"; Some "GBR"; Some "GBR" ]
  /\ option_map (fun w' => map Country.at_war_with (GameState.countries w'))
       (Diplomacy.auto_peace_at_100 france_beaten)
     = Some [ []; []; [] ].
Proof. vm_compute. split; reflexivity. Qed.

(** Germany and France hold 100 against each other. *)
Definition mutual_victory : GameState.t :=
  Sample.with_state
    [ Sample.country "GER" 1 2000%float 20000 ["FRA"] [("FRA", 100)];
      Sample.country "FRA" 4 1800%float 18000 ["GER"] [("GER", 100)];
      Sample.country "GBR" 7 2500%float 15000 [] [] ]
    [] [].


(** ** Forced peace: the pairs in roster order *)















Section RosterOrder.
Variables (A B : string) (s0 : Z) (w0 : GameState.t) (cA cB : Country.t).
Hypothesis Hwf : wars_wf_all w0.
Hypothesis HA : GameState.get_country A w0 = Some cA.
Hypothesis HAs : In (B, s0) (Country.war_scores cA).
Hypothesis Hs : 100 <= s0.
Hypothesis HB : GameState.get_country B w0 = Some cB.














End RosterOrder.




(** Germany and Britain both hold 100 against France: both pairs are
    served in roster order, the British one when France has nothing left.
    France ends German and at peace with both. *)
Definition two_victors : GameState.t :=
  Sample.with_state
    [ Sample.country "GER" 1 2000%float 20000 ["FRA"] [("FRA", 100)];
      Sample.country "FRA" 4 1800%float 18000 ["GER"; "GBR"]
        [("GER", 0); ("GBR", 0)];
      Sample.country "GBR" 7 2500%float 15000 ["FRA"] [("FRA", 100)] ]
    [] [].

Lemma france_beaten_twice :
  option_map (fun w' => map Province.owner (GameState.provinces w'))
    (Diplomacy.auto_peace_at_100 two_victors)
  = Some [ Some "GER"; Some "GER"; Some "GER";
           Some "GER"; Some "GER"; Some "GER";
           Some "GBR"; Some "GBR"; Some "GBR" ]
  /\ option_map (fun w' => map Country.at_war_with (GameState.countries w'))
       (Diplomacy.auto_peace_at_100 two_victors)
     = Some [ []; []; [] ]
  /\ option_map (fun w' => map Country.war_scores (GameState.countries w'))
       (Diplomacy.auto_peace_at_100 two_victors)
     = Some [ []; []; [] ].
Proof. vm_compute. repeat split. Qed.

(** ** The other engines in a diplomatic history

    The operations that touch countries besides [declare_war] and
    [make_peace] either leave the war data alone or reach them through
    [make_peace]: their states belong to the history too, and the war
    relation stays symmetric across them. *)

Lemma war_view_update_country (k : string) (f : Country.t -> Country.t)
  (w : GameState.t) :
  (forall c, Country.code (f c) = Country.code c) ->
  (forall c, Country.at_war_with (f c) = Country.at_war_with c) ->
  (forall c, String.eqb (Country.code c) k = true ->
             Dict.keys (Country.war_scores (f c))
             = Dict.keys (Country.war_scores c)) ->
  war_view (GameState.update_country k f w) = war_view w.
Proof.
  intros Hc Ha Hk. unfold war_view, GameState.update_country. simpl.
  induction (GameState.countries w) as [|c r IH]; simpl; [reflexivity|].
  destruct (String.eqb (Country.code c) k) eqn:E; simpl.
  - now rewrite Hc, Ha, (Hk c E).
  - now rewrite IH.
Qed.

Lemma war_view_countries (w w' : GameState.t) :
  GameState.countries w' = GameState.countries w -> war_view w' = war_view w.
Proof. unfold war_view. now intros ->. Qed.

Lemma award_war_score_history (winner loser : string) (points : Z)
  (w : GameState.t) :
  diplomatic_history w ->
  diplomatic_history (Combat._award_war_score winner loser points w).
Proof.
  intros H. apply (history_other w); [exact H|].
  unfold Combat._award_war_score.
  destruct (GameState.get_country winner w) as [c|] eqn:Ec; [|reflexivity].
  destruct (Dict.get loser (Country.war_scores c)) as [sc|] eqn:Es;
    [|reflexivity].
  unfold GameState.put_country.
  unfold war_view, GameState.update_country. simpl.
  unfold GameState.get_country in Ec.
  induction (GameState.countries w) as [|x r IH]; simpl; [reflexivity|].
  simpl in Ec. destruct (String.eqb (Country.code x) winner) eqn:E.
  - injection Ec as ->. simpl. unfold Dict.keys.
    rewrite dict_set_set.
    pose proof (dict_keys_set_present loser (Z.min 100 (sc + points))
                  (Country.war_scores c)) as Hk.
    unfold Dict.keys in Hk. rewrite Hk; [reflexivity|].
    unfold Dict.contains. now rewrite Es.
  - simpl. now rewrite (IH Ec).
Qed.

Lemma execute_demand_history (winner loser : string) (d : PeaceDemand.t)
  (w : GameState.t) :
  diplomatic_history w ->
  diplomatic_history (Diplomacy._execute_demand winner loser d w).
Proof.
  intros H. apply (history_other w); [exact H|].
  unfold Diplomacy._execute_demand.
  destruct (String.eqb _ "annex_province").
  - destruct (payload_key _); [|reflexivity].
    destruct (GameState.get_province _ _); [|reflexivity].
    now destruct (Province.owned_by _ _).
  - destruct (String.eqb _ "war_reparations"); [|reflexivity].
    destruct (GameState.get_country loser w); [|reflexivity].
    destruct (GameState.get_country winner w); [|reflexivity].
    rewrite !war_view_update_country; try reflexivity;
      intros c; unfold Country.spend_money;
      now destruct (PrimFloat.leb _ _).
Qed.

Lemma accept_peace_treaty_history (treaty : PeaceTreaty.t) (w : GameState.t) :
  diplomatic_history w ->
  diplomatic_history (fst (Diplomacy.accept_peace_treaty treaty w)).
Proof.
  intros H. unfold Diplomacy.accept_peace_treaty.
  destruct (negb (Diplomacy.is_pending treaty w)); simpl; [exact H|].
  eapply history_other; [apply history_peace|reflexivity].
  apply (fold_left_invariant diplomatic_history); [|exact H].
  intros w' d Hw'. now apply execute_demand_history.
Qed.

Lemma auto_peace_history (w w' : GameState.t) :
  diplomatic_history w ->
  Diplomacy.auto_peace_at_100 w = Some w' ->
  diplomatic_history w'.
Proof.
  unfold Diplomacy.auto_peace_at_100.
  apply (foldM_invariant diplomatic_history).
  intros w1 code w2 H1. unfold Diplomacy.auto_peace_country.
  destruct (GameState.get_country code w1); [|intros E; now injection E as <-].
  apply (foldM_invariant diplomatic_history); [|exact H1].
  intros w3 [enemy score] w4 H3. rewrite force_peace_run.
  intros E. injection E as <-.
  destruct ((100 <=? score) && known enemy w3); [|exact H3].
  unfold settled. apply history_peace.
  apply (history_other w3); [exact H3|].
  apply war_view_countries, annexed_countries.
Qed.

Lemma economy_update_history (dt : float) (w : GameState.t) :
  diplomatic_history w -> diplomatic_history (Economy.update dt w).
Proof.
  intros H. apply (history_other w); [exact H|].
  unfold Economy.update. destruct (PrimFloat.leb _ _); [|reflexivity].
  unfold war_view. rewrite collect_once. simpl.
  rewrite map_map. apply map_ext. reflexivity.
Qed.

(** * Further properties of the engines *)

(** ** Registries: insertion and lookup *)

Section Register.
Context {A : Type}.
Variables (same_key : A -> bool) (x : A).

Lemma find_register_same (xs : list A) :
  same_key x = true ->
  find same_key (GameState.register same_key x xs) = Some x.
Proof.
  intros Hx. induction xs as [|y r IH]; simpl.
  - now rewrite Hx.
  - destruct (same_key y) eqn:E; simpl; [now rewrite Hx|now rewrite E].
Qed.

Lemma find_register_other (test : A -> bool) (xs : list A) :
  test x = false ->
  (forall y, same_key y = true -> test y = false) ->
  find test (GameState.register same_key x xs) = find test xs.
Proof.
  intros Hx Hd. induction xs as [|y r IH]; simpl.
  - now rewrite Hx.
  - destruct (same_key y) eqn:E; simpl.
    + now rewrite Hx, (Hd y E).
    + now rewrite IH.
Qed.

Lemma register_length (xs : list A) :
  List.length (GameState.register same_key x xs)
  = if existsb same_key xs then List.length xs else S (List.length xs).
Proof.
  induction xs as [|y r IH]; simpl; [reflexivity|].
  destruct (same_key y); simpl; [reflexivity|].
  rewrite IH. now destruct (existsb same_key r).
Qed.
End Register.

(** X1: the three registries are dicts keyed by the object's own identifier:
    after [add_country], [add_province] or [add_template] the lookup under
    that identifier returns the object just added, whether or not the
    identifier was registered before, and the lookup under any other
    identifier returns what it returned before. *)
Theorem registry_add_then_get (w : GameState.t) :
  (forall (c : Country.t) (k : string),
      GameState.get_country k (GameState.add_country c w)
      = if String.eqb (Country.code c) k then Some c
        else GameState.get_country k w)
  /\ (forall (p : Province.t) (k : Z),
         GameState.get_province k (GameState.add_province p w)
         = if Province.province_id p =? k then Some p
           else GameState.get_province k w)
  /\ (forall (t : UnitTemplate.t) (k : string),
         GameState.get_template k (GameState.add_template t w)
         = if String.eqb (UnitTemplate.template_id t) k then Some t
           else GameState.get_template k w).
Proof.
  split; [|split].
  - intros c k. unfold GameState.get_country, GameState.add_country. simpl.
    destruct (String.eqb_spec (Country.code c) k) as [E|E].
    + subst k. apply find_register_same. apply String.eqb_refl.
    + apply find_register_other.
      * now apply String.eqb_neq.
      * intros y Hy. apply String.eqb_eq in Hy. apply String.eqb_neq.
        congruence.
  - intros p k. unfold GameState.get_province, GameState.add_province. simpl.
    destruct (Z.eqb_spec (Province.province_id p) k) as [E|E].
    + subst k. apply find_register_same. apply Z.eqb_refl.
    + apply find_register_other.
      * now apply Z.eqb_neq.
      * intros y Hy. apply Z.eqb_eq in Hy. apply Z.eqb_neq. congruence.
  - intros t k. unfold GameState.get_template, GameState.add_template. simpl.
    destruct (String.eqb_spec (UnitTemplate.template_id t) k) as [E|E].
    + subst k. apply find_register_same. apply String.eqb_refl.
    + apply find_register_other.
      * now apply String.eqb_neq.
      * intros y Hy. apply String.eqb_eq in Hy. apply String.eqb_neq.
        congruence.
Qed.

(** X2: registering a country under a code that is taken replaces the object in
    place: the registry keeps its size and the order of its codes. Under a
    new code the country goes to the end. *)
Theorem add_country_codes (c : Country.t) (w : GameState.t) :
  map Country.code (GameState.get_all_countries (GameState.add_country c w))
  = match GameState.get_country (Country.code c) w with
    | Some _ => map Country.code (GameState.get_all_countries w)
    | None => map Country.code (GameState.get_all_countries w)
              ++ [Country.code c]
    end.
Proof.
  unfold GameState.get_all_countries, GameState.get_country,
    GameState.add_country. simpl.
  induction (GameState.countries w) as [|y r IH]; simpl; [reflexivity|].
  destruct (String.eqb_spec (Country.code y) (Country.code c)) as [E|E].
  - simpl. now rewrite E.
  - simpl. rewrite IH. now destruct (find _ r).
Qed.

(** ** Recruitment *)

Lemma purchase_unit_flag (code : string) (cost : float) (mp : Z)
  (w : GameState.t) :
  snd (Economy.purchase_unit code cost mp w)
  = Economy.can_afford_unit code cost mp w.
Proof.
  unfold Economy.purchase_unit, Economy.can_afford_unit.
  destruct (GameState.get_country code w) as [c|]; [|reflexivity].
  unfold Country.spend_money. destruct (PrimFloat.leb cost _); [|reflexivity].
  unfold Country.recruit_manpower. simpl.
  now destruct (mp <=? Country.manpower c).
Qed.

(** X3: [purchase_unit] returns true exactly when [can_afford_unit] does, and a
    purchase that returns true has debited exactly the two costs. *)
Theorem purchase_unit_succeeds_iff_affordable (code : string) (cost : float)
  (mp : Z) (w : GameState.t) :
  snd (Economy.purchase_unit code cost mp w)
  = Economy.can_afford_unit code cost mp w
  /\ (snd (Economy.purchase_unit code cost mp w) = true ->
      exists c,
        GameState.get_country code w = Some c
        /\ GameState.get_country code
             (fst (Economy.purchase_unit code cost mp w))
           = Some (Country.with_manpower (Country.manpower c - mp)
                     (Country.with_money (Country.money c - cost)%float c))).
Proof.
  split; [apply purchase_unit_flag|].
  unfold Economy.purchase_unit.
  destruct (GameState.get_country code w) as [c|] eqn:Hc; [|discriminate].
  unfold Country.spend_money.
  destruct (PrimFloat.leb cost _); [|discriminate].
  unfold Country.recruit_manpower. simpl.
  destruct (mp <=? Country.manpower c); [|discriminate].
  simpl. intros _. exists c. split; [reflexivity|].
  now apply (put_country_get code c).
Qed.

(** X4: [recruit_unit] is all or nothing. When it returns false the whole state
    is as before: the check of [can_afford_unit] keeps the purchase from
    debiting money that the missing manpower would not follow. When it
    returns true the template and the country are registered, both costs
    were covered, the country has paid exactly the two costs, and one unit
    with the next identifier and the template's full hit points and
    organization stands at the end of the roster. *)
Theorem recruit_unit_all_or_nothing (code tid : string) (pid : Z)
  (w : GameState.t) :
  let r := Military.recruit_unit code tid pid w in
  (snd r = false -> fst r = w)
  /\ (snd r = true ->
      exists tpl c,
        GameState.get_template tid w = Some tpl
        /\ GameState.get_country code w = Some c
        /\ PrimFloat.leb (UnitTemplate.cost tpl) (Country.money c) = true
        /\ UnitTemplate.manpower_cost tpl <= Country.manpower c
        /\ fst r
           = GameState.with_next_unit_id (GameState.next_unit_id w + 1)
               (GameState.with_units
                  (GameState.units w
                   ++ [Unit.mk (GameState.next_unit_id w) tid code pid
                         (UnitTemplate.max_hp tpl)
                         (UnitTemplate.max_organization tpl)
                         0 1%float false None])
                  (GameState.put_country code
                     (Country.with_manpower
                        (Country.manpower c - UnitTemplate.manpower_cost tpl)
                        (Country.with_money
                           (Country.money c - UnitTemplate.cost tpl)%float c))
                     w))).
Proof.
  unfold Military.recruit_unit.
  destruct (GameState.get_template tid w) as [tpl|] eqn:Ht;
    [|simpl; split; [reflexivity|discriminate]].
  unfold Economy.can_afford_unit, Economy.purchase_unit.
  destruct (GameState.get_country code w) as [c|] eqn:Hc;
    [|simpl; split; [reflexivity|discriminate]].
  unfold Country.spend_money.
  destruct (PrimFloat.leb (UnitTemplate.cost tpl) (Country.money c)) eqn:Hm;
    [|simpl; split; [reflexivity|discriminate]].
  unfold Country.recruit_manpower. cbn [Country.manpower Country.with_money].
  destruct (UnitTemplate.manpower_cost tpl <=? Country.manpower c) eqn:Hp;
    [|simpl; split; [reflexivity|discriminate]].
  cbn [andb negb]. unfold Military.create_unit.
  replace (GameState.get_template tid (GameState.put_country code _ w))
    with (Some tpl) by (symmetry; exact Ht).
  simpl. split; [discriminate|]. intros _.
  exists tpl, c. apply Z.leb_le in Hp. repeat split; try assumption.
Qed.

(** ** The roster *)

Lemma resolve_movement_id (u : Unit.t) :
  Unit.unit_id (Military.resolve_movement u) = Unit.unit_id u.
Proof.
  unfold Military.resolve_movement, Military._move_unit.
  destruct (Unit.is_moving u && truthy_opt_int (Unit.move_target u));
    [|reflexivity].
  destruct (Unit.move_target u) as [t|]; [|reflexivity].
  now destruct (truthy_opt_int (Some t)).
Qed.

Lemma resolve_movement_twice (u : Unit.t) :
  Military.resolve_movement (Military.resolve_movement u)
  = Military.resolve_movement u.
Proof.
  assert (H : Military.resolve_movement u = u
              \/ exists t, Military.resolve_movement u
                           = Unit.with_movement t false None u).
  { unfold Military.resolve_movement, Military._move_unit.
    destruct (Unit.is_moving u && truthy_opt_int (Unit.move_target u));
      [|now left].
    destruct (Unit.move_target u) as [t|]; [|now left].
    destruct (truthy_opt_int (Some t)); [right; now exists t|now left]. }
  destruct H as [H|[t H]].
  - now rewrite !H.
  - rewrite H. apply resolve_movement_idle. now left.
Qed.

Lemma sweep_twice (us : list Unit.t) :
  Military.sweep (Military.sweep us) = Military.sweep us.
Proof.
  induction us as [|u r IH]; simpl; [reflexivity|].
  destruct (Unit.is_destroyed (Military.resolve_movement u)) eqn:E;
    [exact IH|].
  simpl. rewrite resolve_movement_twice, E. now rewrite IH.
Qed.

(** X5: the military [update] is idempotent: a second call right after the
    first finds no movement left to resolve and no destroyed unit left to
    remove. *)
Theorem military_update_idempotent (dt dt' : float) (w : GameState.t) :
  Military.update dt' (Military.update dt w) = Military.update dt w.
Proof.
  unfold Military.update, GameState.with_units. simpl.
  now rewrite sweep_twice.
Qed.

Lemma ordered_unit_arrives (d : Z) (u : Unit.t) :
  d <> 0 ->
  Military.resolve_movement
    (Unit.with_movement (Unit.location u) true (Some d) u)
  = Unit.with_movement d false None u.
Proof.
  intros Hd. rewrite (resolve_movement_moving _ d); try reflexivity.
  exact Hd.
Qed.

(** X6: a unit with hit points left that is ordered to a province other than
    province 0 is found there by its identifier after the next [update],
    stopped and without a target; under any other identifier the roster
    answers as it would have without the order. The identifiers of the
    roster are distinct, as [create_unit] makes them. *)
Theorem order_move_then_update (r : nat) (u : Unit.t) (d : Z) (dt : float)
  (w : GameState.t) :
  nth_error (GameState.units w) r = Some u ->
  NoDup (map Unit.unit_id (GameState.units w)) ->
  d <> 0 ->
  0 < Unit.current_hp u ->
  Military.get_unit_by_id (Unit.unit_id u)
    (Military.update dt (Military.order_move r d w))
  = Some (Unit.with_movement d false None u)
  /\ forall k, k <> Unit.unit_id u ->
       Military.get_unit_by_id k
         (Military.update dt (Military.order_move r d w))
       = Military.get_unit_by_id k (Military.update dt w).
Proof.
  unfold Military.get_unit_by_id, Military.update, Military.order_move.
  simpl. generalize (GameState.units w) as us. clear w.
  intros us Hr Hn Hd Hhp. split.
  - revert r Hr Hn. induction us as [|x rest IH]; intros [|r] Hr Hn;
      simpl in Hr; try discriminate.
    + injection Hr as ->. cbn [update_nth Military.sweep].
      rewrite ordered_unit_arrives by exact Hd.
      unfold Unit.is_destroyed. cbn [Unit.current_hp Unit.with_movement].
      destruct (Z.leb_spec (Unit.current_hp u) 0) as [H|H]; [lia|].
      cbn [find Unit.unit_id]. now rewrite Z.eqb_refl.
    + cbn [update_nth Military.sweep]. simpl in Hn.
      apply NoDup_cons_iff in Hn. destruct Hn as [Hx Hn].
      assert (Hne : Unit.unit_id x <> Unit.unit_id u).
      { intros E. apply Hx. rewrite E. apply in_map.
        now apply nth_error_In in Hr. }
      destruct (Unit.is_destroyed (Military.resolve_movement x)).
      * now apply IH.
      * cbn [find]. rewrite resolve_movement_id.
        apply Z.eqb_neq in Hne. rewrite Hne. now apply IH.
  - intros k Hk. clear Hn. revert r Hr.
    induction us as [|x rest IH]; intros [|r] Hr; simpl in Hr;
      try discriminate.
    + injection Hr as ->. cbn [update_nth Military.sweep].
      rewrite ordered_unit_arrives by exact Hd.
      unfold Unit.is_destroyed. rewrite resolve_movement_hp.
      cbn [Unit.current_hp Unit.with_movement].
      destruct (Unit.current_hp u <=? 0); [reflexivity|].
      cbn [find]. rewrite resolve_movement_id.
      cbn [Unit.unit_id Unit.with_movement].
      apply Z.eqb_neq in Hk. rewrite Z.eqb_sym in Hk. now rewrite Hk.
    + cbn [update_nth Military.sweep].
      destruct (Unit.is_destroyed (Military.resolve_movement x)).
      * now apply IH.
      * cbn [find]. destruct (Unit.unit_id _ =? k); [reflexivity|].
        now apply IH.
Qed.

(** The roster of the sample world after Germany has created two infantry
    divisions in Berlin. *)
Definition two_divisions : GameState.t :=
  fst (Military.create_unit "infantry" "GER" 1
         (fst (Military.create_unit "infantry" "GER" 1 Sample.world))).

Lemma order_move_then_update_witness :
  Military.get_unit_by_id 2
    (Military.update 1%float (Military.order_move 1 4 two_divisions))
  = Some (Unit.mk 2 "infantry" "GER" 4 100 100 0 1%float false None)
  /\ forall k, k <> 2 ->
       Military.get_unit_by_id k
         (Military.update 1%float (Military.order_move 1 4 two_divisions))
       = Military.get_unit_by_id k (Military.update 1%float two_divisions).
Proof.
  apply (order_move_then_update 1
           (Unit.mk 2 "infantry" "GER" 1 100 100 0 1%float false None)
           4 1%float two_divisions).
  - reflexivity.
  - simpl. repeat constructor; simpl; intuition discriminate.
  - discriminate.
  - reflexivity.
Defined.

Lemma count_after_create_unit (tid owner code category : string) (location : Z)
  (w : GameState.t) :
  Military.count_units_by_category code category
    (fst (Military.create_unit tid owner location w))
  = Military.count_units_by_category code category w
    + match GameState.get_template tid w with
      | Some tpl =>
          if String.eqb owner code
             && String.eqb (UnitTemplate.category tpl) category
          then 1 else 0
      | None => 0
      end.
Proof.
  unfold Military.create_unit.
  destruct (GameState.get_template tid w) as [tpl|] eqn:Ht; simpl; [|lia].
  unfold Military.count_units_by_category, Military.get_units_by_owner.
  simpl. rewrite filter_app, fold_left_app. simpl.
  change (GameState.get_template ?t
            (GameState.with_next_unit_id _ (GameState.with_units _ w)))
    with (GameState.get_template t w).
  set (n := fold_left _ _ 0).
  destruct (String.eqb owner code); simpl; [|lia].
  change (GameState.get_template tid
            (GameState.with_next_unit_id _ (GameState.with_units _ w)))
    with (GameState.get_template tid w).
  rewrite Ht. destruct (String.eqb _ category); lia.
Qed.

(** ** What the combat engine touches

    The combat engine changes the state in five ways only: it rewrites its
    own accumulator and its list of battles, it lets a unit of the roster
    take damage, it hands a province to a winner and it awards 5 or 2
    points of war score. A property of states that each of these keeps is
    kept by a whole [update]. *)

Section CombatFrame.
Variable P : GameState.t -> Prop.
Hypothesis P_accumulator :
  forall a w, P w -> P (GameState.with_combat_accumulator a w).
Hypothesis P_battles :
  forall bs w, P w -> P (GameState.with_active_battles bs w).
Hypothesis P_damage :
  forall r u u' damage tpl w,
    P w ->
    nth_error (GameState.units w) r = Some u ->
    Unit.take_damage damage tpl u = Some u' ->
    P (GameState.with_units
         (update_nth r (fun _ => u') (GameState.units w)) w).
Hypothesis P_capture :
  forall pid winner w,
    P w ->
    P (GameState.update_province pid (Province.with_owner (Some winner)) w).
Hypothesis P_award :
  forall winner loser points w,
    P w -> points = 5 \/ points = 2 ->
    P (Combat._award_war_score winner loser points w).

Lemma detect_battles_preserves (w : GameState.t) :
  P w -> P (Combat.detect_battles w).
Proof.
  unfold Combat.detect_battles. apply fold_left_invariant.
  intros s p Hs. unfold Combat.detect_in_province.
  destruct (_ <? _)%nat; [exact Hs|].
  generalize (Combat.owners_present
                (Military.get_units_in_province (Province.province_id p) s)).
  intros owners. revert s Hs.
  induction owners as [|o rest IH]; intros s Hs; simpl; [exact Hs|].
  apply IH. apply fold_left_invariant; [|exact Hs].
  intros s' o2 Hs'. unfold Combat.check_pair.
  destruct (GameState.get_country o s'); [|exact Hs'].
  destruct (GameState.get_country o2 s'); [|exact Hs'].
  destruct (Country.is_at_war_with _ _); [|exact Hs'].
  destruct (negb _); [|exact Hs'].
  now apply P_battles.
Qed.

Lemma apply_damage_preserves (refs : list nat) (total : float)
  (w w' : GameState.t) :
  Combat._apply_damage_to_units refs total w = Some w' -> P w -> P w'.
Proof.
  unfold Combat._apply_damage_to_units.
  destruct (is_empty refs); [intros E; now injection E as <-|].
  intros E H. revert E. apply (foldM_invariant P); [|exact H].
  intros s r s' Hs. unfold Combat.damage_unit.
  destruct (nth_error _ r) as [u|] eqn:Eu; [|intros E; now injection E as <-].
  destruct (GameState.get_template _ s) as [tpl|];
    [|intros E; now injection E as <-].
  destruct (Unit.take_damage _ tpl u) as [u'|] eqn:Et; [|discriminate].
  intros E. injection E as <-. eapply P_damage; eassumption.
Qed.

Lemma end_battle_preserves (i : nat) (ra rd : list nat)
  (w w' : GameState.t) :
  Combat.end_battle i ra rd w = Some w' -> P w -> P w'.
Proof.
  unfold Combat.end_battle. intros E H.
  destruct (nth_error _ i) as [battle|]; [|discriminate].
  destruct (GameState.get_province _ w) as [province|];
    [|injection E as <-; now apply P_battles].
  destruct (negb (is_empty ra) && is_empty rd).
  - injection E as <-. apply P_battles. unfold Combat.attackers_won.
    destruct (hd_error _) as [winner|]; [|exact H].
    destruct (truthy_str _ && _); [|exact H].
    destruct (Province.owner province) as [o|]; [|now apply P_capture].
    destruct (truthy_str o); [|now apply P_capture].
    apply P_award; [now apply P_capture|now left].
  - destruct (negb (is_empty rd) && is_empty ra).
    + unfold Combat.defenders_won in E.
      destruct (hd_error (Battle.defenders battle)) as [d|];
        [|injection E as <-; now apply P_battles].
      destruct (truthy_str d); [|injection E as <-; now apply P_battles].
      destruct (hd_error (Battle.attackers battle)) as [a|]; [|discriminate].
      destruct (truthy_str a); injection E as <-; apply P_battles;
        [|exact H].
      apply P_award; [exact H|now right].
    + injection E as <-. now apply P_battles.
Qed.

Lemma resolve_battle_tick_preserves (i : nat) (rolls : float * float)
  (w w' : GameState.t) (removed : bool) :
  Combat.resolve_battle_tick i rolls w = Some (w', removed) -> P w -> P w'.
Proof.
  unfold Combat.resolve_battle_tick. intros E H.
  destruct (nth_error _ i) as [battle|]; [|discriminate].
  destruct (GameState.get_province _ w) as [province|];
    [|injection E as <- <-; now apply P_battles].
  destruct (is_empty _ || is_empty _).
  - destruct (Combat.end_battle _ _ _ _) as [w1|] eqn:E1; [|discriminate].
    injection E as <- <-. now apply (end_battle_preserves _ _ _ _ _ E1).
  - destruct (PrimFloat.ltb _ _).
    + destruct (Combat._apply_damage_to_units _ _ w) as [w1|] eqn:E1;
        [|discriminate].
      destruct (Combat._apply_damage_to_units _ _ w1) as [w2|] eqn:E2;
        [|discriminate].
      injection E as <- <-. unfold Combat._check_retreats.
      apply (apply_damage_preserves _ _ _ _ E2).
      now apply (apply_damage_preserves _ _ _ _ E1).
    + destruct (Combat._apply_damage_to_units _ _ w) as [w1|] eqn:E1;
        [|discriminate].
      destruct (Combat._apply_damage_to_units _ _ w1) as [w2|] eqn:E2;
        [|discriminate].
      injection E as <- <-. unfold Combat._check_retreats.
      apply (apply_damage_preserves _ _ _ _ E2).
      now apply (apply_damage_preserves _ _ _ _ E1).
Qed.

Lemma resolve_all_preserves (n i k : nat) (rolls : nat -> float * float)
  (w w' : GameState.t) :
  Combat.resolve_all n i k rolls w = Some w' -> P w -> P w'.
Proof.
  revert i k w. induction n as [|n IH]; intros i k w; simpl.
  - intros E. now injection E as <-.
  - destruct (Combat.resolve_battle_tick i (rolls k) w) as [[w1 removed]|] eqn:E;
      [|discriminate].
    simpl. intros Hrun H.
    pose proof (resolve_battle_tick_preserves i (rolls k) w w1 removed E H)
      as H1.
    destruct removed.
    + apply (IH _ _ _ Hrun H1).
    + apply (IH _ _ _ Hrun). unfold Combat.bump_duration. now apply P_battles.
Qed.

Lemma combat_update_preserves (dt : float) (rolls : nat -> float * float)
  (w w' : GameState.t) :
  Combat.update dt rolls w = Some w' -> P w -> P w'.
Proof.
  unfold Combat.update. destruct (PrimFloat.leb _ _).
  - intros E H. apply (resolve_all_preserves _ _ _ _ _ _ E).
    apply detect_battles_preserves. now apply P_accumulator.
  - intros E H. injection E as <-. now apply P_accumulator.
Qed.
End CombatFrame.

(** ** What the diplomacy engine touches

    The diplomacy engine changes the state by declaring war and making
    peace on one country object at a time, by moving money out of and into
    a country, by handing a province to a winner and by rewriting its list
    of pending treaties. *)

Section DiplomacyFrame.
Variable P : GameState.t -> Prop.
Hypothesis P_pending :
  forall ts w, P w -> P (GameState.with_pending ts w).
Hypothesis P_annex :
  forall pid winner w,
    P w ->
    P (GameState.update_province pid (Province.with_owner (Some winner)) w).
Hypothesis P_declare :
  forall k e w,
    P w -> P (GameState.update_country k (Country.declare_war e) w).
Hypothesis P_peace :
  forall k e w,
    P w -> P (GameState.update_country k (Country.make_peace e) w).
Hypothesis P_pay :
  forall k amount w,
    P w ->
    P (GameState.update_country k
         (fun c => fst (Country.spend_money amount c)) w).
Hypothesis P_receive :
  forall k amount w,
    P w -> P (GameState.update_country k (Country.add_money amount) w).

Lemma declare_war_preserves (a b : string) (w : GameState.t) :
  P w -> P (fst (Diplomacy.declare_war a b w)).
Proof.
  intros H. unfold Diplomacy.declare_war.
  destruct (GameState.get_country a w); [|exact H].
  destruct (GameState.get_country b w); [|exact H].
  simpl. now apply P_declare, P_declare.
Qed.

Lemma make_peace_preserves (a b : string) (w : GameState.t) :
  P w -> P (Diplomacy.make_peace a b w).
Proof.
  intros H. unfold Diplomacy.make_peace.
  destruct (GameState.get_country a w); [|exact H].
  destruct (GameState.get_country b w); [|exact H].
  now apply P_peace, P_peace.
Qed.

Lemma execute_demand_preserves (winner loser : string) (d : PeaceDemand.t)
  (w : GameState.t) :
  P w -> P (Diplomacy._execute_demand winner loser d w).
Proof.
  intros H. unfold Diplomacy._execute_demand.
  destruct (String.eqb _ "annex_province").
  - destruct (payload_key _); [|exact H].
    destruct (GameState.get_province _ _); [|exact H].
    destruct (Province.owned_by _ _); [|exact H].
    now apply P_annex.
  - destruct (String.eqb _ "war_reparations"); [|exact H].
    destruct (GameState.get_country loser w); [|exact H].
    destruct (GameState.get_country winner w); [|exact H].
    now apply P_receive, P_pay.
Qed.

Lemma execute_demands_preserves (winner loser : string)
  (ds : list PeaceDemand.t) (w : GameState.t) :
  P w -> P (Diplomacy._execute_demands_list winner loser ds w).
Proof.
  unfold Diplomacy._execute_demands_list. apply fold_left_invariant.
  intros s d Hs. now apply execute_demand_preserves.
Qed.

Lemma propose_peace_treaty_preserves (a b : string)
  (ds : list PeaceDemand.t) (w : GameState.t) :
  P w -> P (fst (Diplomacy.propose_peace_treaty a b ds w)).
Proof.
  intros H. unfold Diplomacy.propose_peace_treaty.
  destruct (GameState.get_country a w); [|exact H].
  destruct (Dict.get b _); [|exact H].
  destruct (_ <=? _); [|exact H].
  simpl. now apply P_pending.
Qed.

Lemma accept_peace_treaty_preserves (treaty : PeaceTreaty.t)
  (w : GameState.t) :
  P w -> P (fst (Diplomacy.accept_peace_treaty treaty w)).
Proof.
  intros H. unfold Diplomacy.accept_peace_treaty.
  destruct (negb (Diplomacy.is_pending treaty w)); [exact H|].
  simpl. apply P_pending, make_peace_preserves.
  now apply (execute_demands_preserves _ _ (PeaceTreaty.demands treaty)).
Qed.

Lemma auto_peace_preserves (w w' : GameState.t) :
  Diplomacy.auto_peace_at_100 w = Some w' -> P w -> P w'.
Proof.
  unfold Diplomacy.auto_peace_at_100. intros E H. revert E.
  apply (foldM_invariant P); [|exact H].
  intros w1 code w2 H1. unfold Diplomacy.auto_peace_country.
  destruct (GameState.get_country code w1); [|intros E; now injection E as <-].
  apply (foldM_invariant P); [|exact H1].
  intros w3 [enemy score] w4 H3. rewrite force_peace_run.
  intros E. injection E as <-.
  destruct ((100 <=? score) && known enemy w3); [|exact H3].
  apply make_peace_preserves. unfold annexed.
  now apply execute_demands_preserves.
Qed.
End DiplomacyFrame.

(** ** The steps of the engines

    One mutation of the combat engine: a call of one of its methods, with
    a battle of the active list or with any other battle object, is a
    sequence of these, and so is the part of a call that has run when an
    exception escapes it (a conversion or a division in [take_damage], the
    subscript of an empty attacker list). [take_damage] itself writes the
    hit points and the organization before it divides: when the division
    raises, the unit keeps them with its old strength. *)

Inductive combat_touch : GameState.t -> GameState.t -> Prop :=
| touch_accumulator a w :
    combat_touch w (GameState.with_combat_accumulator a w)
| touch_battles bs w :
    combat_touch w (GameState.with_active_battles bs w)
| touch_damage r u u' damage tpl w :
    nth_error (GameState.units w) r = Some u ->
    Unit.take_damage damage tpl u = Some u' ->
    combat_touch w
      (GameState.with_units
         (update_nth r (fun _ => u') (GameState.units w)) w)
| touch_damage_interrupted r u lost w :
    nth_error (GameState.units w) r = Some u ->
    combat_touch w
      (GameState.with_units
         (update_nth r
            (fun _ => Unit.with_combat
                        (Z.max 0 (Unit.current_hp u - lost))
                        (Z.max 0 (Unit.organization u - lost))
                        (Unit.strength u) u)
            (GameState.units w)) w)
| touch_capture pid winner w :
    combat_touch w
      (GameState.update_province pid (Province.with_owner (Some winner)) w)
| touch_award winner loser points w :
    points = 5 \/ points = 2 ->
    combat_touch w (Combat._award_war_score winner loser points w).

(** One mutation of the economy engine: it rewrites its accumulator, and
    it credits a country object with money or with manpower. The daily
    income stops at the country whose income overflows. *)
Inductive economy_touch : GameState.t -> GameState.t -> Prop :=
| touch_economy_accumulator a w :
    economy_touch w (GameState.with_economy_accumulator a w)
| touch_income i amount w :
    economy_touch w
      (GameState.with_countries
         (update_nth i (Country.add_money amount) (GameState.countries w)) w)
| touch_manpower i amount w :
    economy_touch w
      (GameState.with_countries
         (update_nth i (Country.add_manpower amount) (GameState.countries w))
         w).

Section Touches.
Variable P : GameState.t -> Prop.
Hypothesis P_combat : forall w w', combat_touch w w' -> P w -> P w'.
Hypothesis P_economy : forall w w', economy_touch w w' -> P w -> P w'.

Lemma touched_update (dt : float) (rolls : nat -> float * float)
  (w w' : GameState.t) :
  Combat.update dt rolls w = Some w' -> P w -> P w'.
Proof.
  intros E H. eapply (combat_update_preserves P); try exact E; try exact H;
    intros; (eapply P_combat; [|eassumption]); econstructor; eassumption.
Qed.

Lemma touched_detect (w : GameState.t) : P w -> P (Combat.detect_battles w).
Proof.
  intros H. apply (detect_battles_preserves P); [|exact H].
  intros; (eapply P_combat; [|eassumption]); econstructor.
Qed.

Lemma touched_start (pid : Z) (a d : string) (w : GameState.t) :
  P w -> P (Combat.start_battle pid a d w).
Proof. apply P_combat. unfold Combat.start_battle. constructor. Qed.

Lemma touched_end (i : nat) (ra rd : list nat) (w w' : GameState.t) :
  Combat.end_battle i ra rd w = Some w' -> P w -> P w'.
Proof.
  intros E H. eapply (end_battle_preserves P); try exact E; try exact H;
    intros; (eapply P_combat; [|eassumption]); econstructor; eassumption.
Qed.

Lemma touched_tick (i : nat) (rolls : float * float) (w w' : GameState.t)
  (removed : bool) :
  Combat.resolve_battle_tick i rolls w = Some (w', removed) -> P w -> P w'.
Proof.
  intros E H.
  eapply (resolve_battle_tick_preserves P); try exact E; try exact H;
    intros; (eapply P_combat; [|eassumption]); econstructor; eassumption.
Qed.

End Touches.

(** ** A session

    The states a game goes through: the systems start with an empty roster,
    no battle, no pending treaty and every country at peace (the defaults of
    the [Country] dataclass), and then their public methods are called in
    any order and with any arguments. A call that raises leaves the state
    it had reached: the steps of the combat engine and of the economy
    engine are steps of a session one by one, and so is the execution of
    any list of demands, which is where an acceptance that raises stops. *)

Inductive session : GameState.t -> Prop :=
| session_start w :
    GameState.units w = [] ->
    GameState.active_battles w = [] ->
    GameState.pending_peace_treaties w = [] ->
    (forall c, In c (GameState.countries w) ->
               Country.at_war_with c = [] /\ Country.war_scores c = []) ->
    session w
| session_economy dt w :
    session w -> session (Economy.update dt w)
| session_purchase code cost mp w :
    session w -> session (fst (Economy.purchase_unit code cost mp w))
| session_military dt w :
    session w -> session (Military.update dt w)
| session_create tid owner location w :
    session w -> session (fst (Military.create_unit tid owner location w))
| session_recruit code tid pid w :
    session w -> session (fst (Military.recruit_unit code tid pid w))
| session_order r destination w :
    session w -> session (Military.order_move r destination w)
| session_combat dt rolls w w' :
    session w -> Combat.update dt rolls w = Some w' -> session w'
| session_declare a b w :
    session w -> session (fst (Diplomacy.declare_war a b w))
| session_peace a b w :
    session w -> session (Diplomacy.make_peace a b w)
| session_propose a b demands w :
    session w -> session (fst (Diplomacy.propose_peace_treaty a b demands w))
| session_accept treaty w :
    session w -> session (fst (Diplomacy.accept_peace_treaty treaty w))
| session_auto_peace w w' :
    session w -> Diplomacy.auto_peace_at_100 w = Some w' -> session w'
| session_income w :
    session w -> session (Economy.collect_daily_income w)
| session_manpower w :
    session w -> session (Economy.collect_manpower w)
| session_detect w :
    session w -> session (Combat.detect_battles w)
| session_start_battle pid attacker defender w :
    session w -> session (Combat.start_battle pid attacker defender w)
| session_tick i rolls w w' removed :
    session w ->
    Combat.resolve_battle_tick i rolls w = Some (w', removed) ->
    session w'
| session_end_battle i remaining_attackers remaining_defenders w w' :
    session w ->
    Combat.end_battle i remaining_attackers remaining_defenders w = Some w' ->
    session w'
| session_combat_touch w w' :
    session w -> combat_touch w w' -> session w'
| session_economy_touch w w' :
    session w -> economy_touch w w' -> session w'
| session_demands winner loser demands w :
    session w ->
    session (Diplomacy._execute_demands_list winner loser demands w).

(** A recruitment leaves the state as it was or is a purchase followed by
    the creation of the unit. *)
Lemma recruit_unit_steps (code tid : string) (pid : Z) (w : GameState.t) :
  fst (Military.recruit_unit code tid pid w) = w
  \/ exists cost mp,
       fst (Military.recruit_unit code tid pid w)
       = fst (Military.create_unit tid code pid
                (fst (Economy.purchase_unit code cost mp w))).
Proof.
  unfold Military.recruit_unit.
  destruct (GameState.get_template tid w) as [tpl|] eqn:Ht; [|now left].
  pose proof (purchase_unit_flag code (UnitTemplate.cost tpl)
                (UnitTemplate.manpower_cost tpl) w) as Hs.
  destruct (Economy.can_afford_unit _ _ _ w); [|now left].
  destruct (Economy.purchase_unit code _ _ w) as [w1 bought] eqn:E.
  simpl in Hs. subst bought. cbn [negb].
  right. exists (UnitTemplate.cost tpl), (UnitTemplate.manpower_cost tpl).
  rewrite E. simpl. now destruct (Military.create_unit tid code pid w1).
Qed.

(** ** Unit identifiers *)

(** The identifiers on the roster are distinct and below the next one to
    be given out. *)
Definition ids_fresh (w : GameState.t) : Prop :=
  NoDup (map Unit.unit_id (GameState.units w))
  /\ forall i, In i (map Unit.unit_id (GameState.units w)) ->
               i < GameState.next_unit_id w.

Lemma ids_fresh_roster (w w' : GameState.t) :
  map Unit.unit_id (GameState.units w') = map Unit.unit_id (GameState.units w) ->
  GameState.next_unit_id w' = GameState.next_unit_id w ->
  ids_fresh w -> ids_fresh w'.
Proof. unfold ids_fresh. now intros -> ->. Qed.

Lemma sweep_ids (us : list Unit.t) :
  incl (map Unit.unit_id (Military.sweep us)) (map Unit.unit_id us)
  /\ (NoDup (map Unit.unit_id us) ->
      NoDup (map Unit.unit_id (Military.sweep us))).
Proof.
  induction us as [|u r [IHi IHn]]; simpl.
  - split; [apply incl_refl|trivial].
  - destruct (Unit.is_destroyed (Military.resolve_movement u)); simpl.
    + split; [now apply incl_tl|].
      intros H. apply NoDup_cons_iff in H. now apply IHn.
    + rewrite resolve_movement_id. split.
      * apply incl_cons; [now left|now apply incl_tl].
      * intros H. apply NoDup_cons_iff in H. destruct H as [Hu Hr].
        constructor; [|now apply IHn].
        intros Hin. apply Hu. now apply IHi.
Qed.

Lemma take_damage_id (damage : float) (tpl : UnitTemplate.t) (u u' : Unit.t) :
  Unit.take_damage damage tpl u = Some u' ->
  Unit.with_combat 0 0 0%float u' = Unit.with_combat 0 0 0%float u.
Proof.
  unfold Unit.take_damage.
  destruct (int_of_float _); [|discriminate].
  destruct (int_truediv _ _); [|discriminate].
  intros E. now injection E as <-.
Qed.

Lemma map_update_nth_const {A B : Type} (f : A -> B) (r : nat) (x y : A)
  (xs : list A) :
  nth_error xs r = Some x -> f y = f x ->
  map f (update_nth r (fun _ => y) xs) = map f xs.
Proof.
  intros Hr Hf. revert r Hr. induction xs as [|z rest IH]; intros [|r] Hr;
    simpl in *; try discriminate.
  - injection Hr as ->. now rewrite Hf.
  - now rewrite IH.
Qed.

Lemma ids_fresh_create (tid owner : string) (location : Z)
  (w : GameState.t) :
  ids_fresh w -> ids_fresh (fst (Military.create_unit tid owner location w)).
Proof.
  intros [Hn Hb]. unfold Military.create_unit.
  destruct (GameState.get_template tid w); [|now split].
  unfold ids_fresh. simpl. rewrite map_app. simpl. split.
  - apply NoDup_app.
    + exact Hn.
    + constructor; [intros []|constructor].
    + intros i Hi [E|[]]. subst i. specialize (Hb _ Hi). lia.
  - intros i Hi. apply in_app_or in Hi. destruct Hi as [Hi|[<-|[]]].
    + specialize (Hb _ Hi). lia.
    + lia.
Qed.

Lemma ids_fresh_combat_touch (w w' : GameState.t) :
  combat_touch w w' -> ids_fresh w -> ids_fresh w'.
Proof.
  intros T H. destruct T as [a w | bs w | r u u' damage tpl w Hr Ht
                            | r u lost w Hr | pid winner w
                            | winner loser points w _];
    try exact H.
  - apply (ids_fresh_roster w); [|reflexivity|exact H]. simpl.
    apply (map_update_nth_const _ r u); [exact Hr|].
    apply take_damage_id in Ht.
    change (Unit.unit_id (Unit.with_combat 0 0 0%float u')
            = Unit.unit_id (Unit.with_combat 0 0 0%float u)).
    now rewrite Ht.
  - apply (ids_fresh_roster w); [|reflexivity|exact H]. simpl.
    now apply (map_update_nth_const _ r u).
  - apply (ids_fresh_roster w); [| |exact H];
      unfold Combat._award_war_score;
      destruct (GameState.get_country winner w); try reflexivity;
      now destruct (Dict.get loser _).
Qed.

Lemma ids_fresh_economy_touch (w w' : GameState.t) :
  economy_touch w w' -> ids_fresh w -> ids_fresh w'.
Proof. intros T H. now destruct T. Qed.

Lemma ids_fresh_session (w : GameState.t) : session w -> ids_fresh w.
Proof.
  induction 1 as [w Hu _ _ _ | dt w _ IH | code cost mp w _ IH | dt w _ IH
                 | tid owner location w _ IH | code tid pid w _ IH
                 | r d w _ IH | dt rolls w w' _ IH E | a b w _ IH
                 | a b w _ IH | a b ds w _ IH | treaty w _ IH
                 | w w' _ IH E | w _ IH | w _ IH | w _ IH
                 | pid a d w _ IH | i rolls w w' removed _ IH E
                 | i ra rd w w' _ IH E | w w' _ IH T | w w' _ IH T
                 | a b ds w _ IH].
  - unfold ids_fresh. rewrite Hu. split; [constructor|intros i []].
  - apply (ids_fresh_roster w); [| |exact IH];
      unfold Economy.update; now destruct (PrimFloat.leb _ _).
  - apply (ids_fresh_roster w); [| |exact IH];
      unfold Economy.purchase_unit;
      destruct (GameState.get_country code w) as [c|]; try reflexivity;
      destruct (Country.spend_money cost c) as [c1 []]; try reflexivity;
      now destruct (Country.recruit_manpower mp c1).
  - destruct IH as [Hn Hb]. destruct (sweep_ids (GameState.units w)) as [Hi Hs].
    split; simpl; [now apply Hs|]. intros i Hin. now apply Hb, Hi.
  - now apply ids_fresh_create.
  - destruct (recruit_unit_steps code tid pid w) as [->|[cost [mp ->]]];
      [exact IH|].
    apply ids_fresh_create. apply (ids_fresh_roster w); [| |exact IH];
      unfold Economy.purchase_unit;
      destruct (GameState.get_country code w) as [c|]; try reflexivity;
      destruct (Country.spend_money cost c) as [c1 []]; try reflexivity;
      now destruct (Country.recruit_manpower mp c1).
  - apply (ids_fresh_roster w); [|reflexivity|exact IH].
    unfold Military.order_move. simpl. now apply map_update_nth.
  - eapply (combat_update_preserves ids_fresh);
      try exact E; try exact IH; try (intros; assumption).
    + intros r u u' damage tpl s Hs Hr Ht.
      apply (ids_fresh_roster s); [|reflexivity|exact Hs]. simpl.
      apply (map_update_nth_const _ r u); [exact Hr|].
      apply take_damage_id in Ht.
      change (Unit.unit_id (Unit.with_combat 0 0 0%float u')
              = Unit.unit_id (Unit.with_combat 0 0 0%float u)).
      now rewrite Ht.
    + intros winner loser points s Hs _.
      apply (ids_fresh_roster s); [| |exact Hs];
        unfold Combat._award_war_score;
        destruct (GameState.get_country winner s); try reflexivity;
        now destruct (Dict.get loser _).
  - apply declare_war_preserves; try (intros; assumption).
  - apply make_peace_preserves; try (intros; assumption).
  - apply propose_peace_treaty_preserves; try (intros; assumption).
  - apply accept_peace_treaty_preserves; try (intros; assumption).
  - eapply (auto_peace_preserves ids_fresh);
      try exact E; try exact IH; try (intros; assumption).
  - exact IH.
  - exact IH.
  - now apply (touched_detect ids_fresh ids_fresh_combat_touch).
  - exact IH.
  - exact (touched_tick ids_fresh ids_fresh_combat_touch _ _ _ _ _ E IH).
  - exact (touched_end ids_fresh ids_fresh_combat_touch _ _ _ _ _ E IH).
  - exact (ids_fresh_combat_touch _ _ T IH).
  - exact (ids_fresh_economy_touch _ _ T IH).
  - apply execute_demands_preserves; try (intros; assumption).
Qed.

Lemma find_by_unique_key {A : Type} (key : A -> Z) (x : A) (xs : list A) :
  NoDup (map key xs) -> In x xs ->
  find (fun y => key y =? key x) xs = Some x.
Proof.
  induction xs as [|y r IH]; simpl; [intros _ []|].
  intros Hn Hin. apply NoDup_cons_iff in Hn. destruct Hn as [Hy Hr].
  destruct Hin as [->|Hin].
  - now rewrite Z.eqb_refl.
  - destruct (Z.eqb_spec (key y) (key x)) as [E|E].
    + exfalso. apply Hy. rewrite E. now apply in_map.
    + now apply IH.
Qed.

(** X7: throughout a session the units on the roster carry distinct identifiers,
    all below [next_unit_id], so that [get_unit_by_id] finds every unit of
    the roster under its own identifier. *)
Theorem unit_ids_unique (w : GameState.t) :
  session w ->
  NoDup (map Unit.unit_id (GameState.units w))
  /\ (forall u, In u (GameState.units w) ->
                Unit.unit_id u < GameState.next_unit_id w)
  /\ (forall u, In u (GameState.units w) ->
                Military.get_unit_by_id (Unit.unit_id u) w = Some u).
Proof.
  intros Hs. destruct (ids_fresh_session w Hs) as [Hn Hb].
  split; [exact Hn|]. split.
  - intros u Hu. apply Hb. now apply in_map.
  - intros u Hu. unfold Military.get_unit_by_id.
    now apply find_by_unique_key.
Qed.

Lemma sample_world_session : session Sample.world.
Proof.
  apply session_start; try reflexivity.
  simpl. intros c [<-|[<-|[<-|[]]]]; split; reflexivity.
Qed.

Lemma unit_ids_unique_witness :
  session two_divisions
  /\ NoDup (map Unit.unit_id (GameState.units two_divisions))
  /\ (forall u, In u (GameState.units two_divisions) ->
                Unit.unit_id u < GameState.next_unit_id two_divisions)
  /\ (forall u, In u (GameState.units two_divisions) ->
                Military.get_unit_by_id (Unit.unit_id u) two_divisions
                = Some u).
Proof.
  assert (H : session two_divisions).
  { unfold two_divisions. apply session_create, session_create.
    exact sample_world_session. }
  split; [exact H|]. apply (unit_ids_unique two_divisions H).
Defined.

(** ** The range of war scores *)

Definition score_range (c : Country.t) : Prop :=
  forall k v, In (k, v) (Dict.items (Country.war_scores c)) -> 0 <= v <= 100.

Definition scores_in_range (w : GameState.t) : Prop :=
  forall c, In c (GameState.countries w) -> score_range c.

Lemma update_first_In {A : Type} (test : A -> bool) (f : A -> A) (y : A)
  (xs : list A) :
  In y (GameState.update_first test f xs) ->
  In y xs \/ exists x, In x xs /\ test x = true /\ y = f x.
Proof.
  induction xs as [|x r IH]; simpl; [intros []|].
  destruct (test x) eqn:E; simpl.
  - intros [<-|H]; [right; exists x; auto|left; now right].
  - intros [<-|H]; [left; now left|].
    destruct (IH H) as [H1|[z [Hz [Ht ->]]]]; [left; now right|].
    right. exists z. auto.
Qed.

Lemma scores_in_range_update (k : string) (f : Country.t -> Country.t)
  (w : GameState.t) :
  (forall c, score_range c -> score_range (f c)) ->
  scores_in_range w -> scores_in_range (GameState.update_country k f w).
Proof.
  intros Hf H c Hc. unfold GameState.update_country in Hc. simpl in Hc.
  apply update_first_In in Hc. destruct Hc as [Hc|[x [Hx [_ ->]]]].
  - now apply H.
  - apply Hf. now apply H.
Qed.

Lemma dict_set_In (k k' : string) (v v' : Z) (d : Dict.t Z) :
  In (k', v') (Dict.set k v d) -> (k', v') = (k, v) \/ In (k', v') d.
Proof.
  induction d as [|[k0 v0] r IH]; simpl.
  - intros [E|[]]. left. now symmetry.
  - destruct (String.eqb_spec k0 k) as [->|Hne]; simpl.
    + intros [E|H]; [left; now symmetry|right; now right].
    + intros [E|H]; [right; now left|].
      destruct (IH H) as [E|H']; [now left|right; now right].
Qed.

Lemma score_range_declare (e : string) (c : Country.t) :
  score_range c -> score_range (Country.declare_war e c).
Proof.
  intros H. unfold Country.declare_war. destruct (mem e _); [exact H|].
  intros k v Hin. simpl in Hin. unfold Dict.items in Hin.
  apply dict_set_In in Hin. destruct Hin as [E|Hin].
  - injection E as _ ->. lia.
  - now apply (H k).
Qed.

Lemma score_range_peace (e : string) (c : Country.t) :
  score_range c -> score_range (Country.make_peace e c).
Proof.
  intros H. unfold Country.make_peace. destruct (mem e _); [|exact H].
  intros k v Hin. simpl in Hin. unfold Dict.items, Dict.del in Hin.
  apply filter_In in Hin. now apply (H k).
Qed.

Lemma scores_in_range_award (winner loser : string) (points : Z)
  (w : GameState.t) :
  0 <= points ->
  scores_in_range w ->
  scores_in_range (Combat._award_war_score winner loser points w).
Proof.
  intros Hp H. unfold Combat._award_war_score.
  destruct (GameState.get_country winner w) as [c|] eqn:Hc; [|exact H].
  destruct (Dict.get loser (Country.war_scores c)) as [s|] eqn:Hs;
    [|exact H].
  unfold GameState.put_country. apply scores_in_range_update; [|exact H].
  intros _ _ k v Hin. simpl in Hin. unfold Dict.items in Hin.
  rewrite dict_set_set in Hin.
  assert (Rc : score_range c).
  { apply H. unfold GameState.get_country in Hc. now apply find_some in Hc. }
  apply dict_set_In in Hin. destruct Hin as [E|Hin].
  - injection E as _ ->. apply dict_get_In in Hs. apply Rc in Hs. lia.
  - now apply (Rc k).
Qed.

Lemma scores_in_range_countries (w w' : GameState.t) :
  map Country.war_scores (GameState.countries w')
  = map Country.war_scores (GameState.countries w) ->
  scores_in_range w -> scores_in_range w'.
Proof.
  intros E H c Hc k v Hin.
  assert (Hs : In (Country.war_scores c)
                  (map Country.war_scores (GameState.countries w)))
    by (rewrite <- E; now apply in_map).
  apply in_map_iff in Hs. destruct Hs as [c0 [E0 Hc0]].
  apply (H c0 Hc0 k). now rewrite E0.
Qed.

Lemma purchase_unit_scores (code : string) (cost : float) (mp : Z)
  (w : GameState.t) :
  map Country.war_scores
    (GameState.countries (fst (Economy.purchase_unit code cost mp w)))
  = map Country.war_scores (GameState.countries w).
Proof.
  unfold Economy.purchase_unit.
  destruct (GameState.get_country code w) as [c|] eqn:Hc; [|reflexivity].
  assert (Hput : forall x, Country.war_scores x = Country.war_scores c ->
            map Country.war_scores
              (GameState.countries (GameState.put_country code x w))
            = map Country.war_scores (GameState.countries w)).
  { intros x Hx. unfold GameState.put_country, GameState.update_country.
    simpl. unfold GameState.get_country in Hc.
    induction (GameState.countries w) as [|y r IH]; simpl; [reflexivity|].
    simpl in Hc. destruct (String.eqb (Country.code y) code); simpl.
    - injection Hc as ->. now rewrite Hx.
    - now rewrite IH. }
  unfold Country.spend_money. destruct (PrimFloat.leb cost _); simpl.
  - unfold Country.recruit_manpower. simpl.
    destruct (mp <=? Country.manpower c); simpl; now apply Hput.
  - now apply Hput.
Qed.

Lemma scores_in_range_pay (k : string) (amount : float) (w : GameState.t) :
  scores_in_range w ->
  scores_in_range
    (GameState.update_country k
       (fun c => fst (Country.spend_money amount c)) w).
Proof.
  apply scores_in_range_update. intros c Hc.
  unfold Country.spend_money. now destruct (PrimFloat.leb _ _).
Qed.

Lemma scores_in_range_receive (k : string) (amount : float)
  (w : GameState.t) :
  scores_in_range w ->
  scores_in_range (GameState.update_country k (Country.add_money amount) w).
Proof. apply scores_in_range_update. intros c Hc. exact Hc. Qed.

Lemma scores_in_range_combat_touch (w w' : GameState.t) :
  combat_touch w w' -> scores_in_range w -> scores_in_range w'.
Proof.
  intros T H. destruct T as [a w | bs w | r u u' damage tpl w Hr Ht
                            | r u lost w Hr | pid winner w
                            | winner loser points w Hp];
    try exact H.
  destruct Hp as [-> | ->]; apply scores_in_range_award; try exact H; lia.
Qed.

Lemma scores_in_range_economy_touch (w w' : GameState.t) :
  economy_touch w w' -> scores_in_range w -> scores_in_range w'.
Proof.
  intros T H. destruct T as [a w | i amount w | i amount w];
    [exact H| |];
    (apply (scores_in_range_countries w); [|exact H]);
    simpl; now apply map_update_nth.
Qed.

Lemma scores_in_range_session (w : GameState.t) :
  session w -> scores_in_range w.
Proof.
  induction 1 as [w _ _ _ Hc | dt w _ IH | code cost mp w _ IH | dt w _ IH
                 | tid owner location w _ IH | code tid pid w _ IH
                 | r d w _ IH | dt rolls w w' _ IH E | a b w _ IH
                 | a b w _ IH | a b ds w _ IH | treaty w _ IH
                 | w w' _ IH E | w _ IH | w _ IH | w _ IH
                 | pid a d w _ IH | i rolls w w' removed _ IH E
                 | i ra rd w w' _ IH E | w w' _ IH T | w w' _ IH T
                 | a b ds w _ IH].
  - intros c Hin k v Hkv. destruct (Hc c Hin) as [_ Es].
    rewrite Es in Hkv. destruct Hkv.
  - apply (scores_in_range_countries w); [|exact IH].
    unfold Economy.update. destruct (PrimFloat.leb _ _); [|reflexivity].
    rewrite collect_once. simpl. rewrite map_map. now apply map_ext.
  - apply (scores_in_range_countries w); [|exact IH].
    apply purchase_unit_scores.
  - exact IH.
  - unfold Military.create_unit.
    now destruct (GameState.get_template tid w).
  - destruct (recruit_unit_steps code tid pid w) as [->|[cost [mp ->]]];
      [exact IH|].
    unfold Military.create_unit.
    destruct (GameState.get_template tid _); simpl;
      apply (scores_in_range_countries w); try exact IH;
      apply purchase_unit_scores.
  - exact IH.
  - eapply (combat_update_preserves scores_in_range);
      try exact E; try exact IH; try (intros; assumption).
    intros winner loser points s Hs [->| ->];
      apply scores_in_range_award; try exact Hs; lia.
  - apply declare_war_preserves; try (intros; assumption); intros k e s Hs;
      apply scores_in_range_update; try exact Hs; apply score_range_declare.
  - apply make_peace_preserves; try (intros; assumption); intros k e s Hs;
      apply scores_in_range_update; try exact Hs; apply score_range_peace.
  - apply propose_peace_treaty_preserves; intros; assumption.
  - apply accept_peace_treaty_preserves;
      try (intros; assumption);
      try (intros; now apply scores_in_range_pay);
      try (intros; now apply scores_in_range_receive).
    intros k e s Hs. apply scores_in_range_update; [|exact Hs].
    apply score_range_peace.
  - eapply (auto_peace_preserves scores_in_range);
      try exact E; try exact IH; try (intros; assumption);
      try (intros; now apply scores_in_range_pay);
      try (intros; now apply scores_in_range_receive).
    intros k e s Hs. apply scores_in_range_update; [|exact Hs].
    apply score_range_peace.
  - apply (scores_in_range_countries w); [|exact IH].
    unfold Economy.collect_daily_income. simpl. rewrite map_map.
    now apply map_ext.
  - apply (scores_in_range_countries w); [|exact IH].
    unfold Economy.collect_manpower. simpl. rewrite map_map.
    now apply map_ext.
  - now apply (touched_detect scores_in_range scores_in_range_combat_touch).
  - exact IH.
  - exact (touched_tick scores_in_range scores_in_range_combat_touch
             _ _ _ _ _ E IH).
  - exact (touched_end scores_in_range scores_in_range_combat_touch
             _ _ _ _ _ E IH).
  - exact (scores_in_range_combat_touch _ _ T IH).
  - exact (scores_in_range_economy_touch _ _ T IH).
  - apply execute_demands_preserves;
      try (intros; assumption);
      try (intros; now apply scores_in_range_pay);
      try (intros; now apply scores_in_range_receive).
Qed.

(** X8: throughout a session every war score lies between 0 and 100: a
    declaration starts it at 0, a battle won adds 5 or 2 and caps the sum at
    100, and nothing lowers a score. *)
Theorem war_scores_in_range (w : GameState.t) (k e : string)
  (c : Country.t) (v : Z) :
  session w ->
  GameState.get_country k w = Some c ->
  Dict.get e (Country.war_scores c) = Some v ->
  0 <= v <= 100.
Proof.
  intros Hs Hc Hv. apply scores_in_range_session in Hs.
  unfold GameState.get_country in Hc. apply find_some in Hc.
  apply (Hs c (proj1 Hc) e). now apply dict_get_In.
Qed.

(** Germany declares war on France and sends a division to Paris, where a
    French division stands; after an hour of battle the French division
    leaves for Lyon, and the next hour of the combat engine finds the
    attackers alone. *)
Definition paris_attacked : GameState.t :=
  fst (Military.create_unit "infantry" "FRA" 4
         (fst (Military.create_unit "infantry" "GER" 4 war_started))).

Definition paris_first_hour : GameState.t :=
  match Combat.update 1%float even_rolls paris_attacked with
  | Some w => w
  | None => paris_attacked
  end.

Definition paris_abandoned : GameState.t :=
  Military.update 1%float (Military.order_move 1 5 paris_first_hour).

Definition paris_fallen : GameState.t :=
  match Combat.update 1%float even_rolls paris_abandoned with
  | Some w => w
  | None => paris_abandoned
  end.

Lemma paris_fallen_session : session paris_fallen.
Proof.
  apply (session_combat 1%float even_rolls paris_abandoned);
    [|vm_compute; reflexivity].
  apply session_military, session_order.
  apply (session_combat 1%float even_rolls paris_attacked);
    [|vm_compute; reflexivity].
  apply session_create, session_create, session_declare.
  exact sample_world_session.
Qed.

Lemma war_scores_in_range_witness : 0 <= 5 <= 100.
Proof.
  apply (war_scores_in_range paris_fallen "GER" "FRA"
           (Sample.country "GER" 1 2000%float 20000 ["FRA"] [("FRA", 5)]) 5).
  - exact paris_fallen_session.
  - vm_compute. reflexivity.
  - reflexivity.
Defined.

(** ** War scores and the at-war lists *)

Definition scores_track (c : Country.t) : Prop :=
  forall e, Dict.contains e (Country.war_scores c)
            = Country.is_at_war_with e c.

Lemma scores_track_declare (b : string) (c : Country.t) :
  scores_track c -> scores_track (Country.declare_war b c).
Proof.
  intros H e. unfold Country.is_at_war_with. rewrite declare_war_mem.
  unfold Country.declare_war. destruct (mem b _) eqn:M; simpl.
  - rewrite (H e). unfold Country.is_at_war_with.
    destruct (String.eqb_spec e b) as [->|_];
      [now rewrite M|now rewrite orb_false_r].
  - rewrite dict_contains_set, (H e). unfold Country.is_at_war_with.
    apply orb_comm.
Qed.

Lemma scores_track_peace (b : string) (c : Country.t) :
  NoDup (Country.at_war_with c) ->
  scores_track c -> scores_track (Country.make_peace b c).
Proof.
  intros Hn H e. unfold Country.is_at_war_with.
  rewrite make_peace_mem by exact Hn.
  unfold Country.make_peace. destruct (mem b _) eqn:M; simpl.
  - rewrite dict_contains_del, (H e). unfold Country.is_at_war_with.
    apply andb_comm.
  - rewrite (H e). unfold Country.is_at_war_with.
    destruct (String.eqb_spec e b) as [->|_];
      [now rewrite M|now rewrite andb_true_r].
Qed.

Lemma scores_track_history (w : GameState.t) :
  diplomatic_history w ->
  forall k c, GameState.get_country k w = Some c -> scores_track c.
Proof.
  induction 1 as [w Hstart | a b w Hh IH | a b w Hh IH | w w' Hh IH Hview].
  - intros k c Hc. unfold GameState.get_country in Hc.
    apply find_some in Hc. destruct (Hstart c (proj1 Hc)) as [Ea Es].
    intros e. unfold Country.is_at_war_with. now rewrite Ea, Es.
  - destruct (GameState.get_country a w) as [ca|] eqn:Ha;
      [destruct (GameState.get_country b w) as [cb|] eqn:Hb|].
    + intros x cx' Hx.
      rewrite (proj2 (declare_war_lookup a b x ca cb w Ha Hb)) in Hx.
      destruct (GameState.get_country x w) as [cx|] eqn:Ex; [|discriminate].
      injection Hx as <-. specialize (IH x cx Ex).
      destruct (String.eqb x b), (String.eqb x a);
        repeat apply scores_track_declare; exact IH.
    + unfold Diplomacy.declare_war. rewrite Ha, Hb. exact IH.
    + unfold Diplomacy.declare_war. rewrite Ha. exact IH.
  - destruct (history_invariant w Hh) as [_ Hwf].
    destruct (GameState.get_country a w) as [ca|] eqn:Ha;
      [destruct (GameState.get_country b w) as [cb|] eqn:Hb|].
    + intros x cx' Hx.
      rewrite (make_peace_lookup a b x ca cb w Ha Hb) in Hx.
      destruct (GameState.get_country x w) as [cx|] eqn:Ex; [|discriminate].
      injection Hx as <-. specialize (IH x cx Ex).
      pose proof (Hwf x cx Ex) as Wx.
      pose proof (make_peace_wf b cx Wx) as Wx'.
      destruct (String.eqb x b), (String.eqb x a);
        repeat (apply scores_track_peace;
                [first [exact (proj1 Wx') | exact (proj1 Wx)]|]);
        exact IH.
    + unfold Diplomacy.make_peace. rewrite Ha, Hb. exact IH.
    + unfold Diplomacy.make_peace. rewrite Ha. exact IH.
  - intros k c' Hc.
    destruct (war_view_lookup k c' w w' Hview Hc) as [c [Hc0 [Ea Ek]]].
    intros e. unfold Country.is_at_war_with.
    rewrite dict_contains_keys, Ek, Ea, <- dict_contains_keys.
    apply (IH k c Hc0).
Qed.

Lemma purchase_unit_history (code : string) (cost : float) (mp : Z)
  (w : GameState.t) :
  diplomatic_history w ->
  diplomatic_history (fst (Economy.purchase_unit code cost mp w)).
Proof.
  intros H. apply (history_other w); [exact H|].
  unfold Economy.purchase_unit.
  destruct (GameState.get_country code w) as [c|] eqn:Hc; [|reflexivity].
  assert (Hput : forall x,
            Country.code x = Country.code c ->
            Country.at_war_with x = Country.at_war_with c ->
            Country.war_scores x = Country.war_scores c ->
            war_view (GameState.put_country code x w) = war_view w).
  { intros x H1 H2 H3. unfold war_view, GameState.put_country,
      GameState.update_country. simpl. unfold GameState.get_country in Hc.
    induction (GameState.countries w) as [|y r IH]; simpl; [reflexivity|].
    simpl in Hc. destruct (String.eqb (Country.code y) code); simpl.
    - injection Hc as ->. now rewrite H1, H2, H3.
    - now rewrite IH. }
  unfold Country.spend_money. destruct (PrimFloat.leb cost _); simpl.
  - unfold Country.recruit_manpower. simpl.
    destruct (mp <=? Country.manpower c); simpl; now apply Hput.
  - now apply Hput.
Qed.

Lemma history_combat_touch (w w' : GameState.t) :
  combat_touch w w' -> diplomatic_history w -> diplomatic_history w'.
Proof.
  intros T H. destruct T as [a w | bs w | r u u' damage tpl w Hr Ht
                            | r u lost w Hr | pid winner w
                            | winner loser points w Hp];
    try (apply (history_other w); [exact H|reflexivity]).
  now apply award_war_score_history.
Qed.

Lemma history_economy_touch (w w' : GameState.t) :
  economy_touch w w' -> diplomatic_history w -> diplomatic_history w'.
Proof.
  intros T H. destruct T as [a w | i amount w | i amount w];
    (apply (history_other w); [exact H|]); [reflexivity| |];
    unfold war_view; simpl; now apply map_update_nth.
Qed.

Lemma session_history (w : GameState.t) : session w -> diplomatic_history w.
Proof.
  induction 1 as [w _ _ _ Hc | dt w _ IH | code cost mp w _ IH | dt w _ IH
                 | tid owner location w _ IH | code tid pid w _ IH
                 | r d w _ IH | dt rolls w w' _ IH E | a b w _ IH
                 | a b w _ IH | a b ds w _ IH | treaty w _ IH
                 | w w' _ IH E | w _ IH | w _ IH | w _ IH
                 | pid a d w _ IH | i rolls w w' removed _ IH E
                 | i ra rd w w' _ IH E | w w' _ IH T | w w' _ IH T
                 | a b ds w _ IH].
  - now apply history_start.
  - now apply economy_update_history.
  - now apply purchase_unit_history.
  - now apply (history_other w).
  - apply (history_other w); [exact IH|]. unfold Military.create_unit.
    now destruct (GameState.get_template tid w).
  - destruct (recruit_unit_steps code tid pid w) as [->|[cost [mp ->]]];
      [exact IH|].
    eapply history_other; [apply (purchase_unit_history code cost mp w IH)|].
    unfold Military.create_unit.
    now destruct (GameState.get_template tid _).
  - now apply (history_other w).
  - eapply (combat_update_preserves diplomatic_history);
      try exact E; try exact IH;
      try (intros; now apply award_war_score_history);
      intros; eapply history_other; try eassumption; reflexivity.
  - now apply history_declare.
  - now apply history_peace.
  - apply (history_other w); [exact IH|].
    unfold Diplomacy.propose_peace_treaty.
    destruct (GameState.get_country a w); [|reflexivity].
    destruct (Dict.get b _); [|reflexivity].
    now destruct (_ <=? _).
  - now apply accept_peace_treaty_history.
  - now apply (auto_peace_history w).
  - apply (history_other w); [exact IH|].
    unfold war_view, Economy.collect_daily_income. simpl. rewrite map_map.
    now apply map_ext.
  - apply (history_other w); [exact IH|].
    unfold war_view, Economy.collect_manpower. simpl. rewrite map_map.
    now apply map_ext.
  - now apply (touched_detect diplomatic_history history_combat_touch).
  - now apply (history_other w).
  - exact (touched_tick diplomatic_history history_combat_touch
             _ _ _ _ _ E IH).
  - exact (touched_end diplomatic_history history_combat_touch
             _ _ _ _ _ E IH).
  - exact (history_combat_touch _ _ T IH).
  - exact (history_economy_touch _ _ T IH).
  - apply (fold_left_invariant diplomatic_history); [|exact IH].
    intros w' d Hw'. now apply execute_demand_history.
Qed.

(** X9: throughout a session a country keeps a war score against exactly the
    countries on its at-war list, and lists none of them twice. *)
Theorem war_scores_track_wars (w : GameState.t) (k : string)
  (c : Country.t) :
  session w ->
  GameState.get_country k w = Some c ->
  NoDup (Country.at_war_with c)
  /\ forall e, Dict.contains e (Country.war_scores c)
               = Country.is_at_war_with e c.
Proof.
  intros Hs Hc. apply session_history in Hs. split.
  - destruct (history_invariant w Hs) as [_ Hwf]. now apply (Hwf k c).
  - now apply (scores_track_history w Hs k c).
Qed.

Lemma war_scores_track_wars_witness :
  NoDup ["FRA"]
  /\ forall e, Dict.contains e [("FRA", 5)]
               = Country.is_at_war_with e
                   (Sample.country "GER" 1 2000%float 20000 ["FRA"]
                      [("FRA", 5)]).
Proof.
  apply (war_scores_track_wars paris_fallen "GER"
           (Sample.country "GER" 1 2000%float 20000 ["FRA"] [("FRA", 5)])).
  - exact paris_fallen_session.
  - vm_compute. reflexivity.
Defined.

(** ** Combat and the roster *)

Lemma award_war_score_units (winner loser : string) (points : Z)
  (w : GameState.t) :
  GameState.units (Combat._award_war_score winner loser points w)
  = GameState.units w
  /\ GameState.next_unit_id (Combat._award_war_score winner loser points w)
     = GameState.next_unit_id w
  /\ GameState.templates (Combat._award_war_score winner loser points w)
     = GameState.templates w.
Proof.
  unfold Combat._award_war_score.
  destruct (GameState.get_country winner w); [|now repeat split].
  destruct (Dict.get loser _); now repeat split.
Qed.

(** X10: the combat engine never adds a unit to the roster, never takes one off
    and never moves one: after an [update] the roster holds the same units
    in the same order, each with its identifier, template, owner, location,
    experience and movement orders as before; only hit points,
    organization and strength can differ. Destroyed units stay listed until
    the military engine sweeps them. *)
Theorem combat_update_keeps_roster (dt : float)
  (rolls : nat -> float * float) (w w' : GameState.t) :
  Combat.update dt rolls w = Some w' ->
  Forall2
    (fun u u' =>
       u' = Unit.with_combat (Unit.current_hp u') (Unit.organization u')
                             (Unit.strength u') u)
    (GameState.units w) (GameState.units w')
  /\ GameState.next_unit_id w' = GameState.next_unit_id w.
Proof.
  intros E.
  assert (H : map (Unit.with_combat 0 0 0%float) (GameState.units w')
              = map (Unit.with_combat 0 0 0%float) (GameState.units w)
              /\ GameState.next_unit_id w' = GameState.next_unit_id w).
  { eapply (combat_update_preserves
              (fun s => map (Unit.with_combat 0 0 0%float) (GameState.units s)
                        = map (Unit.with_combat 0 0 0%float) (GameState.units w)
                        /\ GameState.next_unit_id s = GameState.next_unit_id w));
      try exact E; try (intros; assumption); try (split; reflexivity).
    - intros r u u' damage tpl s [Hs Hn] Hr Ht. split; [|exact Hn].
      simpl. rewrite <- Hs. apply (map_update_nth_const _ r u); [exact Hr|].
      now apply (take_damage_id damage tpl).
    - intros winner loser points s [Hs Hn] _.
      destruct (award_war_score_units winner loser points s) as [-> [-> _]].
      now split. }
  destruct H as [Hm Hn]. split; [|exact Hn].
  clear E Hn. revert Hm.
  generalize (GameState.units w) as us, (GameState.units w') as us'.
  intros us us'. revert us.
  induction us' as [|u' r' IH]; intros [|u r] Hm; simpl in Hm;
    try discriminate; constructor.
  - destruct u, u'. unfold Unit.with_combat in *. simpl in *.
    injection Hm. intros. subst. reflexivity.
  - apply IH. injection Hm. intros. assumption.
Qed.

Lemma combat_update_keeps_roster_witness :
  Forall2
    (fun u u' =>
       u' = Unit.with_combat (Unit.current_hp u') (Unit.organization u')
                             (Unit.strength u') u)
    (GameState.units paris_attacked) (GameState.units paris_first_hour)
  /\ GameState.next_unit_id paris_first_hour
     = GameState.next_unit_id paris_attacked.
Proof.
  apply (combat_update_keeps_roster 1%float even_rolls paris_attacked).
  vm_compute. reflexivity.
Defined.

(** ** The end of a battle *)

(** X11: no province has two battles. A battle of a registered province
    ends with at least one attacker present and no defender; its first
    listed attacker [a] carries a country code. Then [end_battle] returns
    and the active list is what [list.remove] leaves of it: the first
    battle equal to this one goes, and that is this one. When [a] owns the province already, nothing else changes.
    Otherwise the province, and no other, goes to [a]; and when the
    province had an owner [o] against whom [a] keeps a war score [s], that
    score becomes [s + 5] capped at 100, while with no previous owner, or
    no score of [a] against it, the countries are as they were. *)
Theorem captured_province_changes_hands (i : nat) (battle : Battle.t)
  (province : Province.t) (present_attackers : list nat) (a : string)
  (more_a : list string) (w : GameState.t) :
  one_battle_per_province w ->
  nth_error (GameState.active_battles w) i = Some battle ->
  GameState.get_province (Battle.province_id battle) w = Some province ->
  present_attackers <> [] ->
  Battle.attackers battle = a :: more_a ->
  a <> EmptyString ->
  exists w',
    Combat.end_battle i present_attackers [] w = Some w'
    /\ GameState.active_battles w'
       = remove_object Battle.eqb battle i (GameState.active_battles w)
    /\ (Province.owner province = Some a ->
        GameState.provinces w' = GameState.provinces w
        /\ GameState.countries w' = GameState.countries w)
    /\ (Province.owner province <> Some a ->
        GameState.get_province (Battle.province_id battle) w'
        = Some (Province.with_owner (Some a) province)
        /\ (forall q, q <> Battle.province_id battle ->
                      GameState.get_province q w' = GameState.get_province q w)
        /\ (forall o ca s,
              Province.owner province = Some o ->
              o <> EmptyString ->
              GameState.get_country a w = Some ca ->
              Dict.get o (Country.war_scores ca) = Some s ->
              exists ca',
                GameState.get_country a w' = Some ca'
                /\ Dict.get o (Country.war_scores ca')
                   = Some (Z.min 100 (s + 5)))
        /\ ((forall o ca,
               Province.owner province = Some o ->
               GameState.get_country a w = Some ca ->
               Dict.get o (Country.war_scores ca) = None) ->
            GameState.countries w' = GameState.countries w)).
Proof.
  intros Hone Hb Hp Hatt Has Ha.
  rewrite (remove_at_is_list_remove i battle _ Hone Hb).
  exists (Combat.remove_battle i (Combat.attackers_won battle province w)).
  split.
  { unfold Combat.end_battle. rewrite Hb, Hp.
    destruct present_attackers as [|r rs]; [contradiction|]. reflexivity. }
  assert (Ta : truthy_str a = true) by (destruct a; [contradiction|reflexivity]).
  unfold Combat.attackers_won. rewrite Has. cbn [hd_error]. rewrite Ta.
  cbn [andb].
  destruct (Province.owned_by a province) eqn:Eo.
  - apply owned_by_owner in Eo. cbn [negb]. split; [reflexivity|].
    split; [intros _; now split|]. intros Hne. contradiction.
  - cbn [negb].
    assert (Hne : Province.owner province <> Some a).
    { intros E. apply owned_by_owner in E. congruence. }
    set (w1 := GameState.update_province (Battle.province_id battle)
                 (Province.with_owner (Some a)) w).
    assert (Hsame : GameState.get_province (Battle.province_id battle) w1
                    = Some (Province.with_owner (Some a) province)).
    { unfold w1. rewrite get_province_update_same by reflexivity.
      now rewrite Hp. }
    assert (Hother : forall q, q <> Battle.province_id battle ->
                       GameState.get_province q w1 = GameState.get_province q w).
    { intros q Hq. unfold w1. apply get_province_update_other;
        [congruence|reflexivity]. }
    destruct (Province.owner province) as [o|] eqn:Eown.
    + destruct (truthy_str o) eqn:To.
      * split; [simpl; now rewrite award_war_score_battles|].
        split; [intros E; contradiction|]. intros _.
        unfold GameState.get_province in *. simpl.
        rewrite award_war_score_provinces.
        split; [exact Hsame|]. split; [exact Hother|]. split.
        -- intros o' ca s Eo' Hno Hca Hs. injection Eo' as <-.
           destruct (award_war_score_capped a o 5 s ca w1 Hca Hs)
             as [ca' [Hg [Hsc _]]].
           exists ca'. now split.
        -- intros Hnone. rewrite award_war_score_idle; [reflexivity|].
           intros c Hc. now apply (Hnone o c).
      * split; [reflexivity|]. split; [intros E; contradiction|]. intros _.
        split; [exact Hsame|]. split; [exact Hother|]. split.
        -- intros o' ca s Eo' Hno. injection Eo' as <-.
           destruct o; [contradiction|discriminate].
        -- intros _. reflexivity.
    + split; [reflexivity|]. split; [intros E; discriminate|]. intros _.
      split; [exact Hsame|]. split; [exact Hother|]. split.
      * intros o' ca s Eo'. discriminate.
      * intros _. reflexivity.
Qed.

Lemma captured_province_changes_hands_witness :
  exists w',
    Combat.end_battle 0 [0%nat] [] paris_abandoned = Some w'
    /\ GameState.active_battles w'
       = remove_object Battle.eqb (Battle.mk 4 ["GER"] ["FRA"] 1%float) 0
           (GameState.active_battles paris_abandoned)
    /\ (Some "FRA" = Some "GER" ->
        GameState.provinces w' = GameState.provinces paris_abandoned
        /\ GameState.countries w' = GameState.countries paris_abandoned)
    /\ (Some "FRA" <> Some "GER" ->
        GameState.get_province 4 w'
        = Some (Sample.province 4 "plains" 5 5000 "GER" true)
        /\ (forall q, q <> 4 ->
                      GameState.get_province q w'
                      = GameState.get_province q paris_abandoned)
        /\ (forall o ca s,
              Some "FRA" = Some o ->
              o <> EmptyString ->
              GameState.get_country "GER" paris_abandoned = Some ca ->
              Dict.get o (Country.war_scores ca) = Some s ->
              exists ca',
                GameState.get_country "GER" w' = Some ca'
                /\ Dict.get o (Country.war_scores ca')
                   = Some (Z.min 100 (s + 5)))
        /\ ((forall o ca,
               Some "FRA" = Some o ->
               GameState.get_country "GER" paris_abandoned = Some ca ->
               Dict.get o (Country.war_scores ca) = None) ->
            GameState.countries w' = GameState.countries paris_abandoned)).
Proof.
  apply (captured_province_changes_hands 0
           (Battle.mk 4 ["GER"] ["FRA"] 1%float)
           (Sample.province 4 "plains" 5 5000 "FRA" true) [0%nat]
           "GER" [] paris_abandoned);
    try (vm_compute; reflexivity); try discriminate.
  repeat constructor. intros [].
Defined.

Lemma positions_none (test : Unit.t -> bool) (i : nat) (us : list Unit.t) :
  (forall u, In u us -> test u = false) -> Military.positions test i us = [].
Proof.
  revert i. induction us as [|u r IH]; intros i H; simpl; [reflexivity|].
  rewrite (H u) by now left. apply IH. intros x Hx. apply H. now right.
Qed.

Lemma side_units_none (pid : Z) (codes : list string) (w : GameState.t) :
  (forall u, In u (GameState.units w) -> Unit.location u = pid ->
             ~ In (Unit.owner u) codes) ->
  Combat.side_units pid codes w = [].
Proof.
  intros H. unfold Combat.side_units.
  induction codes as [|c r IH]; simpl; [reflexivity|].
  rewrite IH.
  - rewrite app_nil_r. unfold Military.refs_in_province_by_owner.
    apply positions_none. intros u Hu.
    destruct (Z.eqb_spec (Unit.location u) pid) as [El|El]; [|reflexivity].
    destruct (String.eqb_spec (Unit.owner u) c) as [Eo|Eo]; [|reflexivity].
    exfalso. apply (H u Hu El). now left.
  - intros u Hu El Hin. apply (H u Hu El). now right.
Qed.

(** X12: no province has two battles. A battle is closed without any other
    effect when its province is not registered, or when no unit of a listed
    attacker or defender stands in the province any more: the tick returns
    with the active list as [list.remove] leaves it (the first battle equal
    to this one goes, and that is this one) and provinces, countries and
    roster as they were. *)
Theorem deserted_battle_closes (i : nat) (battle : Battle.t)
  (rolls : float * float) (w : GameState.t) :
  one_battle_per_province w ->
  nth_error (GameState.active_battles w) i = Some battle ->
  GameState.get_province (Battle.province_id battle) w = None
  \/ (forall u, In u (GameState.units w) ->
                Unit.location u = Battle.province_id battle ->
                ~ In (Unit.owner u)
                     (Battle.attackers battle ++ Battle.defenders battle)) ->
  Combat.resolve_battle_tick i rolls w
  = Some (GameState.with_active_battles
            (remove_object Battle.eqb battle i (GameState.active_battles w))
            w, true).
Proof.
  intros Hone Hb H. rewrite (remove_at_is_list_remove i battle _ Hone Hb).
  unfold Combat.resolve_battle_tick. rewrite Hb.
  destruct (GameState.get_province _ w) as [province|] eqn:Hp;
    [|reflexivity].
  destruct H as [H|H]; [discriminate|].
  rewrite !side_units_none.
  - simpl. unfold Combat.end_battle. rewrite Hb, Hp. reflexivity.
  - intros u Hu El Hin. apply (H u Hu El). apply in_or_app. now right.
  - intros u Hu El Hin. apply (H u Hu El). apply in_or_app. now left.
Qed.

(** The battle of Berlin with every unit gone elsewhere. *)
Definition berlin_deserted : GameState.t :=
  Sample.with_state Sample.countries
    [ Sample.unit 1 "GER" 2 100 false None ]
    [ Battle.mk 1 ["FRA"] ["GER"] 3%float ].

Lemma deserted_battle_closes_witness :
  Combat.resolve_battle_tick 0 (1%float, 1%float) berlin_deserted
  = Some (GameState.with_active_battles [] berlin_deserted, true).
Proof.
  apply (deserted_battle_closes 0 (Battle.mk 1 ["FRA"] ["GER"] 3%float)
           (1%float, 1%float) berlin_deserted).
  - repeat constructor. intros [].
  - reflexivity.
  - right. intros u [<-|[]]. discriminate.
Defined.

(** X13: [get_battle_in_province] answers [None] exactly when
    [_has_battle_in_province] answers false; a battle it returns is on the
    active list and fought in that province; and as long as no province
    has two battles, it returns every battle of the active list when asked
    for that battle's province. *)
Theorem get_battle_in_province_finds (pid : Z) (w : GameState.t) :
  (Combat.get_battle_in_province pid w = None
   <-> Combat._has_battle_in_province pid w = false)
  /\ (forall b, Combat.get_battle_in_province pid w = Some b ->
                In b (GameState.active_battles w)
                /\ Battle.province_id b = pid)
  /\ (one_battle_per_province w ->
      forall b, In b (GameState.active_battles w) ->
                Combat.get_battle_in_province (Battle.province_id b) w
                = Some b).
Proof.
  unfold Combat.get_battle_in_province, Combat._has_battle_in_province.
  split; [|split].
  - induction (GameState.active_battles w) as [|b r IH]; simpl;
      [now split|].
    destruct (Battle.province_id b =? pid); simpl; [now split|exact IH].
  - intros b Hb. apply find_some in Hb. destruct Hb as [Hin Hp].
    split; [exact Hin|now apply Z.eqb_eq].
  - intros Hn b Hin. now apply find_by_unique_key.
Qed.

(** ** Detection of battles *)

Lemma fold_left_invariant_In {A S : Type} (P : S -> Prop) (f : S -> A -> S)
  (xs : list A) :
  (forall s x, In x xs -> P s -> P (f s x)) ->
  forall s, P s -> P (fold_left f xs s).
Proof.
  induction xs as [|x r IH]; intros Hstep s Hs; simpl; [exact Hs|].
  apply IH.
  - intros s' y Hy. apply Hstep. now right.
  - apply Hstep; [now left|exact Hs].
Qed.

(** A loop that keeps [I], and keeps [H] once it holds, ends with [H] when
    the body establishes it at one element of the list. *)
Lemma fold_left_reaches {A S : Type} (I H : S -> Prop) (f : S -> A -> S)
  (xs : list A) (x : A) :
  In x xs ->
  (forall s y, I s -> I (f s y)) ->
  (forall s y, I s -> H s -> H (f s y)) ->
  (forall s, I s -> H (f s x)) ->
  forall s, I s -> H (fold_left f xs s).
Proof.
  intros Hin HI HH Hx. induction xs as [|y r IH]; [destruct Hin|].
  intros s Hs. simpl. destruct Hin as [->|Hin].
  - assert (G : I (fold_left f r (f s x)) /\ H (fold_left f r (f s x))).
    { apply (fold_left_invariant (fun s' => I s' /\ H s')).
      - intros s' y [Hi Hh]. split; [now apply HI|now apply HH].
      - split; [now apply HI|now apply Hx]. }
    exact (proj2 G).
  - apply (IH Hin). now apply HI.
Qed.

Lemma owners_present_spec (us : list Unit.t) :
  NoDup (Combat.owners_present us)
  /\ forall o, In o (Combat.owners_present us) <-> In o (map Unit.owner us).
Proof.
  unfold Combat.owners_present.
  assert (G : forall acc,
            NoDup acc ->
            NoDup (fold_left
                     (fun acc u => if mem (Unit.owner u) acc then acc
                                   else acc ++ [Unit.owner u]) us acc)
            /\ forall o,
                 In o (fold_left
                         (fun acc u => if mem (Unit.owner u) acc then acc
                                       else acc ++ [Unit.owner u]) us acc)
                 <-> In o acc \/ In o (map Unit.owner us)).
  { induction us as [|u r IH]; intros acc Hn; simpl.
    - split; [exact Hn|]. intros o. tauto.
    - destruct (mem (Unit.owner u) acc) eqn:M.
      + destruct (IH acc Hn) as [H1 H2]. split; [exact H1|].
        intros o. rewrite H2. apply mem_In in M.
        split; [tauto|]. intros [H|[<-|H]]; tauto.
      + destruct (IH (acc ++ [Unit.owner u]) (NoDup_snoc _ _ Hn M))
          as [H1 H2].
        split; [exact H1|]. intros o. rewrite H2, in_app_iff. simpl.
        tauto. }
  destruct (G [] (NoDup_nil _)) as [H1 H2]. split; [exact H1|].
  intros o. rewrite H2. simpl. tauto.
Qed.

(** Detection reads the countries and the roster and writes the list of
    battles only. *)
Definition same_forces (w s : GameState.t) : Prop :=
  GameState.countries s = GameState.countries w
  /\ GameState.units s = GameState.units w
  /\ GameState.provinces s = GameState.provinces w.

Lemma same_forces_country (w s : GameState.t) (k : string) :
  same_forces w s -> GameState.get_country k s = GameState.get_country k w.
Proof. intros [H _]. unfold GameState.get_country. now rewrite H. Qed.

Lemma same_forces_units (w s : GameState.t) (pid : Z) :
  same_forces w s ->
  Military.get_units_in_province pid s = Military.get_units_in_province pid w.
Proof.
  intros [_ [H _]]. unfold Military.get_units_in_province. now rewrite H.
Qed.

Lemma check_pair_forces (w s : GameState.t) (pid : Z) (o1 o2 : string) :
  same_forces w s -> same_forces w (Combat.check_pair pid o1 o2 s).
Proof.
  intros H. unfold Combat.check_pair.
  destruct (GameState.get_country o1 s); [|exact H].
  destruct (GameState.get_country o2 s); [|exact H].
  destruct (Country.is_at_war_with o2 _); [|exact H].
  now destruct (negb _).
Qed.

Lemma detect_pairs_forces (w : GameState.t) (pid : Z) (owners : list string)
  (s : GameState.t) :
  same_forces w s -> same_forces w (Combat.detect_pairs pid owners s).
Proof.
  revert s. induction owners as [|o r IH]; intros s H; simpl; [exact H|].
  apply IH. apply (fold_left_invariant (same_forces w)); [|exact H].
  intros s' o2 Hs'. now apply check_pair_forces.
Qed.

Lemma detect_in_province_forces (w : GameState.t) (p : Province.t)
  (s : GameState.t) :
  same_forces w s -> same_forces w (Combat.detect_in_province p s).
Proof.
  intros H. unfold Combat.detect_in_province.
  destruct (_ <? _)%nat; [exact H|]. now apply detect_pairs_forces.
Qed.

(** What a battle opened by detection looks like: the province is
    registered; one attacker and one defender, different and both
    registered, each with a unit in the province; the attacker lists the
    defender in its at-war list; no time fought yet. *)
Definition confrontation (w : GameState.t) (b : Battle.t) : Prop :=
  exists o1 o2 c1 c2 u1 u2 p,
    b = Battle.mk (Province.province_id p) [o1] [o2] 0%float
    /\ In p (GameState.provinces w)
    /\ o1 <> o2
    /\ GameState.get_country o1 w = Some c1
    /\ GameState.get_country o2 w = Some c2
    /\ Country.is_at_war_with o2 c1 = true
    /\ In u1 (GameState.units w)
    /\ Unit.location u1 = Province.province_id p /\ Unit.owner u1 = o1
    /\ In u2 (GameState.units w)
    /\ Unit.location u2 = Province.province_id p /\ Unit.owner u2 = o2.

Definition opened (w s : GameState.t) : Prop :=
  same_forces w s
  /\ exists fresh,
       GameState.active_battles s = GameState.active_battles w ++ fresh
       /\ Forall (confrontation w) fresh
       /\ NoDup (map Battle.province_id fresh)
       /\ forall b, In b fresh ->
            Combat._has_battle_in_province (Battle.province_id b) w = false.

Lemma present_owner (w : GameState.t) (pid : Z) (o : string) :
  In o (map Unit.owner (Military.get_units_in_province pid w)) ->
  exists u, In u (GameState.units w)
            /\ Unit.location u = pid /\ Unit.owner u = o.
Proof.
  intros H. apply in_map_iff in H. destruct H as [u [Eo Hu]].
  unfold Military.get_units_in_province in Hu. apply filter_In in Hu.
  destruct Hu as [Hu El]. apply Z.eqb_eq in El. now exists u.
Qed.

Lemma has_battle_app (pid : Z) (w : GameState.t) (bs : list Battle.t) :
  Combat._has_battle_in_province pid
    (GameState.with_active_battles (GameState.active_battles w ++ bs) w)
  = Combat._has_battle_in_province pid w
    || existsb (fun b => Battle.province_id b =? pid) bs.
Proof. unfold Combat._has_battle_in_province. simpl. apply existsb_app. Qed.

Lemma check_pair_opened (w s : GameState.t) (p : Province.t)
  (o1 o2 : string) :
  In p (GameState.provinces w) ->
  o1 <> o2 ->
  In o1 (map Unit.owner
           (Military.get_units_in_province (Province.province_id p) w)) ->
  In o2 (map Unit.owner
           (Military.get_units_in_province (Province.province_id p) w)) ->
  opened w s -> opened w (Combat.check_pair (Province.province_id p) o1 o2 s).
Proof.
  intros Hp Hne H1 H2 [Hf [fresh [Ea [Hc [Hn Hnew]]]]].
  split; [now apply check_pair_forces|].
  unfold Combat.check_pair.
  rewrite !(same_forces_country w s) by exact Hf.
  destruct (GameState.get_country o1 w) as [c1|] eqn:E1;
    [|exists fresh; auto].
  destruct (GameState.get_country o2 w) as [c2|] eqn:E2;
    [|exists fresh; auto].
  destruct (Country.is_at_war_with o2 c1) eqn:Ew; [|exists fresh; auto].
  destruct (Combat._has_battle_in_province (Province.province_id p) s) eqn:Eh;
    simpl; [exists fresh; auto|].
  exists (fresh ++ [Battle.mk (Province.province_id p) [o1] [o2] 0%float]).
  unfold Combat._has_battle_in_province in Eh. rewrite Ea in Eh.
  rewrite existsb_app in Eh. apply orb_false_iff in Eh.
  destruct Eh as [Eold Enew].
  split; [rewrite Ea; now rewrite app_assoc|]. split; [|split].
  - apply Forall_app. split; [exact Hc|]. constructor; [|constructor].
    destruct (present_owner w _ o1 H1) as [u1 [Hu1 [L1 O1]]].
    destruct (present_owner w _ o2 H2) as [u2 [Hu2 [L2 O2]]].
    exists o1, o2, c1, c2, u1, u2, p. repeat split; assumption.
  - rewrite map_app. simpl. apply NoDup_app.
    + exact Hn.
    + constructor; [intros []|constructor].
    + intros x Hx [<-|[]]. apply in_map_iff in Hx.
      destruct Hx as [b [Eb Hb]].
      assert (T : existsb
                    (fun b => Battle.province_id b =? Province.province_id p)
                    fresh = true).
      { apply existsb_exists. exists b. split; [exact Hb|].
        now apply Z.eqb_eq. }
      congruence.
  - intros b Hb. apply in_app_or in Hb. destruct Hb as [Hb|[<-|[]]].
    + now apply Hnew.
    + exact Eold.
Qed.

Lemma detect_pairs_opened (w : GameState.t) (p : Province.t)
  (owners : list string) (s : GameState.t) :
  In p (GameState.provinces w) ->
  NoDup owners ->
  (forall o, In o owners ->
             In o (map Unit.owner
                     (Military.get_units_in_province
                        (Province.province_id p) w))) ->
  opened w s ->
  opened w (Combat.detect_pairs (Province.province_id p) owners s).
Proof.
  intros Hp. revert s. induction owners as [|o1 rest IH];
    intros s Hn Hpres Hs; simpl; [exact Hs|].
  apply NoDup_cons_iff in Hn. destruct Hn as [Ho1 Hn].
  apply IH; [exact Hn|intros o Ho; apply Hpres; now right|].
  apply (fold_left_invariant_In (opened w)); [|exact Hs].
  intros s' o2 Ho2 Hs'. apply check_pair_opened; try assumption.
  - intros E. subst o2. contradiction.
  - apply Hpres. now left.
  - apply Hpres. now right.
Qed.

Lemma detect_battles_opened (w : GameState.t) :
  opened w (Combat.detect_battles w).
Proof.
  unfold Combat.detect_battles.
  apply (fold_left_invariant_In (opened w)).
  - intros s p Hp Hs. unfold Combat.detect_in_province.
    destruct (_ <? _)%nat; [exact Hs|].
    rewrite (same_forces_units w s) by exact (proj1 Hs).
    destruct (owners_present_spec
                (Military.get_units_in_province (Province.province_id p) w))
      as [Hn Hin].
    apply detect_pairs_opened; try assumption.
    intros o Ho. now apply Hin.
  - split; [now repeat split|]. exists []. rewrite app_nil_r.
    repeat split; try constructor. intros b [].
Qed.

(** X14: detection changes nothing but the list of battles; it keeps every
    battle that was active, in place, and appends the battles it opens, at
    most one for a province and none for a province that had a battle.
    Each battle it opens is in a registered province, between two
    different registered countries that each have a unit there, the
    attacker listing the defender among its enemies, and starts with a
    duration of 0. *)
Theorem detect_battles_sound (w : GameState.t) :
  GameState.countries (Combat.detect_battles w) = GameState.countries w
  /\ GameState.units (Combat.detect_battles w) = GameState.units w
  /\ GameState.provinces (Combat.detect_battles w) = GameState.provinces w
  /\ exists fresh,
       GameState.active_battles (Combat.detect_battles w)
       = GameState.active_battles w ++ fresh
       /\ Forall (confrontation w) fresh
       /\ NoDup (map Battle.province_id fresh)
       /\ forall b, In b fresh ->
            Combat._has_battle_in_province (Battle.province_id b) w = false.
Proof.
  destruct (detect_battles_opened w) as [[Hc [Hu Hp]] H]. auto.
Qed.

Lemma check_pair_has_battle (q pid : Z) (o1 o2 : string) (s : GameState.t) :
  Combat._has_battle_in_province pid s = true ->
  Combat._has_battle_in_province pid (Combat.check_pair q o1 o2 s) = true.
Proof.
  intros H. unfold Combat.check_pair.
  destruct (GameState.get_country o1 s); [|exact H].
  destruct (GameState.get_country o2 s); [|exact H].
  destruct (Country.is_at_war_with o2 _); [|exact H].
  destruct (negb _); [|exact H].
  unfold Combat.start_battle. rewrite has_battle_app, H. reflexivity.
Qed.

Lemma check_pair_at_war (w s : GameState.t) (pid : Z) (o1 o2 : string)
  (c1 c2 : Country.t) :
  same_forces w s ->
  GameState.get_country o1 w = Some c1 ->
  GameState.get_country o2 w = Some c2 ->
  Country.is_at_war_with o2 c1 = true ->
  Combat._has_battle_in_province pid (Combat.check_pair pid o1 o2 s) = true.
Proof.
  intros Hf H1 H2 Hw. unfold Combat.check_pair.
  rewrite !(same_forces_country w s) by exact Hf. rewrite H1, H2, Hw.
  destruct (Combat._has_battle_in_province pid s) eqn:E; simpl; [exact E|].
  unfold Combat.start_battle. rewrite has_battle_app. simpl.
  rewrite Z.eqb_refl. apply orb_true_r.
Qed.

Lemma detect_pairs_has_battle (w : GameState.t) (q pid : Z)
  (owners : list string) (s : GameState.t) :
  same_forces w s ->
  Combat._has_battle_in_province pid s = true ->
  Combat._has_battle_in_province pid (Combat.detect_pairs q owners s) = true.
Proof.
  revert s. induction owners as [|o r IH]; intros s Hf H; simpl; [exact H|].
  assert (G : same_forces w
                (fold_left (fun w' o2 => Combat.check_pair q o o2 w') r s)
              /\ Combat._has_battle_in_province pid
                   (fold_left (fun w' o2 => Combat.check_pair q o o2 w') r s)
                 = true).
  { apply (fold_left_invariant
             (fun s' => same_forces w s'
                        /\ Combat._has_battle_in_province pid s' = true));
      [|now split].
    intros s' o2 [Hf' H']. split; [now apply check_pair_forces|].
    now apply check_pair_has_battle. }
  now apply IH.
Qed.

Lemma detect_pairs_finds (w : GameState.t) (pid : Z) (o1 o2 : string)
  (c1 c2 : Country.t) (owners : list string) (s : GameState.t) :
  GameState.get_country o1 w = Some c1 ->
  GameState.get_country o2 w = Some c2 ->
  Country.is_at_war_with o2 c1 = true ->
  Country.is_at_war_with o1 c2 = true ->
  o1 <> o2 ->
  In o1 owners -> In o2 owners ->
  same_forces w s ->
  Combat._has_battle_in_province pid (Combat.detect_pairs pid owners s) = true.
Proof.
  intros H1 H2 W12 W21 Hne. revert s.
  induction owners as [|x rest IH]; intros s Hi1 Hi2 Hf; [destruct Hi1|].
  simpl.
  assert (Hfold : same_forces w
                    (fold_left (fun w' o => Combat.check_pair pid x o w')
                               rest s)).
  { apply (fold_left_invariant (same_forces w)); [|exact Hf].
    intros s' o Hs'. now apply check_pair_forces. }
  assert (Hreach : forall a b ca cb,
            GameState.get_country a w = Some ca ->
            GameState.get_country b w = Some cb ->
            Country.is_at_war_with b ca = true ->
            x = a -> In b rest ->
            Combat._has_battle_in_province pid
              (fold_left (fun w' o => Combat.check_pair pid x o w') rest s)
            = true).
  { intros a b ca cb Ha Hb Hw -> Hin.
    apply (fold_left_reaches (same_forces w)
             (fun s' => Combat._has_battle_in_province pid s' = true)
             _ rest b Hin); try exact Hf.
    - intros s' y Hs'. now apply check_pair_forces.
    - intros s' y _ Hs'. now apply check_pair_has_battle.
    - intros s' Hs'. now apply (check_pair_at_war w s' pid a b ca cb). }
  destruct Hi1 as [E1|Hi1], Hi2 as [E2|Hi2].
  - congruence.
  - apply (detect_pairs_has_battle w); [exact Hfold|].
    now apply (Hreach o1 o2 c1 c2).
  - apply (detect_pairs_has_battle w); [exact Hfold|].
    now apply (Hreach o2 o1 c2 c1).
  - now apply IH.
Qed.

Lemma two_units_length (us : list Unit.t) (u1 u2 : Unit.t) :
  In u1 us -> In u2 us -> u1 <> u2 -> (2 <= List.length us)%nat.
Proof.
  destruct us as [|a [|b r]]; simpl.
  - intros [].
  - intros [<-|[]] [<-|[]] H. now contradiction H.
  - intros _ _ _. lia.
Qed.

(** X15: detection misses no confrontation: when units of two different
    registered countries that list each other as enemies stand in a
    registered province, that province has a battle once [detect_battles]
    has run (the one it had, or one that detection opened). *)
Theorem detect_battles_complete (w : GameState.t) (p : Province.t)
  (u1 u2 : Unit.t) (c1 c2 : Country.t) :
  In p (GameState.provinces w) ->
  In u1 (GameState.units w) ->
  In u2 (GameState.units w) ->
  Unit.location u1 = Province.province_id p ->
  Unit.location u2 = Province.province_id p ->
  Unit.owner u1 <> Unit.owner u2 ->
  GameState.get_country (Unit.owner u1) w = Some c1 ->
  GameState.get_country (Unit.owner u2) w = Some c2 ->
  Country.is_at_war_with (Unit.owner u2) c1 = true ->
  Country.is_at_war_with (Unit.owner u1) c2 = true ->
  Combat._has_battle_in_province (Province.province_id p)
    (Combat.detect_battles w) = true.
Proof.
  intros Hp Hu1 Hu2 L1 L2 Hne H1 H2 W12 W21. unfold Combat.detect_battles.
  apply (fold_left_reaches (same_forces w)
           (fun s => Combat._has_battle_in_province (Province.province_id p) s
                     = true)
           _ (GameState.provinces w) p Hp).
  - intros s q Hs. now apply detect_in_province_forces.
  - intros s q Hs Hh. unfold Combat.detect_in_province.
    destruct (_ <? _)%nat; [exact Hh|].
    now apply (detect_pairs_has_battle w).
  - intros s Hs. unfold Combat.detect_in_province.
    rewrite (same_forces_units w s) by exact Hs.
    set (us := Military.get_units_in_province (Province.province_id p) w).
    assert (I1 : In u1 us).
    { unfold us, Military.get_units_in_province. apply filter_In.
      split; [exact Hu1|now apply Z.eqb_eq]. }
    assert (I2 : In u2 us).
    { unfold us, Military.get_units_in_province. apply filter_In.
      split; [exact Hu2|now apply Z.eqb_eq]. }
    assert (Hlen : (2 <= List.length us)%nat).
    { apply (two_units_length us u1 u2 I1 I2). congruence. }
    destruct (Nat.ltb_spec (List.length us) 2) as [Hlt|_]; [lia|].
    destruct (owners_present_spec us) as [_ Hin].
    apply (detect_pairs_finds w _ (Unit.owner u1) (Unit.owner u2) c1 c2);
      try assumption.
    + apply Hin. now apply in_map.
    + apply Hin. now apply in_map.
  - now repeat split.
Qed.

Lemma detect_battles_complete_witness :
  Combat._has_battle_in_province 4 (Combat.detect_battles paris_attacked)
  = true.
Proof.
  apply (detect_battles_complete paris_attacked
           (Sample.province 4 "plains" 5 5000 "FRA" true)
           (Unit.mk 1 "infantry" "GER" 4 100 100 0 1%float false None)
           (Unit.mk 2 "infantry" "FRA" 4 100 100 0 1%float false None)
           (Sample.country "GER" 1 2000%float 20000 ["FRA"] [("FRA", 0)])
           (Sample.country "FRA" 4 1800%float 18000 ["GER"] [("GER", 0)]));
    try reflexivity; try discriminate; simpl; tauto.
Defined.

(** ** War and peace: a round trip *)

Lemma dict_del_set_fresh (k : string) (v : Z) (d : Dict.t Z) :
  Dict.contains k d = false -> Dict.del k (Dict.set k v d) = d.
Proof.
  unfold Dict.contains, Dict.del.
  induction d as [|[k0 v0] r IH]; simpl.
  - now rewrite String.eqb_refl.
  - destruct (String.eqb k0 k) eqn:E; [discriminate|].
    intros H. simpl. rewrite E. simpl. now rewrite IH.
Qed.

Lemma remove_first_snoc_fresh (x : string) (xs : list string) :
  mem x xs = false -> remove_first x (xs ++ [x]) = xs.
Proof.
  induction xs as [|y r IH]; simpl.
  - now rewrite String.eqb_refl.
  - rewrite (String.eqb_sym x y). destruct (String.eqb y x); [discriminate|].
    simpl. intros H. now rewrite IH.
Qed.

Lemma peace_after_declaration (b : string) (c : Country.t) :
  Country.is_at_war_with b c = false ->
  Dict.contains b (Country.war_scores c) = false ->
  Country.make_peace b (Country.declare_war b c) = c.
Proof.
  unfold Country.is_at_war_with, Country.declare_war, Country.make_peace.
  intros Hw Hs. rewrite Hw. simpl. rewrite mem_app, mem_single, Hw.
  rewrite String.eqb_refl. simpl.
  rewrite remove_first_snoc_fresh by exact Hw.
  rewrite dict_del_set_fresh by exact Hs. now destruct c.
Qed.

Lemma peace_without_war (b : string) (c : Country.t) :
  Country.is_at_war_with b c = false -> Country.make_peace b c = c.
Proof. unfold Country.is_at_war_with, Country.make_peace. now intros ->. Qed.

(** X16: a declaration of war between two registered countries that were not at
    war and kept no score against each other, followed by peace between
    the two, leaves every country as it was: nothing of the war remains in
    the at-war lists or in the war scores, and the rest of the state is
    untouched. *)
Theorem declare_then_peace_restores (a b : string) (ca cb : Country.t)
  (w : GameState.t) :
  GameState.get_country a w = Some ca ->
  GameState.get_country b w = Some cb ->
  Country.is_at_war_with b ca = false ->
  Country.is_at_war_with a cb = false ->
  Dict.contains b (Country.war_scores ca) = false ->
  Dict.contains a (Country.war_scores cb) = false ->
  let w' := Diplomacy.make_peace a b (fst (Diplomacy.declare_war a b w)) in
  (forall x, GameState.get_country x w' = GameState.get_country x w)
  /\ GameState.provinces w' = GameState.provinces w
  /\ GameState.units w' = GameState.units w
  /\ GameState.active_battles w' = GameState.active_battles w
  /\ GameState.pending_peace_treaties w' = GameState.pending_peace_treaties w.
Proof.
  intros Ha Hb Wa Wb Sa Sb.
  destruct (declare_war_lookup a b a ca cb w Ha Hb) as [Erun La].
  pose proof (proj2 (declare_war_lookup a b b ca cb w Ha Hb)) as Lb.
  rewrite Ha in La. rewrite Hb in Lb. simpl in La, Lb.
  cbv zeta. split.
  - intros x.
    rewrite (make_peace_lookup a b x _ _ _ La Lb).
    rewrite (proj2 (declare_war_lookup a b x ca cb w Ha Hb)).
    destruct (GameState.get_country x w) as [cx|] eqn:Ex; [|reflexivity].
    simpl. f_equal.
    destruct (String.eqb_spec x a) as [Hxa|Hxa];
      destruct (String.eqb_spec x b) as [Hxb|Hxb].
    + assert (b = a) by congruence. subst b x.
      assert (cx = ca) by congruence. subst cx.
      rewrite (declare_war_again a (Country.declare_war a ca)).
      * rewrite peace_after_declaration by assumption.
        now apply peace_without_war.
      * unfold Country.is_at_war_with. rewrite declare_war_mem.
        rewrite String.eqb_refl. apply orb_true_r.
    + subst x. assert (cx = ca) by congruence. subst cx.
      now apply peace_after_declaration.
    + subst x. assert (cx = cb) by congruence. subst cx.
      now apply peace_after_declaration.
    + reflexivity.
  - assert (F : forall s,
              GameState.provinces (Diplomacy.make_peace a b s)
              = GameState.provinces s
              /\ GameState.units (Diplomacy.make_peace a b s)
                 = GameState.units s
              /\ GameState.active_battles (Diplomacy.make_peace a b s)
                 = GameState.active_battles s
              /\ GameState.pending_peace_treaties (Diplomacy.make_peace a b s)
                 = GameState.pending_peace_treaties s).
    { intros s. unfold Diplomacy.make_peace.
      destruct (GameState.get_country a s); [|now repeat split].
      destruct (GameState.get_country b s); now repeat split. }
    destruct (F (fst (Diplomacy.declare_war a b w))) as [-> [-> [-> ->]]].
    rewrite Erun. now repeat split.
Qed.

Lemma declare_then_peace_restores_witness :
  let w' := Diplomacy.make_peace "GER" "FRA"
              (fst (Diplomacy.declare_war "GER" "FRA" Sample.world)) in
  (forall x, GameState.get_country x w' = GameState.get_country x Sample.world)
  /\ GameState.provinces w' = GameState.provinces Sample.world
  /\ GameState.units w' = GameState.units Sample.world
  /\ GameState.active_battles w' = GameState.active_battles Sample.world
  /\ GameState.pending_peace_treaties w'
     = GameState.pending_peace_treaties Sample.world.
Proof.
  apply (declare_then_peace_restores "GER" "FRA"
           (Sample.country "GER" 1 2000%float 20000 [] [])
           (Sample.country "FRA" 4 1800%float 18000 [] []) Sample.world);
    reflexivity.
Defined.

(** ** Treaties *)

(** X17: an accepted treaty of annexations hands the proposer exactly the named
    provinces that the target still owns: a named province of a third
    owner, and every province not named, stays as it is, and the countries
    are touched by the peace alone. *)
Theorem accepted_annexation (treaty : PeaceTreaty.t) (ids : list Z)
  (w : GameState.t) :
  Diplomacy.is_pending treaty w = true ->
  Forall2 (fun d pid => PeaceDemand.demand_type d = "annex_province"
                        /\ PeaceDemand.target_data d = IntData pid)
          (PeaceTreaty.demands treaty) ids ->
  let r := Diplomacy.accept_peace_treaty treaty w in
  snd r = true
  /\ (forall q,
        GameState.get_province q (fst r)
        = option_map
            (fun p =>
               if existsb (Z.eqb q) ids
                  && Province.owned_by (PeaceTreaty.to_country treaty) p
               then Province.with_owner
                      (Some (PeaceTreaty.from_country treaty)) p
               else p)
            (GameState.get_province q w))
  /\ GameState.countries (fst r)
     = GameState.countries
         (Diplomacy.make_peace (PeaceTreaty.from_country treaty)
            (PeaceTreaty.to_country treaty) w).
Proof.
  intros Hp Hd. unfold Diplomacy.accept_peace_treaty. rewrite Hp. simpl.
  split; [reflexivity|].
  change (fold_left
            (fun w' demand =>
               Diplomacy._execute_demand (PeaceTreaty.from_country treaty)
                 (PeaceTreaty.to_country treaty) demand w')
            (PeaceTreaty.demands treaty) w)
    with (Diplomacy._execute_demands_list (PeaceTreaty.from_country treaty)
            (PeaceTreaty.to_country treaty) (PeaceTreaty.demands treaty) w).
  split.
  - intros q.
    transitivity
      (GameState.get_province q
         (Diplomacy._execute_demands_list (PeaceTreaty.from_country treaty)
            (PeaceTreaty.to_country treaty) (PeaceTreaty.demands treaty) w)).
    + unfold GameState.get_province. simpl.
      now rewrite make_peace_provinces.
    + rewrite (execute_annex_list_lookup _ _ q _ ids w Hd). reflexivity.
  - apply make_peace_countries_only. apply execute_annex_list_countries.
    clear Hp. induction Hd as [|d pid ds ps [Ht _] _ IH]; constructor;
      assumption.
Qed.

Lemma accepted_annexation_witness :
  let r := Diplomacy.accept_peace_treaty lyon_treaty lyon_pending in
  snd r = true
  /\ (forall q,
        GameState.get_province q (fst r)
        = option_map
            (fun p =>
               if existsb (Z.eqb q) [5] && Province.owned_by "FRA" p
               then Province.with_owner (Some "GER") p
               else p)
            (GameState.get_province q lyon_pending))
  /\ GameState.countries (fst r)
     = GameState.countries (Diplomacy.make_peace "GER" "FRA" lyon_pending).
Proof.
  apply (accepted_annexation lyon_treaty [5] lyon_pending).
  - reflexivity.
  - repeat constructor.
Defined.

Lemma payload_list_eqb_refl (ds : list PeaceDemand.t) :
  Forall (fun d => payload_eqb (PeaceDemand.target_data d)
                               (PeaceDemand.target_data d) = true) ds ->
  list_eqb PeaceDemand.eqb ds ds = true.
Proof.
  induction 1 as [|d r Hd _ IH]; simpl; [reflexivity|].
  unfold PeaceDemand.eqb at 1. now rewrite String.eqb_refl, Hd, Z.eqb_refl, IH.
Qed.

(** X18: [propose_peace_treaty] either refuses, returning [None] and leaving
    the state as it is, or returns the treaty it has put at the end of the
    pending list. It accepts when the proposer is registered and keeps a
    war score against the target that covers the sum of the costs of the
    demands, and only then. A treaty it returned is pending on the state
    it left, provided every payload is equal to itself (no amount is a
    NaN), and is accepted there by [accept_peace_treaty], provided also
    that the amounts of its reparations are within the floats (beyond them
    the acceptance raises [OverflowError]). *)
Theorem proposed_treaty_is_acceptable (a b : string)
  (ds : list PeaceDemand.t) (w : GameState.t) :
  let total :=
    fold_left (fun acc d => acc + PeaceDemand.war_score_cost d) ds 0 in
  let r := Diplomacy.propose_peace_treaty a b ds w in
  (snd r = None -> fst r = w)
  /\ (snd r <> None <->
      exists c s, GameState.get_country a w = Some c
                  /\ Dict.get b (Country.war_scores c) = Some s
                  /\ total <= s)
  /\ (forall t, snd r = Some t ->
        t = PeaceTreaty.mk a b ds total
        /\ fst r
           = GameState.with_pending
               (GameState.pending_peace_treaties w ++ [t]) w
        /\ (Forall (fun d => payload_eqb (PeaceDemand.target_data d)
                                         (PeaceDemand.target_data d) = true)
                   ds ->
            Diplomacy.is_pending t (fst r) = true
            /\ (amounts_in_range ds ->
                snd (Diplomacy.accept_peace_treaty t (fst r)) = true))).
Proof.
  cbv zeta. unfold Diplomacy.propose_peace_treaty.
  set (total := fold_left _ ds 0).
  destruct (GameState.get_country a w) as [c|] eqn:Hc.
  - destruct (Dict.get b (Country.war_scores c)) as [s|] eqn:Hs.
    + destruct (Z.leb_spec total s) as [Hle|Hgt]; simpl.
      * split; [discriminate|]. split.
        -- split; [intros _; exists c, s; auto|discriminate].
        -- intros t E. injection E as <-. split; [reflexivity|].
           split; [reflexivity|]. intros Hrefl.
           assert (Hin : Diplomacy.is_pending (PeaceTreaty.mk a b ds total)
                           (GameState.with_pending
                              (GameState.pending_peace_treaties w
                               ++ [PeaceTreaty.mk a b ds total]) w) = true).
           { unfold Diplomacy.is_pending. simpl.
             rewrite existsb_app. simpl. unfold PeaceTreaty.eqb at 2. simpl.
             rewrite !String.eqb_refl, Z.eqb_refl.
             rewrite (payload_list_eqb_refl ds Hrefl). simpl.
             apply orb_true_r. }
           split; [exact Hin|]. intros _.
           unfold Diplomacy.accept_peace_treaty. now rewrite Hin.
      * split; [reflexivity|]. split; [|discriminate].
        split; [intros H; now contradiction H|].
        intros [c' [s' [E1 [E2 Hle]]]].
        assert (s' = s) by congruence. lia.
    + simpl. split; [reflexivity|]. split; [|discriminate].
      split; [intros H; now contradiction H|].
      intros [c' [s' [E1 [E2 _]]]]. congruence.
  - simpl. split; [reflexivity|]. split; [|discriminate].
    split; [intros H; now contradiction H|].
    intros [c' [s' [E1 _]]]. discriminate.
Qed.

(** ** Forced peace: the idle call *)

(** X19: as long as no war score has reached 100, [auto_peace_at_100] returns
    and changes nothing. *)
Theorem auto_peace_idle_below_100 (w : GameState.t) :
  (forall c, In c (GameState.countries w) ->
             forall k v, In (k, v) (Dict.items (Country.war_scores c)) ->
                         v < 100) ->
  Diplomacy.auto_peace_at_100 w = Some w.
Proof.
  intros H. unfold Diplomacy.auto_peace_at_100.
  assert (Hc : forall code, Diplomacy.auto_peace_country w code = Some w).
  { intros code. unfold Diplomacy.auto_peace_country.
    destruct (GameState.get_country code w) as [c|] eqn:Hc; [|reflexivity].
    unfold GameState.get_country in Hc. apply find_some in Hc.
    pose proof (H c (proj1 Hc)) as Hlow.
    induction (Dict.items (Country.war_scores c)) as [|[k v] r IH];
      [reflexivity|].
    cbn [foldM]. rewrite force_peace_run.
    destruct (Z.leb_spec 100 v) as [Hv|_].
    - specialize (Hlow k v (or_introl eq_refl)). lia.
    - simpl. apply IH. intros k' v' Hin. apply (Hlow k' v'). now right. }
  induction (map Country.code (GameState.countries w)) as [|code r IH];
    [reflexivity|].
  simpl. now rewrite Hc.
Qed.

Lemma auto_peace_idle_below_100_witness :
  Diplomacy.auto_peace_at_100 at_war_world = Some at_war_world.
Proof.
  apply auto_peace_idle_below_100. simpl.
  intros c [<-|[<-|[<-|[]]]] k v; simpl; intros Hin;
    repeat (destruct Hin as [E|Hin]; [injection E as _ <-; lia|]);
    destruct Hin.
Defined.

(** ** The price of a demand *)

(** The reparations of an [int] amount are priced on the exact quotient
    by 500: an amount above 2^53 is not rounded before the division, and an
    amount beyond the floats is priced as long as the quotient is a
    float. *)
Lemma demand_cost_of_large_amounts :
  Diplomacy._calculate_demand_cost "war_reparations"
    (IntData 9007199254740999) Sample.world = Some 18014398509481
  /\ Diplomacy._calculate_demand_cost "war_reparations"
       (IntData (4 * 10 ^ 310)) Sample.world
     = option_map (Z.max 5)
         (match int_truediv (4 * 10 ^ 310) 500 with
          | Some q => int_of_float q
          | None => None
          end)
  /\ int_truediv (4 * 10 ^ 310) 500 = Some 8e307%float
  /\ Diplomacy._calculate_demand_cost "war_reparations"
       (IntData (10 ^ 400)) Sample.world = None
  /\ Diplomacy._calculate_demand_cost "war_reparations"
       (FloatData 1250) Sample.world = Some 5
  /\ Diplomacy._calculate_demand_cost "war_reparations"
       (IntData 3000) Sample.world = Some 6.
Proof. vm_compute. repeat split. Qed.

(** X20: whatever the kind of the demand and its payload, the cost that
    [_calculate_demand_cost] returns is at least 5, as long as no
    registered province has a negative development; the annexation of a
    registered province costs 5 plus twice its development; reparations
    cost the amount divided by 500 (the true division of two [int]s when
    the amount is an [int]), truncated to an [int], and 5 at least. *)
Theorem demand_cost_at_least_five (kind : string) (data : payload)
  (cost : Z) (w : GameState.t) :
  (forall p, In p (GameState.provinces w) -> 0 <= Province.development p) ->
  Diplomacy._calculate_demand_cost kind data w = Some cost ->
  5 <= cost
  /\ (forall pid p, kind = "annex_province" -> data = IntData pid ->
                    GameState.get_province pid w = Some p ->
                    cost = 5 + 2 * Province.development p)
  /\ (kind = "war_reparations" ->
      exists q n,
        match data with
        | IntData m => int_truediv m 500
        | FloatData x => Some (x / 500)%float
        end = Some q
        /\ int_of_float q = Some n
        /\ cost = Z.max 5 n).
Proof.
  intros Hdev. unfold Diplomacy._calculate_demand_cost.
  assert (Inj : forall x y : Z, Some x = Some y -> x = y)
    by (intros x y E; congruence).
  destruct (String.eqb_spec kind "annex_province") as [Ek|Ek].
  - destruct (payload_key data) as [pid|] eqn:Ed.
    + destruct (GameState.get_province pid w) as [p|] eqn:Hp.
      * intros E. apply Inj in E. split; [|split].
        -- unfold GameState.get_province in Hp. apply find_some in Hp.
           specialize (Hdev p (proj1 Hp)). lia.
        -- intros pid' p' _ Edata Hp'. rewrite Edata in Ed. simpl in Ed.
           assert (pid' = pid) by congruence. subst pid'.
           assert (p' = p) by congruence. subst p'. lia.
        -- intros K. rewrite K in Ek. discriminate.
      * intros E. apply Inj in E. split; [lia|]. split.
        -- intros pid' p' _ Edata Hp'. rewrite Edata in Ed. simpl in Ed.
           assert (pid' = pid) by congruence. subst pid'. congruence.
        -- intros K. rewrite K in Ek. discriminate.
    + intros E. apply Inj in E. split; [lia|]. split.
      * intros pid' p' _ Edata. rewrite Edata in Ed. discriminate.
      * intros K. rewrite K in Ek. discriminate.
  - destruct (String.eqb_spec kind "war_reparations") as [Er|Er].
    + unfold Diplomacy.amount_per_500.
      destruct (match data with
                | IntData m => int_truediv m 500
                | FloatData x => Some (x / 500)%float
                end) as [q|]; [|discriminate].
      simpl. destruct (int_of_float q) as [n|] eqn:En; [|discriminate].
      intros E. apply Inj in E. split; [lia|]. split.
      * intros ? ? ?. contradiction.
      * intros _. exists q, n. repeat split; [exact En|now symmetry].
    + destruct (String.eqb kind "release_nation");
        [|destruct (String.eqb kind "military_access")];
        intros E; apply Inj in E; (split; [lia|]);
        (split; [intros ? ? ?|intros ?]; contradiction).
Qed.

Lemma demand_cost_at_least_five_witness :
  5 <= 6
  /\ (forall pid p, "war_reparations" = "annex_province" ->
                    IntData 3000 = IntData pid ->
                    GameState.get_province pid Sample.world = Some p ->
                    6 = 5 + 2 * Province.development p)
  /\ ("war_reparations" = "war_reparations" ->
      exists q n,
        int_truediv 3000 500 = Some q
        /\ int_of_float q = Some n
        /\ 6 = Z.max 5 n).
Proof.
  apply (demand_cost_at_least_five "war_reparations" (IntData 3000) 6
           Sample.world).
  - simpl. intros p H.
    repeat (destruct H as [<-|H]; [simpl; lia|]). destruct H.
  - reflexivity.
Defined.

(** ** War reparations *)

(** The comparison of two floats, read in one direction and in the
    other. *)
Lemma SFcompare_antisym (x y : spec_float) :
  SFcompare y x = option_map CompOpp (SFcompare x y).
Proof.
  destruct x as [sx|sx| |sx mx ex], y as [sy|sy| |sy my ey]; simpl;
    try reflexivity;
    try (destruct sx; reflexivity); try (destruct sy; reflexivity);
    try (destruct sx, sy; reflexivity).
  destruct sx, sy; try reflexivity;
    rewrite (Z.compare_antisym ex ey);
    destruct (ex ?= ey) eqn:E; simpl; try reflexivity;
    change (PosDef.Pos.compare_cont Eq my mx) with (Pos.compare_cont Eq my mx);
    rewrite (Pos.compare_cont_antisym mx my Eq); simpl;
    now destruct (Pos.compare_cont Eq mx my).
Qed.

(** [min(d, m) <= m] for two floats that are not NaN. *)
Lemma float_min_covered (m d : float) :
  PrimFloat.eqb m m = true -> PrimFloat.eqb d d = true ->
  PrimFloat.leb (if PrimFloat.ltb m d then m else d) m = true.
Proof.
  rewrite !eqb_spec, ltb_spec. unfold SFeqb, SFltb. intros Hm Hd.
  destruct (SFcompare (Prim2SF m) (Prim2SF d)) as [c|] eqn:E.
  - assert (E' : SFcompare (Prim2SF d) (Prim2SF m) = Some (CompOpp c))
      by (rewrite SFcompare_antisym, E; reflexivity).
    destruct c; rewrite leb_spec; unfold SFleb; rewrite ?E'; simpl;
      try reflexivity.
    now destruct (SFcompare (Prim2SF m) (Prim2SF m)) as [[]|].
  - exfalso. destruct (Prim2SF m), (Prim2SF d); simpl in *; discriminate.
Qed.

Lemma spend_money_code (amount : float) (c : Country.t) :
  Country.code (fst (Country.spend_money amount c)) = Country.code c.
Proof. unfold Country.spend_money. now destruct (PrimFloat.leb _ _). Qed.

(** X21: a demand of war reparations between two different registered countries
    moves [min(demanded, loser's money)] from the loser to the winner:
    that amount is covered by the loser's money, the loser is debited and
    the winner credited by exactly it, and no other country and no
    province changes. Neither the demanded amount nor the loser's money is
    a NaN, and a demanded amount that is an [int] is within the range of
    the floats (beyond it the subtraction raises [OverflowError]). *)
Theorem reparations_are_covered (winner loser : string) (d : PeaceDemand.t)
  (cl cw : Country.t) (w : GameState.t) :
  PeaceDemand.demand_type d = "war_reparations" ->
  winner <> loser ->
  GameState.get_country loser w = Some cl ->
  GameState.get_country winner w = Some cw ->
  PrimFloat.eqb (Country.money cl) (Country.money cl) = true ->
  PrimFloat.eqb (payload_float (PeaceDemand.target_data d))
                (payload_float (PeaceDemand.target_data d)) = true ->
  payload_in_range (PeaceDemand.target_data d) = true ->
  let demanded := payload_float (PeaceDemand.target_data d) in
  let amount :=
    if PrimFloat.ltb (Country.money cl) demanded
    then Country.money cl else demanded in
  let w' := Diplomacy._execute_demand winner loser d w in
  PrimFloat.leb amount (Country.money cl) = true
  /\ GameState.get_country loser w'
     = Some (Country.with_money (Country.money cl - amount)%float cl)
  /\ GameState.get_country winner w'
     = Some (Country.with_money (Country.money cw + amount)%float cw)
  /\ (forall x, x <> winner -> x <> loser ->
                GameState.get_country x w' = GameState.get_country x w)
  /\ GameState.provinces w' = GameState.provinces w.
Proof.
  intros Ht Hne Hl Hw Nm Nd _. cbv zeta.
  pose proof (float_min_covered _ _ Nm Nd) as Hcov.
  split; [exact Hcov|].
  unfold Diplomacy._execute_demand. rewrite Ht.
  replace (String.eqb "war_reparations" "annex_province") with false
    by reflexivity.
  rewrite String.eqb_refl, Hl, Hw.
  set (amount := if PrimFloat.ltb _ _ then _ else _) in *.
  assert (L : forall x,
            GameState.get_country x
              (GameState.update_country winner (Country.add_money amount)
                 (GameState.update_country loser
                    (fun c => fst (Country.spend_money amount c)) w))
            = option_map
                (fun c => (if String.eqb x winner
                           then Country.add_money amount else fun y => y)
                            ((if String.eqb x loser
                              then fun c => fst (Country.spend_money amount c)
                              else fun y => y) c))
                (GameState.get_country x w)).
  { intros x. apply get_country_update_twice.
    - intros c. apply spend_money_code.
    - reflexivity. }
  assert (Nwl : String.eqb winner loser = false) by now apply String.eqb_neq.
  assert (Nlw : String.eqb loser winner = false)
    by (rewrite String.eqb_sym; exact Nwl).
  split; [|split; [|split]].
  - rewrite L, Hl. simpl. rewrite String.eqb_refl, Nlw.
    unfold Country.spend_money. now rewrite Hcov.
  - rewrite L, Hw. simpl. now rewrite String.eqb_refl, Nwl.
  - intros x Hxw Hxl. rewrite L.
    apply String.eqb_neq in Hxw, Hxl. rewrite Hxw, Hxl.
    now destruct (GameState.get_country x w).
  - reflexivity.
Qed.

Lemma reparations_are_covered_witness :
  let w' := Diplomacy._execute_demand "GER" "FRA"
              (PeaceDemand.mk "war_reparations" (IntData 3000) 6)
              at_war_world in
  PrimFloat.leb 1800%float 1800%float = true
  /\ GameState.get_country "FRA" w'
     = Some (Sample.country "FRA" 4 0%float 18000 ["GER"] [("GER", 10)])
  /\ GameState.get_country "GER" w'
     = Some (Sample.country "GER" 1 3800%float 20000 ["FRA"] [("FRA", 40)])
  /\ (forall x, x <> "GER" -> x <> "FRA" ->
                GameState.get_country x w'
                = GameState.get_country x at_war_world)
  /\ GameState.provinces w' = GameState.provinces at_war_world.
Proof.
  apply (reparations_are_covered "GER" "FRA"
           (PeaceDemand.mk "war_reparations" (IntData 3000) 6)
           (Sample.country "FRA" 4 1800%float 18000 ["GER"] [("GER", 10)])
           (Sample.country "GER" 1 2000%float 20000 ["FRA"] [("FRA", 40)])
           at_war_world);
    try reflexivity; discriminate.
Defined.

(** ** The calendar *)

Lemma rollover_spec (fuel : nat) (day month year : Z) :
  1 <= day -> day <= Z.of_nat fuel -> 1 <= month <= 12 ->
  Game.rollover fuel day month year
  = ((day - 1) mod 30 + 1,
     (month - 1 + (day - 1) / 30) mod 12 + 1,
     year + (month - 1 + (day - 1) / 30) / 12).
Proof.
  revert day month year.
  induction fuel as [|fuel IH]; intros day month year Hd Hf Hm; [lia|].
  cbn [Game.rollover]. unfold Game.days_in_month.
  destruct (Z.ltb_spec 30 day) as [Hlt|Hle].
  - assert (Ed : day - 1 = (day - 30 - 1) + 1 * 30) by lia.
    assert (Hq : 0 <= (day - 30 - 1) / 30) by (apply Z.div_pos; lia).
    rewrite Ed, Z_mod_plus_full, Z_div_plus_full by lia.
    destruct (Z.ltb_spec 12 (month + 1)) as [H12|H12].
    + rewrite IH by lia. assert (month = 12) by lia. subst month.
      replace (12 - 1 + ((day - 30 - 1) / 30 + 1))
        with ((1 - 1 + (day - 30 - 1) / 30) + 1 * 12) by lia.
      rewrite Z_mod_plus_full, Z_div_plus_full by lia.
      f_equal. lia.
    + rewrite IH by lia.
      replace (month + 1 - 1 + (day - 30 - 1) / 30)
        with (month - 1 + ((day - 30 - 1) / 30 + 1)) by lia.
      reflexivity.
  - rewrite (Z.mod_small (day - 1) 30) by lia.
    rewrite (Z.div_small (day - 1) 30) by lia.
    rewrite Z.add_0_r, (Z.mod_small (month - 1) 12) by lia.
    rewrite (Z.div_small (month - 1) 12) by lia.
    f_equal; [f_equal|]; lia.
Qed.

(** X22: for a game time that is not negative (and finite), [get_current_date]
    returns, and names the date of a calendar of twelve months of thirty
    days that starts on January 1, 1936: with [d] full days elapsed it
    prints day [d mod 30 + 1] of month [(d / 30) mod 12 + 1] of year
    [1936 + d / 360]. The loop over the months stops of itself, with the
    day between 1 and 30 and the month between 1 and 12. *)
Theorem current_date_closed_form (game_time : float) (hours : Z) :
  int_of_float game_time = Some hours ->
  0 <= hours ->
  let d := hours / 24 in
  let day := d mod 30 + 1 in
  let month := (d / 30) mod 12 + 1 in
  let year := 1936 + d / 360 in
  Game.current_date game_time = Some (day, month, year)
  /\ 1 <= day <= 30
  /\ 1 <= month <= 12
  /\ exists name,
       nth_error Game.month_names (Z.to_nat month) = Some name
       /\ name <> EmptyString
       /\ Game.get_current_date game_time
          = Some (name ++ " " ++ Game.str day ++ ", " ++ Game.str year)%string.
Proof.
  intros Hh Hpos. cbv zeta.
  assert (Hd : 0 <= hours / 24) by (apply Z.div_pos; lia).
  set (d := hours / 24) in *.
  assert (Hday : 1 <= d mod 30 + 1 <= 30)
    by (pose proof (Z.mod_pos_bound d 30); lia).
  assert (Hmonth : 1 <= (d / 30) mod 12 + 1 <= 12)
    by (pose proof (Z.mod_pos_bound (d / 30) 12); lia).
  assert (Hdate : Game.current_date game_time
                  = Some (d mod 30 + 1, (d / 30) mod 12 + 1, 1936 + d / 360)).
  { unfold Game.current_date. rewrite Hh. fold d.
    unfold Game.start_day, Game.start_month, Game.start_year.
    rewrite rollover_spec by lia.
    replace (1 + d - 1) with d by lia. rewrite Z.sub_diag, Z.add_0_l.
    rewrite Z.div_div by lia. reflexivity. }
  split; [exact Hdate|]. split; [exact Hday|]. split; [exact Hmonth|].
  unfold Game.get_current_date. rewrite Hdate.
  set (m := (d / 30) mod 12 + 1) in *.
  assert (Hm : (1 <= Z.to_nat m <= 12)%nat) by lia.
  destruct (Z.to_nat m) as [|n]; [lia|].
  do 12 (destruct n as [|n];
         [eexists; split; [reflexivity|split; [discriminate|reflexivity]]|]).
  lia.
Qed.

Lemma current_date_closed_form_witness :
  Game.current_date 8759.9%float = Some (5, 1, 1937)
  /\ 1 <= 5 <= 30
  /\ 1 <= 1 <= 12
  /\ exists name,
       nth_error Game.month_names 1 = Some name
       /\ name <> EmptyString
       /\ Game.get_current_date 8759.9%float
          = Some (name ++ " " ++ Game.str 5 ++ ", " ++ Game.str 1937)%string.
Proof.
  apply (current_date_closed_form 8759.9%float 8759).
  - vm_compute. reflexivity.
  - lia.
Defined.

(** ** Recruitment and the unit counts *)

Lemma recruit_unit_run (code tid : string) (pid : Z) (w : GameState.t) :
  Military.recruit_unit code tid pid w
  = match GameState.get_template tid w with
    | Some tpl =>
        if Economy.can_afford_unit code (UnitTemplate.cost tpl)
             (UnitTemplate.manpower_cost tpl) w
        then (fst (Military.create_unit tid code pid
                     (fst (Economy.purchase_unit code (UnitTemplate.cost tpl)
                             (UnitTemplate.manpower_cost tpl) w))),
              true)
        else (w, false)
    | None => (w, false)
    end.
Proof.
  unfold Military.recruit_unit.
  destruct (GameState.get_template tid w) as [tpl|] eqn:Ht; [|reflexivity].
  pose proof (purchase_unit_flag code (UnitTemplate.cost tpl)
                (UnitTemplate.manpower_cost tpl) w) as Hs.
  destruct (Economy.can_afford_unit _ _ _ w); [|reflexivity].
  destruct (Economy.purchase_unit code _ _ w) as [w1 bought] eqn:E.
  simpl in Hs. subst bought. cbn [negb fst].
  assert (Ht1 : GameState.get_template tid w1 = Some tpl).
  { rewrite <- Ht. replace w1 with (fst (Economy.purchase_unit code
        (UnitTemplate.cost tpl) (UnitTemplate.manpower_cost tpl) w))
      by now rewrite E.
    unfold Economy.purchase_unit.
    destruct (GameState.get_country code w) as [c|]; [|reflexivity].
    destruct (Country.spend_money _ c) as [c1 []]; [|reflexivity].
    now destruct (Country.recruit_manpower _ c1). }
  unfold Military.create_unit. now rewrite Ht1.
Qed.

Lemma purchase_unit_roster (code : string) (cost : float) (mp : Z)
  (w : GameState.t) :
  GameState.units (fst (Economy.purchase_unit code cost mp w))
  = GameState.units w
  /\ GameState.templates (fst (Economy.purchase_unit code cost mp w))
     = GameState.templates w
  /\ GameState.provinces (fst (Economy.purchase_unit code cost mp w))
     = GameState.provinces w.
Proof.
  unfold Economy.purchase_unit.
  destruct (GameState.get_country code w) as [c|]; [|now repeat split].
  destruct (Country.spend_money cost c) as [c1 []]; [|now repeat split].
  destruct (Country.recruit_manpower mp c1); now repeat split.
Qed.

Lemma count_units_frame (code category : string) (w s : GameState.t) :
  GameState.units s = GameState.units w ->
  GameState.templates s = GameState.templates w ->
  Military.count_units_by_category code category s
  = Military.count_units_by_category code category w.
Proof.
  intros Hu Ht. unfold Military.count_units_by_category,
    Military.get_units_by_owner, GameState.get_template.
  now rewrite Hu, Ht.
Qed.

(** X23: a recruitment that returns true raises by one the count that
    [count_units_by_category] gives for the recruiting country and the
    category of the template, and changes no other count; a recruitment
    that returns false changes no count. *)
Theorem recruit_unit_counts (code tid owner category : string) (pid : Z)
  (w : GameState.t) :
  let r := Military.recruit_unit code tid pid w in
  Military.count_units_by_category owner category (fst r)
  = Military.count_units_by_category owner category w
    + (if snd r then
         match GameState.get_template tid w with
         | Some tpl =>
             if String.eqb code owner
                && String.eqb (UnitTemplate.category tpl) category
             then 1 else 0
         | None => 0
         end
       else 0).
Proof.
  cbv zeta. rewrite recruit_unit_run.
  destruct (GameState.get_template tid w) as [tpl|] eqn:Ht; simpl; [|lia].
  destruct (Economy.can_afford_unit _ _ _ w); simpl; [|lia].
  destruct (purchase_unit_roster code (UnitTemplate.cost tpl)
              (UnitTemplate.manpower_cost tpl) w) as [Hu [Htp _]].
  rewrite count_after_create_unit.
  rewrite (count_units_frame owner category w) by assumption.
  unfold GameState.get_template in *. now rewrite Htp, Ht.
Qed.

(** ** The economic decision of the AI *)

(** X24: the economic decision of the AI changes the state by one recruitment
    at most: of an infantry unit, in the capital of the country, which the
    country owns, and when the country has more than 500 money, more than
    5000 manpower and fewer than 5 land units. It never takes a country
    with at most 5 land units above 5. *)
Theorem ai_recruits_up_to_five (country : Country.t) (w : GameState.t) :
  let code := Country.code country in
  let w' := AI.make_economic_decisions country w in
  Military.count_units_by_category code "land" w'
  <= Z.max 5 (Military.count_units_by_category code "land" w)
  /\ (w' <> w ->
      PrimFloat.ltb 500 (Country.money country) = true
      /\ 5000 < Country.manpower country
      /\ Military.count_units_by_category code "land" w < 5
      /\ exists capital,
           GameState.get_province (Country.capital_province_id country) w
           = Some capital
           /\ Province.owner capital = Some code
           /\ Military.recruit_unit code "infantry"
                (Province.province_id capital) w = (w', true)).
Proof.
  cbv zeta.
  set (code := Country.code country).
  set (n := Military.count_units_by_category code "land" w).
  assert (Hcase :
            AI.make_economic_decisions country w = w
            \/ (PrimFloat.ltb 500 (Country.money country) = true
                /\ 5000 < Country.manpower country
                /\ n < 5
                /\ exists capital,
                     GameState.get_province
                       (Country.capital_province_id country) w = Some capital
                     /\ Province.owned_by code capital = true
                     /\ AI.make_economic_decisions country w
                        = fst (Military.recruit_unit code "infantry"
                                 (Province.province_id capital) w))).
  { unfold AI.make_economic_decisions, AI.consider_recruiting_units.
    fold code. fold n.
    destruct (PrimFloat.ltb 500 (Country.money country)); [|now left].
    destruct (Z.ltb_spec 5000 (Country.manpower country)); [|now left].
    cbn [andb]. destruct (Z.ltb_spec n 5); [|now left].
    destruct (GameState.get_province _ w) as [capital|]; [|now left].
    destruct (Province.owned_by code capital) eqn:Eo; [|now left].
    right. repeat split; try assumption. now exists capital. }
  destruct Hcase as [->|[Em [Ep [En [capital [Ec [Eo ->]]]]]]].
  - split; [fold n; lia|intros H; now contradiction H].
  - pose proof (recruit_unit_run code "infantry"
                  (Province.province_id capital) w) as Hrun.
    split.
    + rewrite Hrun.
      destruct (GameState.get_template "infantry" w) as [tpl|] eqn:Ht;
        [|simpl; fold n; lia].
      destruct (Economy.can_afford_unit _ _ _ w); [|simpl; fold n; lia].
      cbn [fst].
      destruct (purchase_unit_roster code (UnitTemplate.cost tpl)
                  (UnitTemplate.manpower_cost tpl) w) as [Hu [Htp _]].
      rewrite count_after_create_unit.
      rewrite (count_units_frame code "land" w) by assumption. fold n.
      replace (GameState.get_template "infantry"
                 (fst (Economy.purchase_unit code (UnitTemplate.cost tpl)
                         (UnitTemplate.manpower_cost tpl) w)))
        with (Some tpl)
        by (rewrite <- Ht; unfold GameState.get_template; now rewrite Htp).
      destruct (_ && _); lia.
    + intros Hne. repeat split; try assumption.
      exists capital. split; [exact Ec|]. split.
      * now apply owned_by_owner.
      * rewrite Hrun in *.
        destruct (GameState.get_template "infantry" w) as [tpl|];
          [|now contradiction Hne].
        destruct (Economy.can_afford_unit _ _ _ w);
          [reflexivity|now contradiction Hne].
Qed.

(** ** Forced peace: nothing decided is left *)

(** Country [k] holds no score of 100 or more against a registered
    country. *)
Definition undecided (k : string) (w : GameState.t) : Prop :=
  forall c e v,
    GameState.get_country k w = Some c ->
    In (e, v) (Dict.items (Country.war_scores c)) ->
    100 <= v -> known e w = false.

Lemma auto_peace_nothing_decided (w : GameState.t) :
  (forall k, undecided k w) -> Diplomacy.auto_peace_at_100 w = Some w.
Proof.
  intros H. unfold Diplomacy.auto_peace_at_100.
  assert (Hc : forall code, Diplomacy.auto_peace_country w code = Some w).
  { intros code. unfold Diplomacy.auto_peace_country.
    destruct (GameState.get_country code w) as [c|] eqn:Hc; [|reflexivity].
    pose proof (fun e v => H code c e v Hc) as Hlow. clear Hc.
    induction (Dict.items (Country.war_scores c)) as [|[k v] r IH];
      [reflexivity|].
    cbn [foldM]. rewrite force_peace_run.
    destruct (Z.leb_spec 100 v) as [Hv|_].
    - rewrite (Hlow k v (or_introl eq_refl) Hv). simpl.
      apply IH. intros e' v' Hin. apply Hlow. now right.
    - simpl. apply IH. intros e' v' Hin. apply Hlow. now right. }
  induction (map Country.code (GameState.countries w)) as [|code r IH];
    [reflexivity|].
  simpl. now rewrite Hc.
Qed.

Lemma undecided_settled (x y k : string) (cx cy : Country.t)
  (s : GameState.t) :
  wars_wf_all s ->
  GameState.get_country x s = Some cx ->
  GameState.get_country y s = Some cy ->
  undecided k s -> undecided k (settled x y s).
Proof.
  intros Hwf Hx Hy Hu c' e v Hc Hin Hv.
  destruct (settled_effect x y cx cy s Hwf Hx Hy) as [_ [Hk [Hsh _]]].
  destruct (Hsh k c' Hc) as [c [Hc0 Hincl]].
  rewrite Hk. apply (Hu c e v Hc0); [|exact Hv]. now apply Hincl.
Qed.

(** The inner loop for country [x]: every score of 100 or more that [x]
    still holds against a registered country is among the items yet to be
    met. *)
Lemma inner_loop_settles (x : string) (items : list (string * Z))
  (s s' : GameState.t) :
  wars_wf_all s ->
  known x s = true ->
  (forall c e v, GameState.get_country x s = Some c ->
                 In (e, v) (Country.war_scores c) -> 100 <= v ->
                 known e s = true -> In (e, v) items) ->
  foldM (Diplomacy.force_peace x) items s = Some s' ->
  wars_wf_all s'
  /\ (forall z, known z s' = known z s)
  /\ undecided x s'
  /\ (forall k, undecided k s -> undecided k s').
Proof.
  revert s. induction items as [|[e0 v0] rest IH]; intros s Hwf Hx Hleft.
  - simpl. intros E. injection E as <-.
    split; [exact Hwf|]. split; [reflexivity|]. split; [|auto].
    intros c e v Hc Hin Hv. destruct (known e s) eqn:Ek; [|reflexivity].
    destruct (Hleft c e v Hc Hin Hv Ek).
  - cbn [foldM]. rewrite force_peace_run.
    destruct ((100 <=? v0) && known e0 s) eqn:Ecase.
    + apply andb_true_iff in Ecase. destruct Ecase as [Ev Ek].
      unfold known in Hx, Ek.
      destruct (GameState.get_country x s) as [cx|] eqn:Ex; [|discriminate].
      destruct (GameState.get_country e0 s) as [ce|] eqn:Ee; [|discriminate].
      fold (settled x e0 s).
      destruct (settled_effect x e0 cx ce s Hwf Ex Ee)
        as [Hwf1 [Hk1 [Hsh1 Hgone]]].
      intros Hrun.
      destruct (IH (settled x e0 s) Hwf1) as [Hwf' [Hk' [Hu' Hkeep]]];
        try exact Hrun.
      * rewrite Hk1. unfold known. now rewrite Ex.
      * intros c e v Hc Hin Hv Hke.
        destruct (Hsh1 x c Hc) as [c0 [Hc0 Hincl]].
        assert (c0 = cx) by congruence. subst c0.
        rewrite Hk1 in Hke.
        destruct (Hleft cx e v eq_refl (Hincl _ Hin) Hv Hke) as [E|Hr];
          [|exact Hr].
        injection E as <- <-. exfalso. now apply (Hgone c v0 Hc).
      * split; [exact Hwf'|]. split; [|split; [exact Hu'|]].
        -- intros z. now rewrite Hk', Hk1.
        -- intros k Hu. apply Hkeep.
           now apply (undecided_settled x e0 k cx ce).
    + apply IH; try assumption.
      intros c e v Hc Hin Hv Hke.
      destruct (Hleft c e v Hc Hin Hv Hke) as [E|Hr]; [|exact Hr].
      injection E as <- <-. apply Z.leb_le in Hv.
      rewrite Hv, Hke in Ecase. discriminate.
Qed.

(** X25: with well-formed war data, [auto_peace_at_100] leaves no registered
    country with a score of 100 or more against a registered country, so
    that a second call right after it changes nothing. *)
Theorem auto_peace_settles_every_decided_war (w w' : GameState.t) :
  wars_wf_all w ->
  Diplomacy.auto_peace_at_100 w = Some w' ->
  (forall k c e v,
     GameState.get_country k w' = Some c ->
     In (e, v) (Dict.items (Country.war_scores c)) ->
     100 <= v ->
     GameState.get_country e w' = None)
  /\ Diplomacy.auto_peace_at_100 w' = Some w'.
Proof.
  intros Hwf Hrun.
  assert (Hall : forall k, undecided k w').
  { unfold Diplomacy.auto_peace_at_100 in Hrun.
    pose (P := fun (s : GameState.t) (rest : list string) =>
                 wars_wf_all s
                 /\ (forall z, known z s = known z w)
                 /\ forall k, undecided k s \/ In k rest).
    assert (G : P w' []).
    { refine (foldM_invariant_rest P _ _ _ w w' _ Hrun); unfold P.
      - intros s x rest s1 [Hwf1 [Hk1 Hu1]] Hstep.
        unfold Diplomacy.auto_peace_country in Hstep.
        destruct (GameState.get_country x s) as [cx|] eqn:Ex.
        + destruct (inner_loop_settles x (Dict.items (Country.war_scores cx))
                      s s1 Hwf1) as [Hw2 [Hk2 [Hu2 Hkeep]]];
            try exact Hstep.
          * unfold known. now rewrite Ex.
          * intros c e v Hc Hin _ _. assert (c = cx) by congruence.
            now subst c.
          * split; [exact Hw2|]. split; [intros z; now rewrite Hk2|].
            intros k. destruct (Hu1 k) as [H|[<-|H]]; auto.
        + injection Hstep as <-. split; [exact Hwf1|]. split; [exact Hk1|].
          intros k. destruct (Hu1 k) as [H|[<-|H]]; auto.
          left. intros c e v Hc. congruence.
      - split; [exact Hwf|]. split; [reflexivity|].
        intros k. destruct (GameState.get_country k w) as [c|] eqn:Ek.
        + right. pose proof (get_country_code k c w Ek) as <-.
          apply in_map. unfold GameState.get_country in Ek.
          now apply find_some in Ek.
        + left. intros c e v Hc. congruence. }
    destruct G as [_ [_ G]]. intros k. destruct (G k) as [H|[]]. exact H. }
  split.
  - intros k c e v Hc Hin Hv. specialize (Hall k c e v Hc Hin Hv).
    unfold known in Hall. now destruct (GameState.get_country e w').
  - now apply auto_peace_nothing_decided.
Qed.

Lemma auto_peace_settles_every_decided_war_witness :
  exists w',
    Diplomacy.auto_peace_at_100 mutual_victory = Some w'
    /\ (forall k c e v,
          GameState.get_country k w' = Some c ->
          In (e, v) (Dict.items (Country.war_scores c)) ->
          100 <= v ->
          GameState.get_country e w' = None)
    /\ Diplomacy.auto_peace_at_100 w' = Some w'.
Proof.
  destruct (Diplomacy.auto_peace_at_100 mutual_victory) as [w'|] eqn:E;
    [|vm_compute in E; discriminate].
  exists w'. split; [reflexivity|].
  apply (auto_peace_settles_every_decided_war mutual_victory w');
    [|exact E].
  intros k c H. unfold GameState.get_country in H. apply find_some in H.
  destruct H as [Hin _]. simpl in Hin.
  destruct Hin as [<-|[<-|[<-|[]]]].
  - now apply (wars_wf_single _ "FRA" 100).
  - now apply (wars_wf_single _ "GER" 100).
  - now apply wars_wf_none.
Defined.

(** ** Terrain *)

(** X26: no terrain weakens a defender: the modifier lies between 1.0 and 1.5
    for every terrain name, and a name that is not in the table counts as
    plains. *)
Theorem terrain_modifier_bounds (terrain : string) :
  PrimFloat.leb 1 (Combat._get_terrain_modifier terrain) = true
  /\ PrimFloat.leb (Combat._get_terrain_modifier terrain) 1.5 = true
  /\ (~ In terrain ["plains"; "hills"; "mountains"; "forest"; "urban";
                    "marsh"] ->
      Combat._get_terrain_modifier terrain = 1%float).
Proof.
  unfold Combat._get_terrain_modifier.
  destruct (String.eqb_spec terrain "plains") as [->|H1];
    [repeat split; intros H; exfalso; apply H; simpl; tauto|].
  destruct (String.eqb_spec terrain "hills") as [->|H2];
    [repeat split; intros H; exfalso; apply H; simpl; tauto|].
  destruct (String.eqb_spec terrain "mountains") as [->|H3];
    [repeat split; intros H; exfalso; apply H; simpl; tauto|].
  destruct (String.eqb_spec terrain "forest") as [->|H4];
    [repeat split; intros H; exfalso; apply H; simpl; tauto|].
  destruct (String.eqb_spec terrain "urban") as [->|H5];
    [repeat split; intros H; exfalso; apply H; simpl; tauto|].
  destruct (String.eqb_spec terrain "marsh") as [->|H6];
    [repeat split; intros H; exfalso; apply H; simpl; tauto|].
  repeat split.
Qed.

(** ** The daily accrual and manpower *)

Lemma find_map_same {A : Type} (test : A -> bool) (f : A -> A)
  (xs : list A) :
  (forall x, test (f x) = test x) ->
  find test (map f xs) = option_map f (find test xs).
Proof.
  intros Hf. induction xs as [|x r IH]; simpl; [reflexivity|].
  rewrite Hf. now destruct (test x).
Qed.

Lemma manpower_gain_nonneg (k : string) (w : GameState.t) :
  (forall p, In p (GameState.provinces w) -> 0 <= Province.population p) ->
  0 <= Economy.manpower_gain k w.
Proof.
  intros H. unfold Economy.manpower_gain, GameState.get_provinces_by_owner.
  assert (G : forall ps acc,
            (forall p, In p ps -> 0 <= Province.population p) ->
            0 <= acc ->
            0 <= fold_left (fun acc p => acc + Province.population p / 100)
                           ps acc).
  { induction ps as [|p r IH]; intros acc Hp Hacc; simpl; [exact Hacc|].
    apply IH; [intros q Hq; apply Hp; now right|].
    assert (0 <= Province.population p / 100)
      by (apply Z.div_pos; [apply Hp; now left|lia]).
    lia. }
  apply G; [|lia]. intros p Hp. apply filter_In in Hp. now apply H.
Qed.

(** X27: as long as no province has a negative population, a call of the
    economy's [update] never lowers the manpower of a country: a
    registered country is still registered afterwards, with at least the
    manpower it had and with its wars and war scores untouched. When the
    daily accrual fires, its manpower grows by the sum of
    [population // 100] over the provinces it owns. *)
Theorem economy_update_never_lowers_manpower (dt : float) (k : string)
  (c : Country.t) (w : GameState.t) :
  (forall p, In p (GameState.provinces w) -> 0 <= Province.population p) ->
  GameState.get_country k w = Some c ->
  exists c',
    GameState.get_country k (Economy.update dt w) = Some c'
    /\ Country.manpower c <= Country.manpower c'
    /\ (Country.manpower c' = Country.manpower c
        \/ Country.manpower c'
           = Country.manpower c + Economy.manpower_gain k w)
    /\ Country.at_war_with c' = Country.at_war_with c
    /\ Country.war_scores c' = Country.war_scores c.
Proof.
  intros Hpop Hc. unfold Economy.update.
  destruct (PrimFloat.leb _ _).
  - exists (accrued w c). split.
    + unfold GameState.get_country in *. rewrite collect_once.
      rewrite find_map_same by reflexivity.
      simpl. unfold GameState.get_country in Hc. simpl. now rewrite Hc.
    + pose proof (get_country_code k c w Hc) as Ek.
      pose proof (manpower_gain_nonneg k w Hpop) as Hg.
      unfold accrued. simpl. rewrite Ek.
      split; [lia|]. split; [now right|]. now split.
  - exists c. split; [exact Hc|]. split; [lia|]. split; [now left|].
    now split.
Qed.

Lemma economy_update_never_lowers_manpower_witness :
  exists c',
    GameState.get_country "GER" (Economy.update 24%float Sample.world)
    = Some c'
    /\ 20000 <= Country.manpower c'
    /\ (Country.manpower c' = 20000
        \/ Country.manpower c'
           = 20000 + Economy.manpower_gain "GER" Sample.world)
    /\ Country.at_war_with c' = []
    /\ Country.war_scores c' = [].
Proof.
  apply (economy_update_never_lowers_manpower 24%float "GER"
           (Sample.country "GER" 1 2000%float 20000 [] []) Sample.world).
  - simpl. intros p H.
    repeat (destruct H as [<-|H]; [simpl; lia|]). destruct H.
  - reflexivity.
Defined.
